(** * TireOps patch scripts: a shallow embedding

    The repository is four stand-alone Python scripts.  Each one opens a
    fixed [.tsx] file in text mode, edits the text (as a list of lines or
    as one string) and writes it back.  This development embeds

    - the Python primitives the scripts rely on (substring test, character
      count, [str.replace], list slicing, text-mode file I/O),
    - the four scripts, statement by statement,

    and proves the properties of the specification against them. *)

From Stdlib Require Import ZArith Ascii String List Bool Lia.
From stdpp Require Import base option list gmap strings.

(** ** Python primitives *)

Module Py.

(** *** Characters and strings *)

Definition LF : ascii := "010"%char.
Definition CR : ascii := "013"%char.
Definition nl : string := String LF EmptyString.
Definition dq : string := String "034"%char EmptyString.

(** Source literals are written line by line: [text] joins the lines with
    a line feed, [q] joins the pieces of one line with a double quote. *)
Definition text (lines : list string) : string := String.concat nl lines.
Definition q (pieces : list string) : string := String.concat dq pieces.

(** [sub in s] *)
Fixpoint str_in (sub s : string) : bool :=
  String.prefix sub s ||
  match s with
  | EmptyString => false
  | String _ s' => str_in sub s'
  end.

(** [s.count(c)] for a one-character [c] *)
Fixpoint str_count (c : ascii) (s : string) : Z :=
  match s with
  | EmptyString => 0
  | String d s' => ((if Ascii.eqb c d then 1 else 0) + str_count c s')%Z
  end.

(** [s.replace(old, new)]: every non-overlapping occurrence, scanning from
    the left.  [skip] counts the characters of an occurrence that are still
    to be dropped. *)
Fixpoint replace_from (skip : nat) (old new s : string) : string :=
  match s with
  | EmptyString => EmptyString
  | String c s' =>
      match skip with
      | S k => replace_from k old new s'
      | O =>
          if String.prefix old s
          then new +:+ replace_from (String.length old - 1) old new s'
          else String c (replace_from 0 old new s')
      end
  end.

(** With an empty [old] Python puts [new] before every character and at
    the end. *)
Fixpoint intersperse_str (new s : string) : string :=
  match s with
  | EmptyString => new
  | String c s' => new +:+ String c (intersperse_str new s')
  end.

Definition str_replace (old new s : string) : string :=
  match old with
  | EmptyString => intersperse_str new s
  | String _ _ => replace_from 0 old new s
  end.

(** [''.join(lines)], which is what [writelines] sends to the file *)
Definition join (lines : list string) : string := foldr String.append EmptyString lines.

(** The lines of a text, line ends kept: what [readlines] returns. *)
Fixpoint splitlines (s : string) : list string :=
  match s with
  | EmptyString => []
  | String c s' =>
      if Ascii.eqb c LF then String c EmptyString :: splitlines s'
      else match splitlines s' with
           | [] => [String c EmptyString]
           | l :: ls => String c l :: ls
           end
  end.

(** *** Integers, truthiness and list slices *)

(** [if x:] for [x] an [Optional[int]]: [None] and [0] are false. *)
Definition truthy (x : option Z) : bool :=
  match x with
  | None => false
  | Some n => negb (n =? 0)%Z
  end.

(** A slice bound against a list of length [len]: negative bounds count
    from the end, and the result is clamped to [0 .. len]. *)
Definition slice_bound (len : nat) (i : Z) : nat :=
  Z.to_nat (if (i <? 0)%Z then Z.max 0 (i + Z.of_nat len) else Z.min i (Z.of_nat len)).

(** [l[a:b] = xs] *)
Definition slice_assign {A} (l : list A) (a b : Z) (xs : list A) : list A :=
  let a' := slice_bound (length l) a in
  let b' := slice_bound (length l) b in
  take a' l ++ xs ++ drop (Nat.max a' b') l.

(** [del l[a:b]] *)
Definition slice_del {A} (l : list A) (a b : Z) : list A := slice_assign l a b [].

(** [l.insert(i, x)] *)
Definition list_insert {A} (l : list A) (i : Z) (x : A) : list A :=
  let i' := slice_bound (length l) i in
  take i' l ++ x :: drop i' l.

(** [l[i]] for an index the caller keeps in range *)
Definition list_get (l : list string) (i : Z) : string :=
  nth (Z.to_nat i) l EmptyString.

(** [enumerate(l)], counting from [i] *)
Fixpoint enumerate_from {A} (i : Z) (l : list A) : list (Z * A) :=
  match l with
  | [] => []
  | x :: l' => (i, x) :: enumerate_from (i + 1) l'
  end.

Definition enumerate {A} (l : list A) : list (Z * A) := enumerate_from 0 l.

(** The loop [for i, line in enumerate(lines): if sub in line: ...; break]
    reaches its body at the first line that contains [sub]. *)
Fixpoint first_line_from (i : Z) (sub : string) (lines : list string) : option Z :=
  match lines with
  | [] => None
  | line :: rest =>
      if str_in sub line then Some i else first_line_from (i + 1) sub rest
  end.

Definition first_line (sub : string) (lines : list string) : option Z :=
  first_line_from 0 sub lines.

(** *** Text-mode files *)

(** Reading with [newline=None]: CR LF and a lone CR both arrive as LF. *)
Fixpoint universal_newlines (s : string) : string :=
  match s with
  | EmptyString => EmptyString
  | String c s' =>
      if Ascii.eqb c CR then
        match s' with
        | String d s'' =>
            if Ascii.eqb d LF then String LF (universal_newlines s'')
            else String LF (universal_newlines s')
        | EmptyString => String LF EmptyString
        end
      else String c (universal_newlines s')
  end.

(** Writing with [newline=None]: every LF leaves as [os.linesep]. *)
Fixpoint linesep_newlines (linesep s : string) : string :=
  match s with
  | EmptyString => EmptyString
  | String c s' =>
      if Ascii.eqb c LF then linesep +:+ linesep_newlines linesep s'
      else String c (linesep_newlines linesep s')
  end.

(** [encoding='utf-8'] is strict: the bytes have to be well-formed UTF-8
    (Unicode, table 3-7).  The scripts search for ASCII text only, and
    UTF-8 is self-synchronising, so the decoded text is kept as its
    bytes. *)
Definition between (lo hi : N) (c : ascii) : bool :=
  ((lo <=? N_of_ascii c) && (N_of_ascii c <=? hi))%N.

Definition cont : ascii -> bool := between 128 191.

Fixpoint utf8_valid (s : string) : bool :=
  match s with
  | EmptyString => true
  | String b0 s1 =>
      if between 0 127 b0 then utf8_valid s1
      else
        match s1 with
        | EmptyString => false
        | String b1 s2 =>
            if between 194 223 b0 then cont b1 && utf8_valid s2
            else
              match s2 with
              | EmptyString => false
              | String b2 s3 =>
                  if between 224 224 b0 then between 160 191 b1 && cont b2 && utf8_valid s3
                  else if between 225 236 b0 then cont b1 && cont b2 && utf8_valid s3
                  else if between 237 237 b0 then between 128 159 b1 && cont b2 && utf8_valid s3
                  else if between 238 239 b0 then cont b1 && cont b2 && utf8_valid s3
                  else
                    match s3 with
                    | EmptyString => false
                    | String b3 s4 =>
                        if between 240 240 b0
                        then between 144 191 b1 && cont b2 && cont b3 && utf8_valid s4
                        else if between 241 243 b0
                        then cont b1 && cont b2 && cont b3 && utf8_valid s4
                        else if between 244 244 b0
                        then between 128 143 b1 && cont b2 && cont b3 && utf8_valid s4
                        else false
                    end
              end
        end
  end.

Inductive exn : Type :=
  | FileNotFoundError (path : string)
  | UnicodeDecodeError (path : string)
  | ReError.

Inductive outcome (A : Type) : Type :=
  | Ok (a : A)
  | Raise (e : exn).
Arguments Ok {A} a.
Arguments Raise {A} e.

Inductive event : Type :=
  | Reads (path : string)
  | Writes (path data : string)
  | Prints (line : string).

(** The world a script runs in: the files (path to bytes), the platform's
    [os.linesep], and what the process has done so far, oldest first. *)
Record world : Type := World {
  fs : gmap string string;
  os_linesep : string;
  trace : list event
}.

Definition io (A : Type) : Type := world -> outcome A * world.

#[export] Instance io_ret : MRet io := fun A a w => (Ok a, w).
#[export] Instance io_bind : MBind io := fun A B f m w =>
  match m w with
  | (Ok a, w') => f a w'
  | (Raise e, w') => (Raise e, w')
  end.

Definition raise {A : Type} (e : exn) : io A := fun w => (Raise e, w).

Definition emit (e : event) (w : world) : world :=
  World (fs w) (os_linesep w) (trace w ++ [e]).

(** [with open(path, 'r', encoding='utf-8') as f: f.read()] *)
Definition read_text (path : string) : io string := fun w =>
  match fs w !! path with
  | None => (Raise (FileNotFoundError path), w)
  | Some bytes =>
      if utf8_valid bytes
      then (Ok (universal_newlines bytes), emit (Reads path) w)
      else (Raise (UnicodeDecodeError path), w)
  end.

(** [... f.readlines()] *)
Definition read_lines (path : string) : io (list string) :=
  s ← read_text path; mret (splitlines s).

(** [with open(path, 'w', encoding='utf-8') as f: f.write(s)] *)
Definition write_text (path s : string) : io unit := fun w =>
  let data := linesep_newlines (os_linesep w) s in
  (Ok tt, World (<[path := data]> (fs w)) (os_linesep w) (trace w ++ [Writes path data])).

(** [... f.writelines(lines)] *)
Definition write_lines (path : string) (lines : list string) : io unit :=
  write_text path (join lines).

(** [print(s)] *)
Definition print (s : string) : io unit := fun w =>
  (Ok tt, emit (Prints (s +:+ nl)) w).

(** The exit status of the interpreter: an uncaught exception gives 1. *)
Definition exit_status {A} (r : outcome A * world) : Z :=
  match fst r with
  | Ok _ => 0
  | Raise _ => 1
  end.

Definition stdout (w : world) : list string :=
  omap (fun e => match e with Prints s => Some s | _ => None end) (trace w).

Definition writes (w : world) : list string :=
  omap (fun e => match e with Writes p _ => Some p | _ => None end) (trace w).

End Py.

Import Py.

(** The [for ... : ... break] loop: [body] returns the next loop state and
    whether it executed [break]. *)
Fixpoint for_each {S X : Type} (body : S -> X -> S * bool) (s : S) (xs : list X) : S :=
  match xs with
  | [] => s
  | x :: xs' =>
      let (s', stop) := body s x in
      if stop then s' else for_each body s' xs'
  end.

(** [range(a, b)] *)
Definition range (a b : Z) : list Z :=
  map (fun k => (a + Z.of_nat k)%Z) (seq 0 (Z.to_nat (b - a))).

(** The frame the scripts share, with the edits as a parameter: read the
    buffer, apply the edits in their order, write the buffer back.  Two
    scripts keep the buffer as a list of lines ([readlines], [writelines]),
    two as one string ([read], [write]). *)
Definition rewrite (path : string) (patches : list (list string -> list string)) : io unit :=
  lines ← read_lines path;
  write_lines path (foldl (fun ls patch => patch ls) lines patches).

Definition rewrite_text (path : string) (patches : list (string -> string)) : io unit :=
  content ← read_text path;
  write_text path (foldl (fun c patch => patch c) content patches).

(** ** remove-inline-edit.py *)

Module RemoveInlineEdit.

Definition path : string := "D:/Tire-Shop-MVP/src/app/inventory/page.tsx".
Definition anchor : string := "{editingTireId === tire.id ? (".
Definition else_mark : string := ") : (".
Definition regular_view : string := "/* Regular View */".
Definition message : string := "[OK] Inline edit form removed from inventory page".

(** The variables of the scan loop. *)
Record scan : Type := Scan {
  in_edit_section : bool;
  edit_start : option Z;
  edit_end : option Z;
  brace_count : Z
}.

Definition scan0 : scan := Scan false None None 0.

(** One pass of the loop body at line [i].  The anchor text is a parameter
    so that the locator can be tried on other fixtures; the script uses
    [anchor]. *)
Definition scan_body (anch : string) (st : scan) (x : Z * string) : scan * bool :=
  let (i, line) := x in
  if str_in anch line then
    (Scan true (Some i) (edit_end st) 1, false)
  else if in_edit_section st then
    let bc := (brace_count st + (str_count "{" line - str_count "}" line))%Z in
    if str_in else_mark line && (bc =? 0)%Z then
      (Scan false (edit_start st) (edit_end st) bc, false)
    else if in_edit_section st && (bc <? 0)%Z then
      (Scan (in_edit_section st) (edit_start st) (Some i) bc, true)
    else
      (Scan (in_edit_section st) (edit_start st) (edit_end st) bc, false)
  else (st, false).

(** The brace-balance locator: the state in which the loop ends. *)
Definition locate (anch : string) (lines : list string) : scan :=
  for_each (scan_body anch) scan0 (enumerate lines).

(** The search for the regular view between the two bounds. *)
Definition find_regular_view (lines : list string) (a b : Z) : option Z :=
  for_each
    (fun (found : option Z) (i : Z) =>
       if str_in regular_view (list_get lines i) then (Some i, true) else (found, false))
    None (range a (b + 1)).

(** The edit of the buffer, from the guard on. *)
Definition remove_edit_form (lines : list string) : list string :=
  let st := locate anchor lines in
  if truthy (edit_start st) && truthy (edit_end st) then
    match edit_start st, edit_end st with
    | Some a, Some b =>
        let regular_view_line := find_regular_view lines a b in
        if truthy regular_view_line then
          match regular_view_line with
          | Some r => slice_del lines a (r - 2)
          | None => lines
          end
        else lines
    | _, _ => lines
    end
  else lines.

Definition main : io unit :=
  lines ← read_lines path;
  write_lines path (remove_edit_form lines);;
  print message.

End RemoveInlineEdit.

(** ** convert-modals.py *)

Module ConvertModals.

(** *** The literals of the script

    [convert_inventory_page] and [convert_customers_page] are the same
    statements over different literals; the literals they share are
    written once. *)

Definition react_old : string :=
  "import { useEffect, useState, Suspense } from 'react';".

Definition react_new : string := text [
    "import { useEffect, useState, Suspense, useRef } from 'react';";
    EmptyString
  ].

Definition motion_old : string :=
  "import { motion } from 'framer-motion';".

Definition motion_new : string := text [
    "import { motion, AnimatePresence } from 'framer-motion';";
    EmptyString
  ].

Definition lucide_inventory_old : string :=
  "import { Package, Plus, Search, Download, Trash2, Edit, Check, Loader2 } from 'lucide-react';".

Definition lucide_inventory_new : string := text [
    "import { Package, Plus, Search, Download, Trash2, Edit, Check, Loader2, X } from 'lucide-react';";
    EmptyString
  ].

Definition lucide_customers_old : string :=
  "import { Users, Plus, Search, Edit, Eye, Trash2 } from 'lucide-react';".

Definition lucide_customers_new : string := text [
    "import { Users, Plus, Search, Edit, Eye, Trash2, X } from 'lucide-react';";
    EmptyString
  ].

Definition supabase_line : string :=
  "  const supabase = createClient();".

Definition modal_ref : string := text [
    "  const modalRef = useRef<HTMLDivElement>(null);";
    EmptyString;
    EmptyString
  ].

Definition deps_inventory : string :=
  "  }, [searchTerm, stockFilter, inventory]);".

Definition deps_customers : string :=
  "  }, [searchTerm, customers]);".

Definition scroll_lock_effect : string := text [
    EmptyString;
    "  useEffect(() => {";
    "    if (showForm) {";
    "      document.body.style.overflow = 'hidden';";
    "    } else {";
    "      document.body.style.overflow = '';";
    "    }";
    "    return () => {";
    "      document.body.style.overflow = '';";
    "    };";
    "  }, [showForm]);";
    EmptyString
  ].

Definition form_mark : string :=
  "        {/* Form */}".

Definition form_close : string :=
  "        )}".

Definition modal_form_inventory : string := text [
    "        {/* Form Modal */}";
    "        {showForm && (";
    "          <AnimatePresence>";
    "            <motion.div";
    "              initial={{ opacity: 0 }}";
    "              animate={{ opacity: 1 }}";
    "              exit={{ opacity: 0 }}";
    q ["              className="; "fixed inset-0 bg-black/60 backdrop-blur-sm z-50"; EmptyString];
    "              onClick={() => setShowForm(false)}";
    q ["              aria-hidden="; "true"; EmptyString];
    "            />";
    EmptyString;
    "            <div";
    q ["              className="; "fixed inset-0 overflow-y-auto pointer-events-none z-50"; EmptyString];
    "              style={{ overscrollBehavior: 'contain' }}";
    "            >";
    q ["              <div className="; "min-h-full flex items-center justify-center p-6 pointer-events-none"; ">"];
    "                <div";
    "                  ref={modalRef}";
    q ["                  role="; "dialog"; EmptyString];
    q ["                  aria-modal="; "true"; EmptyString];
    q ["                  aria-labelledby="; "modal-title"; EmptyString];
    "                  tabIndex={-1}";
    q ["                  className="; "pointer-events-auto w-[90vw] max-w-[1200px]"; EmptyString];
    "                  style={{ overflow: 'visible' }}";
    "                  onClick={(e) => e.stopPropagation()}";
    "                  onKeyDown={(e) => {";
    "                    if (e.key === 'Escape') {";
    "                      setShowForm(false);";
    "                    }";
    "                  }}";
    "                >";
    "                  <motion.div";
    "                    initial={{ opacity: 0, scale: 0.95 }}";
    "                    animate={{ opacity: 1, scale: 1 }}";
    "                    exit={{ opacity: 0, scale: 0.95 }}";
    q ["                    className="; "bg-gray-50 dark:bg-gray-900 rounded-2xl shadow-2xl"; EmptyString];
    "                    style={{ maxHeight: '90vh', padding: '24px', overflow: 'visible' }}";
    "                  >";
    "                    {/* Header with X button */}";
    q ["                    <div className="; "flex items-center justify-between mb-6 pb-6 border-b border-gray-200 dark:border-gray-800"; ">"];
    q ["                      <h2 id="; "modal-title"; " className="; "text-2xl font-semibold text-gray-900 dark:text-white"; ">"];
    "                        Add New Tire";
    "                      </h2>";
    "                      <button";
    q ["                        type="; "button"; EmptyString];
    "                        onClick={() => setShowForm(false)}";
    q ["                        className="; "p-2 hover:bg-gray-200 dark:hover:bg-gray-800 rounded-lg transition-colors"; EmptyString];
    "                      >";
    q ["                        <X size={20} className="; "text-gray-500 dark:text-gray-400"; " />"];
    "                      </button>";
    "                    </div>";
    EmptyString;
    "                    {/* Form with scrollable content */}";
    q ["                    <form onSubmit={handleSubmit} className="; "flex flex-col"; " style={{ maxHeight: 'calc(90vh - 180px)' }}>"];
    q ["                      <div className="; "overflow-y-auto flex-1 pr-2 -mr-2"; ">"];
    q ["                        <div className="; "grid grid-cols-1 sm:grid-cols-2 gap-4"; ">"];
    "                          <div>";
    q ["                            <label className="; "block text-xs font-medium text-gray-600 dark:text-gray-400 mb-2 uppercase tracking-wide"; ">"];
    "                              Brand *";
    "                            </label>";
    "                            <input";
    q ["                              type="; "text"; EmptyString];
    "                              required";
    "                              value={formData.brand}";
    "                              onChange={(e) =>";
    "                                setFormData({ ...formData, brand: e.target.value })";
    "                              }";
    q ["                              className="; "w-full h-11 px-3 rounded-lg border-gray-300 dark:border-gray-700 bg-white dark:bg-gray-800 text-gray-900 dark:text-white text-xs focus:outline-none focus:ring-2 focus:ring-blue-500 focus:border-transparent"; EmptyString];
    "                            />";
    "                          </div>";
    "                          <div>";
    q ["                            <label className="; "block text-xs font-medium text-gray-600 dark:text-gray-400 mb-2 uppercase tracking-wide"; ">"];
    "                              Model *";
    "                            </label>";
    "                            <input";
    q ["                              type="; "text"; EmptyString];
    "                              required";
    "                              value={formData.model}";
    "                              onChange={(e) =>";
    "                                setFormData({ ...formData, model: e.target.value })";
    "                              }";
    q ["                              className="; "w-full h-11 px-3 rounded-lg border-gray-300 dark:border-gray-700 bg-white dark:bg-gray-800 text-gray-900 dark:text-white text-xs focus:outline-none focus:ring-2 focus:ring-blue-500 focus:border-transparent"; EmptyString];
    "                            />";
    "                          </div>";
    "                          <div>";
    q ["                            <label className="; "block text-xs font-medium text-gray-600 dark:text-gray-400 mb-2 uppercase tracking-wide"; ">"];
    "                              Size *";
    "                            </label>";
    "                            <input";
    q ["                              type="; "text"; EmptyString];
    "                              required";
    q ["                              placeholder="; "e.g., 225/45R17"; EmptyString];
    "                              value={formData.size}";
    "                              onChange={(e) =>";
    "                                setFormData({ ...formData, size: e.target.value })";
    "                              }";
    q ["                              className="; "w-full h-11 px-3 rounded-lg border-gray-300 dark:border-gray-700 bg-white dark:bg-gray-800 text-gray-900 dark:text-white text-xs focus:outline-none focus:ring-2 focus:ring-blue-500 focus:border-transparent"; EmptyString];
    "                            />";
    "                          </div>";
    "                          <div>";
    q ["                            <label className="; "block text-xs font-medium text-gray-600 dark:text-gray-400 mb-2 uppercase tracking-wide"; ">"];
    "                              Quantity *";
    "                            </label>";
    "                            <Stepper";
    "                              value={formData.quantity}";
    "                              onChange={(value) => setFormData({ ...formData, quantity: value })}";
    "                              min={0}";
    q ["                              className="; "justify-start"; EmptyString];
    "                            />";
    "                          </div>";
    "                          <div>";
    q ["                            <label className="; "block text-xs font-medium text-gray-600 dark:text-gray-400 mb-2 uppercase tracking-wide"; ">"];
    "                              Price *";
    "                            </label>";
    "                            <input";
    q ["                              type="; "number"; EmptyString];
    "                              required";
    q ["                              min="; "0"; EmptyString];
    q ["                              step="; "0.01"; EmptyString];
    "                              value={formData.price}";
    "                              onChange={(e) =>";
    "                                setFormData({ ...formData, price: parseFloat(e.target.value) })";
    "                              }";
    q ["                              className="; "w-full h-11 px-3 rounded-lg border-gray-300 dark:border-gray-700 bg-white dark:bg-gray-800 text-gray-900 dark:text-white text-xs focus:outline-none focus:ring-2 focus:ring-blue-500 focus:border-transparent"; EmptyString];
    "                            />";
    "                          </div>";
    q ["                          <div className="; "col-span-1 sm:col-span-2"; ">"];
    q ["                            <label className="; "block text-xs font-medium text-gray-600 dark:text-gray-400 mb-2 uppercase tracking-wide"; ">"];
    "                              Description";
    "                            </label>";
    "                            <textarea";
    "                              value={formData.description}";
    "                              onChange={(e) =>";
    "                                setFormData({ ...formData, description: e.target.value })";
    "                              }";
    q ["                              className="; "w-full h-24 px-3 py-2 rounded-lg border border-gray-300 dark:border-gray-700 bg-white dark:bg-gray-800 text-gray-900 dark:text-white text-xs focus:outline-none focus:ring-2 focus:ring-blue-500 focus:border-transparent resize-none"; EmptyString];
    "                              rows={3}";
    "                            />";
    "                          </div>";
    "                        </div>";
    "                      </div>";
    EmptyString;
    "                      {/* Fixed Button Row at Bottom */}";
    q ["                      <div className="; "flex gap-3 justify-end mt-6 pt-6 border-t border-gray-200 dark:border-gray-800"; ">"];
    "                        <button";
    q ["                          type="; "button"; EmptyString];
    "                          onClick={() => setShowForm(false)}";
    q ["                          className="; "px-6 py-2.5 rounded-lg border border-gray-300 dark:border-gray-700 bg-white dark:bg-gray-800 text-gray-700 dark:text-gray-300 hover:bg-gray-50 dark:hover:bg-gray-750 transition-all text-sm font-medium"; EmptyString];
    "                        >";
    "                          Cancel";
    "                        </button>";
    "                        <button";
    q ["                          type="; "submit"; EmptyString];
    q ["                          className="; "px-6 py-2.5 rounded-lg bg-blue-600 hover:bg-blue-700 text-white transition-all text-sm font-medium shadow-sm hover:shadow-md"; EmptyString];
    "                        >";
    "                          Add Tire";
    "                        </button>";
    "                      </div>";
    "                    </form>";
    "                  </motion.div>";
    "                </div>";
    "              </div>";
    "            </div>";
    "          </AnimatePresence>";
    "        )}";
    EmptyString;
    EmptyString
  ].

Definition modal_form_customers : string := text [
    "        {/* Form Modal */}";
    "        {showForm && (";
    "          <AnimatePresence>";
    "            <motion.div";
    "              initial={{ opacity: 0 }}";
    "              animate={{ opacity: 1 }}";
    "              exit={{ opacity: 0 }}";
    q ["              className="; "fixed inset-0 bg-black/60 backdrop-blur-sm z-50"; EmptyString];
    "              onClick={() => setShowForm(false)}";
    q ["              aria-hidden="; "true"; EmptyString];
    "            />";
    EmptyString;
    "            <div";
    q ["              className="; "fixed inset-0 overflow-y-auto pointer-events-none z-50"; EmptyString];
    "              style={{ overscrollBehavior: 'contain' }}";
    "            >";
    q ["              <div className="; "min-h-full flex items-center justify-center p-6 pointer-events-none"; ">"];
    "                <div";
    "                  ref={modalRef}";
    q ["                  role="; "dialog"; EmptyString];
    q ["                  aria-modal="; "true"; EmptyString];
    q ["                  aria-labelledby="; "modal-title"; EmptyString];
    "                  tabIndex={-1}";
    q ["                  className="; "pointer-events-auto w-[90vw] max-w-[1200px]"; EmptyString];
    "                  style={{ overflow: 'visible' }}";
    "                  onClick={(e) => e.stopPropagation()}";
    "                  onKeyDown={(e) => {";
    "                    if (e.key === 'Escape') {";
    "                      setShowForm(false);";
    "                    }";
    "                  }}";
    "                >";
    "                  <motion.div";
    "                    initial={{ opacity: 0, scale: 0.95 }}";
    "                    animate={{ opacity: 1, scale: 1 }}";
    "                    exit={{ opacity: 0, scale: 0.95 }}";
    q ["                    className="; "bg-gray-50 dark:bg-gray-900 rounded-2xl shadow-2xl"; EmptyString];
    "                    style={{ maxHeight: '90vh', padding: '24px', overflow: 'visible' }}";
    "                  >";
    "                    {/* Header with X button */}";
    q ["                    <div className="; "flex items-center justify-between mb-6 pb-6 border-b border-gray-200 dark:border-gray-800"; ">"];
    q ["                      <h2 id="; "modal-title"; " className="; "text-2xl font-semibold text-gray-900 dark:text-white"; ">"];
    "                        {editingId ? 'Edit Customer' : 'Add New Customer'}";
    "                      </h2>";
    "                      <button";
    q ["                        type="; "button"; EmptyString];
    "                        onClick={() => setShowForm(false)}";
    q ["                        className="; "p-2 hover:bg-gray-200 dark:hover:bg-gray-800 rounded-lg transition-colors"; EmptyString];
    "                      >";
    q ["                        <X size={20} className="; "text-gray-500 dark:text-gray-400"; " />"];
    "                      </button>";
    "                    </div>";
    EmptyString;
    "                    {/* Form with scrollable content */}";
    q ["                    <form onSubmit={handleSubmit} className="; "flex flex-col"; " style={{ maxHeight: 'calc(90vh - 180px)' }}>"];
    q ["                      <div className="; "overflow-y-auto flex-1 pr-2 -mr-2"; ">"];
    q ["                        <div className="; "grid grid-cols-1 sm:grid-cols-2 gap-4"; ">"];
    "                          <div>";
    q ["                            <label className="; "block text-xs font-medium text-gray-600 dark:text-gray-400 mb-2 uppercase tracking-wide"; ">"];
    "                              Name *";
    "                            </label>";
    "                            <input";
    q ["                              type="; "text"; EmptyString];
    "                              required";
    "                              value={formData.name}";
    "                              onChange={(e) => setFormData({ ...formData, name: e.target.value })}";
    q ["                              className="; "w-full h-11 px-3 rounded-lg border-gray-300 dark:border-gray-700 bg-white dark:bg-gray-800 text-gray-900 dark:text-white text-xs focus:outline-none focus:ring-2 focus:ring-blue-500 focus:border-transparent"; EmptyString];
    "                            />";
    "                          </div>";
    "                          <div>";
    q ["                            <label className="; "block text-xs font-medium text-gray-600 dark:text-gray-400 mb-2 uppercase tracking-wide"; ">"];
    "                              Phone *";
    "                            </label>";
    "                            <input";
    q ["                              type="; "tel"; EmptyString];
    "                              required";
    "                              value={formData.phone}";
    "                              onChange={(e) => setFormData({ ...formData, phone: e.target.value })}";
    q ["                              className="; "w-full h-11 px-3 rounded-lg border-gray-300 dark:border-gray-700 bg-white dark:bg-gray-800 text-gray-900 dark:text-white text-xs focus:outline-none focus:ring-2 focus:ring-blue-500 focus:border-transparent"; EmptyString];
    "                            />";
    "                          </div>";
    "                          <div>";
    q ["                            <label className="; "block text-xs font-medium text-gray-600 dark:text-gray-400 mb-2 uppercase tracking-wide"; ">"];
    "                              Email";
    "                            </label>";
    "                            <input";
    q ["                              type="; "email"; EmptyString];
    "                              value={formData.email}";
    "                              onChange={(e) => setFormData({ ...formData, email: e.target.value })}";
    q ["                              className="; "w-full h-11 px-3 rounded-lg border-gray-300 dark:border-gray-700 bg-white dark:bg-gray-800 text-gray-900 dark:text-white text-xs focus:outline-none focus:ring-2 focus:ring-blue-500 focus:border-transparent"; EmptyString];
    "                            />";
    "                          </div>";
    "                          <div>";
    q ["                            <label className="; "block text-xs font-medium text-gray-600 dark:text-gray-400 mb-2 uppercase tracking-wide"; ">"];
    "                              Address";
    "                            </label>";
    "                            <input";
    q ["                              type="; "text"; EmptyString];
    "                              value={formData.address}";
    "                              onChange={(e) => setFormData({ ...formData, address: e.target.value })}";
    q ["                              className="; "w-full h-11 px-3 rounded-lg border-gray-300 dark:border-gray-700 bg-white dark:bg-gray-800 text-gray-900 dark:text-white text-xs focus:outline-none focus:ring-2 focus:ring-blue-500 focus:border-transparent"; EmptyString];
    "                            />";
    "                          </div>";
    "                        </div>";
    "                      </div>";
    EmptyString;
    "                      {/* Fixed Button Row at Bottom */}";
    q ["                      <div className="; "flex gap-3 justify-end mt-6 pt-6 border-t border-gray-200 dark:border-gray-800"; ">"];
    "                        <button";
    q ["                          type="; "button"; EmptyString];
    "                          onClick={() => setShowForm(false)}";
    q ["                          className="; "px-6 py-2.5 rounded-lg border border-gray-300 dark:border-gray-700 bg-white dark:bg-gray-800 text-gray-700 dark:text-gray-300 hover:bg-gray-50 dark:hover:bg-gray-750 transition-all text-sm font-medium"; EmptyString];
    "                        >";
    "                          Cancel";
    "                        </button>";
    "                        <button";
    q ["                          type="; "submit"; EmptyString];
    q ["                          className="; "px-6 py-2.5 rounded-lg bg-blue-600 hover:bg-blue-700 text-white transition-all text-sm font-medium shadow-sm hover:shadow-md"; EmptyString];
    "                        >";
    "                          {editingId ? 'Update Customer' : 'Add Customer'}";
    "                        </button>";
    "                      </div>";
    "                    </form>";
    "                  </motion.div>";
    "                </div>";
    "              </div>";
    "            </div>";
    "          </AnimatePresence>";
    "        )}";
    EmptyString;
    EmptyString
  ].

Definition inventory_path : string :=
  "D:/Tire-Shop-MVP/src/app/inventory/page.tsx".

Definition customers_path : string :=
  "D:/Tire-Shop-MVP/src/app/customers/page.tsx".

Definition inventory_message : string :=
  "[OK] Inventory page converted to modal overlay".

Definition customers_message : string :=
  "[OK] Customers page converted to modal overlay".

Definition all_message : string := text [
    EmptyString;
    "[OK] All pages successfully converted to modal overlays!"
  ].

(** *** The four steps *)

(** Step 1: the import lines, among the first ten lines.  The loop runs
    over the copy [lines[:10]] and assigns into [lines]. *)
Definition update_imports_body (lucide_old lucide_new : string)
    (lines : list string) (x : Z * string) : list string * bool :=
  let (i, line) := x in
  if str_in react_old line then (<[Z.to_nat i := react_new]> lines, false)
  else if str_in motion_old line then (<[Z.to_nat i := motion_new]> lines, false)
  else if str_in lucide_old line then (<[Z.to_nat i := lucide_new]> lines, false)
  else (lines, false).

Definition update_imports (lucide_old lucide_new : string) (lines : list string) : list string :=
  for_each (update_imports_body lucide_old lucide_new) lines
    (enumerate (take (slice_bound (length lines) 10) lines)).

(** Step 2: [modalRef] goes in before the first line with [supabase_line]. *)
Definition add_modal_ref (lines : list string) : list string :=
  for_each
    (fun (ls : list string) (x : Z * string) =>
       let (i, line) := x in
       if str_in supabase_line line then (list_insert ls i modal_ref, true) else (ls, false))
    lines (enumerate lines).

(** Step 3: the scroll lock goes in after the first line with [deps]. *)
Definition add_scroll_lock (deps : string) (lines : list string) : list string :=
  for_each
    (fun (ls : list string) (x : Z * string) =>
       let (i, line) := x in
       if str_in deps line then (list_insert ls (i + 1) scroll_lock_effect, true) else (ls, false))
    lines (enumerate lines).

(** Step 4: the bounds of the form section, [(form_start, form_end)]. *)
Definition form_body (st : option Z * option Z) (x : Z * string) : (option Z * option Z) * bool :=
  let (i, line) := x in
  let (form_start, form_end) := st in
  let form_start := if str_in form_mark line then Some i else form_start in
  match form_start with
  | Some a =>
      if str_in form_close line && (i >? a + 10)%Z
      then ((form_start, Some (i + 1)%Z), true)
      else ((form_start, form_end), false)
  | None => ((form_start, form_end), false)
  end.

Definition locate_form (lines : list string) : option Z * option Z :=
  for_each form_body (None, None) (enumerate lines).

Definition replace_form (modal_form : string) (lines : list string) : list string :=
  let (form_start, form_end) := locate_form lines in
  if truthy form_start && truthy form_end then
    match form_start, form_end with
    | Some a, Some b => slice_assign lines a b [modal_form]
    | _, _ => lines
    end
  else lines.

(** The buffer one page function writes, from the buffer it read. *)
Definition patch (lucide_old lucide_new deps modal_form : string) (lines : list string) : list string :=
  replace_form modal_form
    (add_scroll_lock deps
       (add_modal_ref
          (update_imports lucide_old lucide_new lines))).

Definition convert_page (path lucide_old lucide_new deps modal_form message : string) : io unit :=
  lines ← read_lines path;
  write_lines path (patch lucide_old lucide_new deps modal_form lines);;
  print message.

Definition convert_inventory_page : io unit :=
  convert_page inventory_path lucide_inventory_old lucide_inventory_new
    deps_inventory modal_form_inventory inventory_message.

Definition convert_customers_page : io unit :=
  convert_page customers_path lucide_customers_old lucide_customers_new
    deps_customers modal_form_customers customers_message.

(** [if __name__ == '__main__':] *)
Definition main : io unit :=
  convert_inventory_page;;
  convert_customers_page;;
  print all_message.

End ConvertModals.

(** ** update-inventory-edit.py *)

Module UpdateInventoryEdit.

Definition path : string :=
  "D:/Tire-Shop-MVP/src/app/inventory/page.tsx".

Definition message : string :=
  "[OK] Inventory page updated to use modal for editing".

Definition old1 : string := text [
    "  function startEditingTire(tire: Tire) {";
    "    setEditingTireId(tire.id);";
    "    setFormData({";
    "      brand: tire.brand,";
    "      model: tire.model,";
    "      size: tire.size,";
    "      quantity: tire.quantity,";
    "      price: tire.price,";
    "      description: tire.description || '',";
    "    });";
    "  }"
  ].

Definition new1 : string := text [
    "  function startEditingTire(tire: Tire) {";
    "    setEditingTireId(tire.id);";
    "    setFormData({";
    "      brand: tire.brand,";
    "      model: tire.model,";
    "      size: tire.size,";
    "      quantity: tire.quantity,";
    "      price: tire.price,";
    "      description: tire.description || '',";
    "    });";
    "    setShowForm(true);";
    "  }"
  ].

Definition old2 : string := text [
    "  function cancelEditingTire() {";
    "    setEditingTireId(null);";
    "    setFormData({";
    "      brand: '',";
    "      model: '',";
    "      size: '',";
    "      quantity: 0,";
    "      price: 0,";
    "      description: '',";
    "    });";
    "  }"
  ].

Definition new2 : string := text [
    "  function cancelEditingTire() {";
    "    setEditingTireId(null);";
    "    setShowForm(false);";
    "    setFormData({";
    "      brand: '',";
    "      model: '',";
    "      size: '',";
    "      quantity: 0,";
    "      price: 0,";
    "      description: '',";
    "    });";
    "  }"
  ].

Definition old3 : string := text [
    "      setEditingTireId(null);";
    "      setFormData({";
    "        brand: '',";
    "        model: '',";
    "        size: '',";
    "        quantity: 0,";
    "        price: 0,";
    "        description: '',";
    "      });";
    "      loadInventory();"
  ].

Definition new3 : string := text [
    "      setEditingTireId(null);";
    "      setShowForm(false);";
    "      setFormData({";
    "        brand: '',";
    "        model: '',";
    "        size: '',";
    "        quantity: 0,";
    "        price: 0,";
    "        description: '',";
    "      });";
    "      loadInventory();"
  ].

Definition old4 : string := text [
    "  async function handleSubmit(e: React.FormEvent) {";
    "    e.preventDefault();";
    "    try {";
    "      const { error } = await supabase.from('inventory').insert([formData]);";
    EmptyString;
    "      if (error) throw error;";
    EmptyString;
    "      setFormData({";
    "        brand: '',";
    "        model: '',";
    "        size: '',";
    "        quantity: 0,";
    "        price: 0,";
    "        description: '',";
    "      });";
    "      setShowForm(false);";
    "      loadInventory();";
    "    } catch (error) {";
    "      console.error('Error adding tire:', error);";
    "      alert('Error adding tire');";
    "    }";
    "  }"
  ].

Definition new4 : string := text [
    "  async function handleSubmit(e: React.FormEvent) {";
    "    e.preventDefault();";
    "    try {";
    "      if (editingTireId) {";
    "        const { error } = await supabase";
    "          .from('inventory')";
    "          .update(formData)";
    "          .eq('id', editingTireId);";
    "        if (error) throw error;";
    "      } else {";
    "        const { error } = await supabase.from('inventory').insert([formData]);";
    "        if (error) throw error;";
    "      }";
    EmptyString;
    "      setEditingTireId(null);";
    "      setFormData({";
    "        brand: '',";
    "        model: '',";
    "        size: '',";
    "        quantity: 0,";
    "        price: 0,";
    "        description: '',";
    "      });";
    "      setShowForm(false);";
    "      loadInventory();";
    "    } catch (error) {";
    "      console.error(`Error ${editingTireId ? 'updating' : 'adding'} tire:`, error);";
    "      alert(`Error ${editingTireId ? 'updating' : 'adding'} tire`);";
    "    }";
    "  }"
  ].

Definition old5 : string := text [
    q ["                      <h2 id="; "modal-title"; " className="; "text-2xl font-semibold text-gray-900 dark:text-white"; ">"];
    "                        Add New Tire";
    "                      </h2>"
  ].

Definition new5 : string := text [
    q ["                      <h2 id="; "modal-title"; " className="; "text-2xl font-semibold text-gray-900 dark:text-white"; ">"];
    "                        {editingTireId ? 'Edit Tire' : 'Add New Tire'}";
    "                      </h2>"
  ].

Definition old6 : string := text [
    "                        >";
    "                          Add Tire";
    "                        </button>"
  ].

Definition new6 : string := text [
    "                        >";
    "                          {editingTireId ? 'Update Tire' : 'Add Tire'}";
    "                        </button>"
  ].

Definition old7 : string := text [
    "                        <button";
    q ["                          type="; "button"; EmptyString];
    "                          onClick={() => setShowForm(false)}";
    q ["                          className="; "px-6 py-2.5 rounded-lg border border-gray-300 dark:border-gray-700 bg-white dark:bg-gray-800 text-gray-700 dark:text-gray-300 hover:bg-gray-50 dark:hover:bg-gray-750 transition-all text-sm font-medium"; EmptyString];
    "                        >";
    "                          Cancel";
    "                        </button>"
  ].

Definition new7 : string := text [
    "                        <button";
    q ["                          type="; "button"; EmptyString];
    "                          onClick={() => {";
    "                            setShowForm(false);";
    "                            setEditingTireId(null);";
    "                            setFormData({";
    "                              brand: '',";
    "                              model: '',";
    "                              size: '',";
    "                              quantity: 0,";
    "                              price: 0,";
    "                              description: '',";
    "                            });";
    "                          }}";
    q ["                          className="; "px-6 py-2.5 rounded-lg border border-gray-300 dark:border-gray-700 bg-white dark:bg-gray-800 text-gray-700 dark:text-gray-300 hover:bg-gray-50 dark:hover:bg-gray-750 transition-all text-sm font-medium"; EmptyString];
    "                        >";
    "                          Cancel";
    "                        </button>"
  ].

Definition old8 : string := text [
    q ["              className="; "fixed inset-0 bg-black/60 backdrop-blur-sm z-50"; EmptyString];
    "              onClick={() => setShowForm(false)}";
    q ["              aria-hidden="; "true"; EmptyString]
  ].

Definition new8 : string := text [
    q ["              className="; "fixed inset-0 bg-black/60 backdrop-blur-sm z-50"; EmptyString];
    "              onClick={() => {";
    "                setShowForm(false);";
    "                setEditingTireId(null);";
    "              }}";
    q ["              aria-hidden="; "true"; EmptyString]
  ].

Definition old9 : string := text [
    "                      <button";
    q ["                        type="; "button"; EmptyString];
    "                        onClick={() => setShowForm(false)}";
    q ["                        className="; "p-2 hover:bg-gray-200 dark:hover:bg-gray-800 rounded-lg transition-colors"; EmptyString];
    "                      >";
    q ["                        <X size={20} className="; "text-gray-500 dark:text-gray-400"; " />"];
    "                      </button>"
  ].

Definition new9 : string := text [
    "                      <button";
    q ["                        type="; "button"; EmptyString];
    "                        onClick={() => {";
    "                          setShowForm(false);";
    "                          setEditingTireId(null);";
    "                        }}";
    q ["                        className="; "p-2 hover:bg-gray-200 dark:hover:bg-gray-800 rounded-lg transition-colors"; EmptyString];
    "                      >";
    q ["                        <X size={20} className="; "text-gray-500 dark:text-gray-400"; " />"];
    "                      </button>"
  ].

Definition old10 : string := text [
    "                  onKeyDown={(e) => {";
    "                    if (e.key === 'Escape') {";
    "                      setShowForm(false);";
    "                    }";
    "                  }}"
  ].

Definition new10 : string := text [
    "                  onKeyDown={(e) => {";
    "                    if (e.key === 'Escape') {";
    "                      setShowForm(false);";
    "                      setEditingTireId(null);";
    "                    }";
    "                  }}"
  ].

(** The ten [content = content.replace(old, new)] statements, in order. *)
Definition replacements : list (string * string) :=
  [ (old1, new1); (old2, new2); (old3, new3); (old4, new4); (old5, new5);
    (old6, new6); (old7, new7); (old8, new8); (old9, new9); (old10, new10) ].

Definition patch (content : string) : string :=
  foldl (fun c r => str_replace (fst r) (snd r) c) content replacements.

Definition main : io unit :=
  content ← read_text path;
  write_text path (patch content);;
  print message.

End UpdateInventoryEdit.

(** ** The fragment of [re] that convert-to-modal.py uses *)

Module Re.

(** A pattern is a sequence of literal characters, capturing parentheses
    and the lazy wildcard [.*?]. *)
Inductive atom : Type :=
  | Chr (c : ascii)
  | AnyLazy
  | Open
  | Close.

Definition backslash : ascii := "092"%char.

Definition is_alnum (c : ascii) : bool :=
  between 48 57 c || between 65 90 c || between 97 122 c.

(** The characters that mean something else than themselves when they
    stand unescaped. *)
Definition is_special (c : ascii) : bool :=
  str_in (String c EmptyString) ".[{()*+?^$|" || Ascii.eqb c backslash.

(** [re.compile]: [None] for a pattern outside the fragment. *)
Fixpoint parse (p : string) : option (list atom) :=
  match p with
  | EmptyString => Some []
  | String c p' =>
      if Ascii.eqb c backslash then
        match p' with
        | String d p'' => if is_alnum d then None else cons (Chr d) <$> parse p''
        | EmptyString => None
        end
      else if Ascii.eqb c "(" then cons Open <$> parse p'
      else if Ascii.eqb c ")" then cons Close <$> parse p'
      else if Ascii.eqb c "." then
        match p' with
        | String d (String e p3) =>
            if Ascii.eqb d "*" && Ascii.eqb e "?" then cons AnyLazy <$> parse p3 else None
        | _ => None
        end
      else if is_special c then None
      else cons (Chr c) <$> parse p'
  end.

(** Parentheses have to be balanced. *)
Fixpoint balanced (depth : nat) (p : list atom) : bool :=
  match p with
  | [] => Nat.eqb depth 0
  | Open :: p' => balanced (S depth) p'
  | Close :: p' => match depth with S d => balanced d p' | O => false end
  | _ :: p' => balanced depth p'
  end.

Definition compile (p : string) : option (list atom) :=
  match parse p with
  | Some r => if balanced 0 r then Some r else None
  | None => None
  end.

(** A match: the number of characters it consumes and, for every
    parenthesis passed, whether it opens and where it stands. *)
Definition found : Type := nat * list (bool * nat).

Definition shift (r : option found) : option found :=
  match r with
  | Some (n, ms) => Some (S n, map (fun m => (fst m, S (snd m))) ms)
  | None => None
  end.

Definition mark (opening : bool) (r : option found) : option found :=
  match r with
  | Some (n, ms) => Some (n, (opening, 0) :: ms)
  | None => None
  end.

(** The backtracking matcher, anchored at the start of the string.  The
    lazy wildcard first tries the rest of the pattern and takes one more
    character only when that fails; without [DOTALL] it stops at a line
    feed. *)
Fixpoint match_here (dotall : bool) (p : list atom) : string -> option found :=
  match p with
  | [] => fun _ => Some (0, [])
  | Chr c :: p' => fun s =>
      match s with
      | String d s' => if Ascii.eqb c d then shift (match_here dotall p' s') else None
      | EmptyString => None
      end
  | Open :: p' => fun s => mark true (match_here dotall p' s)
  | Close :: p' => fun s => mark false (match_here dotall p' s)
  | AnyLazy :: p' =>
      fix star (s : string) : option found :=
        match match_here dotall p' s with
        | Some r => Some r
        | None =>
            match s with
            | String d s' =>
                if dotall || negb (Ascii.eqb d LF) then shift (star s') else None
            | EmptyString => None
            end
        end
  end.

(** The end of the group that opens first: the closing parenthesis at
    depth zero. *)
Fixpoint group_end (depth : nat) (ms : list (bool * nat)) : option nat :=
  match ms with
  | [] => None
  | (true, _) :: ms' => group_end (S depth) ms'
  | (false, k) :: ms' =>
      match depth with
      | O => Some k
      | S d => group_end d ms'
      end
  end.

(** The text of group 1 of a match that starts at the head of [s]; the
    empty text when the pattern has no group. *)
Definition group1 (ms : list (bool * nat)) (s : string) : string :=
  match ms with
  | (true, a) :: ms' =>
      match group_end 0 ms' with
      | Some b => substring a (b - a) s
      | None => EmptyString
      end
  | _ => EmptyString
  end.

(** A replacement template: literal characters and the reference to
    group 1. *)
Inductive item : Type :=
  | Lit (c : ascii)
  | Group1.

Fixpoint template (r : string) : option (list item) :=
  match r with
  | EmptyString => Some []
  | String c r' =>
      if Ascii.eqb c backslash then
        match r' with
        | String d r'' =>
            if Ascii.eqb d "1" then cons Group1 <$> template r''
            else if Ascii.eqb d backslash then cons (Lit d) <$> template r''
            else None
        | EmptyString => None
        end
      else cons (Lit c) <$> template r'
  end.

Fixpoint expand (t : list item) (g1 : string) : string :=
  match t with
  | [] => EmptyString
  | Lit c :: t' => String c (expand t' g1)
  | Group1 :: t' => g1 +:+ expand t' g1
  end.

(** [re.sub] on a compiled pattern: the matches are taken from the left
    and do not overlap; [left] is the number of replacements still allowed
    ([None]: no limit); [skip] counts the characters of a match that are
    still to be dropped.  A match of length zero cannot happen for a
    pattern with a literal character, which all the script's patterns
    have. *)
Fixpoint sub_from (dotall : bool) (p : list atom) (t : list item)
    (skip : nat) (left : option nat) (s : string) : string :=
  match s with
  | EmptyString => EmptyString
  | String c s' =>
      match skip with
      | S k => sub_from dotall p t k left s'
      | O =>
          match left with
          | Some O => s
          | _ =>
              match match_here dotall p s with
              | Some (S n, ms) =>
                  expand t (group1 ms s) +:+ sub_from dotall p t n (Nat.pred <$> left) s'
              | _ => String c (sub_from dotall p t 0 left s')
              end
          end
      end
  end.

Definition is_open (a : atom) : bool := match a with Open => true | _ => false end.
Definition is_group1 (i : item) : bool := match i with Group1 => true | Lit _ => false end.

(** [re.sub(pattern, repl, s, count, flags)]; [count = 0] means all
    matches; [None] stands for a pattern or a template outside the
    fragment, and for a template that refers to a group the pattern does
    not have. *)
Definition sub (pattern repl s : string) (count : nat) (dotall : bool) : option string :=
  match compile pattern, template repl with
  | Some p, Some t =>
      if existsb is_group1 t && negb (existsb is_open p) then None
      else Some (sub_from dotall p t 0 (match count with O => None | S _ => Some count end) s)
  | _, _ => None
  end.

End Re.

(** ** convert-to-modal.py *)

Module ConvertToModal.

Definition path : string :=
  "D:/Tire-Shop-MVP/src/app/inventory/page.tsx".

Definition scroll_lock_effect : string := text [
    EmptyString;
    "  useEffect(() => {";
    "    if (showForm) {";
    "      document.body.style.overflow = 'hidden';";
    "    } else {";
    "      document.body.style.overflow = '';";
    "    }";
    "    return () => {";
    "      document.body.style.overflow = '';";
    "    };";
    "  }, [showForm]);";
    EmptyString
  ].

Definition pattern : string :=
  "(  }, \[searchTerm, stockFilter, inventory\];)".

Definition group1 : string :=
  "\1".

Definition old_form : string := text [
    "        \{/\* Form \*/\}";
    "        \{showForm && \(";
    "          <motion\.div";
    "            initial=\{\{ opacity: 0, y: -20 \}\}";
    "            animate=\{\{ opacity: 1, y: 0 \}\}";
    q ["            className="; "bg-gray-50 dark:bg-gray-900 rounded-2xl border border-gray-200 dark:border-gray-700 shadow-lg"; EmptyString];
    "            style=\{\{ padding: '24px' \}\}";
    "          >";
    q ["            <h2 className="; "text-xl font-semibold text-gray-900 dark:text-white mb-6"; ">Add New Tire</h2>"]
  ].

Definition new_form : string := text [
    "        {/* Form Modal */}";
    "        {showForm && (";
    "          <AnimatePresence>";
    "            <motion.div";
    "              initial={{ opacity: 0 }}";
    "              animate={{ opacity: 1 }}";
    "              exit={{ opacity: 0 }}";
    q ["              className="; "fixed inset-0 bg-black/60 backdrop-blur-sm z-50"; EmptyString];
    "              onClick={() => setShowForm(false)}";
    q ["              aria-hidden="; "true"; EmptyString];
    "            />";
    EmptyString;
    "            <div";
    q ["              className="; "fixed inset-0 overflow-y-auto pointer-events-none z-50"; EmptyString];
    "              style={{ overscrollBehavior: 'contain' }}";
    "            >";
    q ["              <div className="; "min-h-full flex items-center justify-center p-6 pointer-events-none"; ">"];
    "                <div";
    "                  ref={modalRef}";
    q ["                  role="; "dialog"; EmptyString];
    q ["                  aria-modal="; "true"; EmptyString];
    q ["                  aria-labelledby="; "modal-title"; EmptyString];
    "                  tabIndex={-1}";
    q ["                  className="; "pointer-events-auto w-[90vw] max-w-[1200px]"; EmptyString];
    "                  style={{ overflow: 'visible' }}";
    "                  onClick={(e) => e.stopPropagation()}";
    "                  onKeyDown={(e) => {";
    "                    if (e.key === 'Escape') {";
    "                      setShowForm(false);";
    "                    }";
    "                  }}";
    "                >";
    "                  <motion.div";
    "                    initial={{ opacity: 0, scale: 0.95 }}";
    "                    animate={{ opacity: 1, scale: 1 }}";
    "                    exit={{ opacity: 0, scale: 0.95 }}";
    q ["                    className="; "bg-gray-50 dark:bg-gray-900 rounded-2xl shadow-2xl"; EmptyString];
    "                    style={{ maxHeight: '90vh', padding: '24px', overflow: 'visible' }}";
    "                  >";
    "                    {/* Header with X button */}";
    q ["                    <div className="; "flex items-center justify-between mb-6 pb-6 border-b border-gray-200 dark:border-gray-800"; ">"];
    q ["                      <h2 id="; "modal-title"; " className="; "text-2xl font-semibold text-gray-900 dark:text-white"; ">"];
    "                        Add New Tire";
    "                      </h2>";
    "                      <button";
    q ["                        type="; "button"; EmptyString];
    "                        onClick={() => setShowForm(false)}";
    q ["                        className="; "p-2 hover:bg-gray-200 dark:hover:bg-gray-800 rounded-lg transition-colors"; EmptyString];
    "                      >";
    q ["                        <X size={20} className="; "text-gray-500 dark:text-gray-400"; " />"];
    "                      </button>";
    "                    </div>"
  ].

Definition old_form_tag : string :=
  q ["            <form onSubmit=\{handleSubmit\} className="; "space-y-6"; ">"].

Definition new_form_tag : string := text [
    "                    {/* Form with scrollable content */}";
    q ["                    <form onSubmit={handleSubmit} className="; "flex flex-col"; " style={{ maxHeight: 'calc(90vh - 180px)' }}>"];
    q ["                      <div className="; "overflow-y-auto flex-1 pr-2 -mr-2"; ">"]
  ].

Definition old_buttons : string := text [
    q ["              <div className="; "flex flex-col sm:flex-row gap-3 pt-4 border-t border-gray-200 dark:border-gray-800"; ">"];
    "                <button";
    q ["                  type="; "button"; EmptyString];
    "                  onClick=\{.*?\}";
    q ["                  className="; "sm:flex-1 h-11 px-4 rounded-lg border border-gray-300 dark:border-gray-700 bg-white dark:bg-gray-800 text-gray-700 dark:text-gray-300 text-sm font-medium hover:bg-gray-100 dark:hover:bg-gray-750 transition-colors"; EmptyString];
    "                >";
    "                  Cancel";
    "                </button>";
    "                <button";
    q ["                  type="; "submit"; EmptyString];
    q ["                  className="; "sm:flex-1 h-11 px-4 rounded-lg bg-blue-600 hover:bg-blue-700 text-white text-sm font-semibold transition-colors shadow-sm hover:shadow-md"; EmptyString];
    "                >";
    "                  Add Tire";
    "                </button>";
    "              </div>";
    "            </form>";
    "          </motion\.div>";
    "        \)\}"
  ].

Definition new_buttons : string := text [
    "                      </div>";
    EmptyString;
    "                      {/* Fixed Button Row at Bottom */}";
    q ["                      <div className="; "flex gap-3 justify-end mt-6 pt-6 border-t border-gray-200 dark:border-gray-800"; ">"];
    "                        <button";
    q ["                          type="; "button"; EmptyString];
    "                          onClick={() => setShowForm(false)}";
    q ["                          className="; "px-6 py-2.5 rounded-lg border border-gray-300 dark:border-gray-700 bg-white dark:bg-gray-800 text-gray-700 dark:text-gray-300 hover:bg-gray-50 dark:hover:bg-gray-750 transition-all text-sm font-medium"; EmptyString];
    "                        >";
    "                          Cancel";
    "                        </button>";
    "                        <button";
    q ["                          type="; "submit"; EmptyString];
    q ["                          className="; "px-6 py-2.5 rounded-lg bg-blue-600 hover:bg-blue-700 text-white transition-all text-sm font-medium shadow-sm hover:shadow-md"; EmptyString];
    "                        >";
    "                          Add Tire";
    "                        </button>";
    "                      </div>";
    "                    </form>";
    "                  </motion.div>";
    "                </div>";
    "              </div>";
    "            </div>";
    "          </AnimatePresence>";
    "        )}"
  ].

Definition message : string :=
  "Inventory page modal conversion completed!".

(** The four [re.sub] statements.  [None] would be a pattern outside the
    modelled fragment of [re], for which [main] raises; the script's
    patterns are inside it, see [patch_defined]. *)
Definition patch (inventory_content : string) : option string :=
  c1 ← Re.sub pattern (group1 +:+ scroll_lock_effect) inventory_content 1 false;
  c2 ← Re.sub old_form new_form c1 0 true;
  c3 ← Re.sub old_form_tag new_form_tag c2 0 false;
  Re.sub old_buttons new_buttons c3 0 true.

Definition main : io unit :=
  inventory_content ← read_text path;
  match patch inventory_content with
  | Some c => write_text path c;; print message
  | None => raise ReError
  end.

End ConvertToModal.

(** * Vocabulary of the properties *)

(** What a script that reads [path], writes [data] back and prints
    [message] leaves behind. *)
Definition rewritten (w : world) (path data message : string) : world :=
  World (<[path := data]> (fs w)) (os_linesep w)
        (trace w ++ [Reads path; Writes path data; Prints (message +:+ nl)]).

(** What step 1 of convert-modals.py does to one line. *)
Definition import_rule (lucide_old lucide_new line : string) : string :=
  if str_in ConvertModals.react_old line then ConvertModals.react_new
  else if str_in ConvertModals.motion_old line then ConvertModals.motion_new
  else if str_in lucide_old line then lucide_new
  else line.

(** One text starts the other. *)
Definition comparable (a b : string) : bool := String.prefix a b || String.prefix b a.

(** No non-empty suffix of [v] starts with [old] or starts [old]. *)
Fixpoint suffixes_ok (old v : string) : bool :=
  match v with
  | EmptyString => true
  | String _ v' => negb (comparable old v) && suffixes_ok old v'
  end.

(** No non-empty suffix of [w] starts with [new] or starts [new]. *)
Fixpoint tails_ok (new w : string) : bool :=
  match w with
  | EmptyString => true
  | String _ w' => negb (comparable w new) && tails_ok new w'
  end.

(** A decidable condition on a pair [(old, new)]: an occurrence of [old]
    can neither begin inside [new] nor end inside it. *)
Definition replace_safe (old new : string) : bool :=
  match old, new with
  | String _ old', String _ _ => suffixes_ok old new && tails_ok new old'
  | _, _ => false
  end.

(** The text a pattern without wildcard matches. *)
Fixpoint literal (p : list Re.atom) : option string :=
  match p with
  | [] => Some EmptyString
  | Re.Chr c :: p' => String c <$> literal p'
  | Re.AnyLazy :: _ => None
  | Re.Open :: p' => literal p'
  | Re.Close :: p' => literal p'
  end.

(** The text [ConvertToModal.pattern] stands for, and the line
    convert-modals.py looks for in the same page. *)
Definition pattern_text : string := "  }, [searchTerm, stockFilter, inventory];".
Definition page_line : string := ConvertModals.deps_inventory.

(** The first [re.sub] of convert-to-modal.py. *)
Definition first_sub (content : string) : option string :=
  Re.sub ConvertToModal.pattern (ConvertToModal.group1 +:+ ConvertToModal.scroll_lock_effect)
    content 1 false.

(** The text convert-to-modal.py writes. *)
Definition patch_text (content : string) : string :=
  default content (ConvertToModal.patch content).

(** [s] without its first [n] characters. *)
Fixpoint sdrop (n : nat) (s : string) : string :=
  match n, s with
  | O, _ => s
  | S k, String _ s' => sdrop k s'
  | S _, EmptyString => EmptyString
  end.

(** [extra] put in behind the first occurrence of [l]. *)
Fixpoint insert_after_first (l extra s : string) : string :=
  match s with
  | EmptyString => EmptyString
  | String c s' =>
      if String.prefix l s then l +:+ extra +:+ sdrop (String.length l) s
      else String c (insert_after_first l extra s')
  end.

Definition cr : string := String CR EmptyString.
Definition crlf : string := String CR (String LF EmptyString).

(** ** Fixtures *)

(** A page that is the anchor line of step 2 and nothing else. *)
Definition supabase_only : string := ConvertModals.supabase_line +:+ nl.

(** A buffer with the form mark on its first two lines. *)
Definition twice_marked : list string :=
  [ConvertModals.form_mark +:+ nl; ConvertModals.form_mark +:+ nl]
  ++ repeat ("x" +:+ nl) 10 ++ [ConvertModals.form_close +:+ nl].

(** Buffers whose region starts on line 0 and has its end. *)
Definition form_on_top : list string :=
  [ConvertModals.form_mark +:+ nl] ++ repeat ("x" +:+ nl) 11
  ++ [ConvertModals.form_close +:+ nl; "tail" +:+ nl].

(** A buffer with the form mark on line 1 and on no other line. *)
Definition form_below_top : list string :=
  ["top" +:+ nl; ConvertModals.form_mark +:+ nl] ++ repeat ("x" +:+ nl) 11
  ++ [ConvertModals.form_close +:+ nl; "tail" +:+ nl].

Definition edit_on_top : list string :=
  [RemoveInlineEdit.anchor +:+ nl; ") : (" +:+ nl;
   "  " +:+ RemoveInlineEdit.regular_view +:+ nl; ")}" +:+ nl; "))}" +:+ nl].

(** Worlds on a platform whose [os.linesep] is LF. *)
Definition two_pages : world :=
  World {[ ConvertModals.inventory_path := supabase_only;
           ConvertModals.customers_path := "nothing to patch" +:+ nl ]} nl [].

Definition both_pages : world :=
  World {[ ConvertModals.inventory_path := supabase_only;
           ConvertModals.customers_path := supabase_only ]} nl [].

(** The inventory page of [both_pages] among other files and with a past. *)
Definition elsewhere : world :=
  World {[ ConvertModals.inventory_path := supabase_only; "notes.txt" := "x" ]} nl
        [Prints "earlier"].

Definition unix_page : world := World {[ ConvertModals.inventory_path := "a" +:+ nl ]} nl [].


(** ** Vocabulary of the further properties *)

(** A card whose inline edit form starts on line 1; the regular view is
    marked on line 5 and the scan ends on line 8. *)
Definition edit_card : list string :=
  ["<ul>" +:+ nl; RemoveInlineEdit.anchor +:+ nl; "<form>" +:+ nl; "</form>" +:+ nl;
   ") : (" +:+ nl; RemoveInlineEdit.regular_view +:+ nl; "<div/>" +:+ nl; ")}" +:+ nl;
   "))}" +:+ nl].

(** A card whose anchor line, line 1, also has the mark of the regular
    view. *)
Definition edit_one_liner : list string :=
  ["<ul>" +:+ nl; RemoveInlineEdit.anchor +:+ " " +:+ RemoveInlineEdit.regular_view +:+ nl;
   "a" +:+ nl; "b" +:+ nl; "}" +:+ nl; "}" +:+ nl].

(** Eleven lines with the react import on the first and on the last. *)
Definition imports_page : list string :=
  [ConvertModals.react_old +:+ nl] ++ repeat ("x" +:+ nl) 9 ++ [ConvertModals.react_old +:+ nl].

(** A page with the anchor of step 3 above the anchor of step 2. *)
Definition anchors_page : list string :=
  ["top" +:+ nl; ConvertModals.deps_inventory +:+ nl; "middle" +:+ nl;
   ConvertModals.supabase_line +:+ nl; "bottom" +:+ nl].

(** A world with the inventory page and no customers page. *)
Definition inventory_only : world :=
  World {[ ConvertModals.inventory_path := supabase_only ]} nl [].

(** A world whose inventory page is not UTF-8. *)
Definition broken_page : world :=
  World {[ ConvertModals.inventory_path := String "255"%char EmptyString ]} nl [].

(** Every old text of [rs] against every new text of [rs]. *)
Definition all_safe (rs : list (string * string)) : bool :=
  forallb (fun r => forallb (fun r' => replace_safe (fst r) (snd r')) rs) rs.

(** One [content.replace(old, new)] statement of update-inventory-edit.py. *)
Definition replace_step (c : string) (r : string * string) : string :=
  str_replace (fst r) (snd r) c.

(** A pattern without its escaping backslashes. *)
Fixpoint unescape (p : string) : string :=
  match p with
  | EmptyString => EmptyString
  | String c p' =>
      if Ascii.eqb c Re.backslash then
        match p' with
        | String d p'' => String d (unescape p'')
        | EmptyString => EmptyString
        end
      else String c (unescape p')
  end.

(** [s.find(sub)] *)
Fixpoint find (sub s : string) : option nat :=
  if String.prefix sub s then Some 0
  else
    match s with
    | EmptyString => None
    | String _ s' => S <$> find sub s'
    end.

(** The literal characters a pattern starts with, and what follows its
    first wildcard. *)
Fixpoint lits_before (p : list Re.atom) : list ascii :=
  match p with
  | Re.Chr c :: p' => c :: lits_before p'
  | _ => []
  end.

Fixpoint after_any (p : list Re.atom) : list Re.atom :=
  match p with
  | [] => []
  | Re.AnyLazy :: p' => p'
  | _ :: p' => after_any p'
  end.

(** The two literal parts of the pattern for the button row of
    convert-to-modal.py: up to [onClick={], and from the closing brace of
    the handler on. *)
Definition buttons_atoms : list Re.atom :=
  default [] (Re.compile ConvertToModal.old_buttons).
Definition buttons_head : string :=
  string_of_list_ascii (lits_before buttons_atoms).
Definition buttons_tail : string :=
  string_of_list_ascii (lits_before (after_any buttons_atoms)).

(** A handler that spans two lines and has braces of its own. *)
Definition two_line_handler : string :=
  "() => {" +:+ nl +:+ "  setShowForm(false) }".

(** Well-formed UTF-8 that starts with an ASCII character. *)
Definition starts_ascii (s : string) : bool :=
  match s with
  | String c _ => between 0 127 c
  | EmptyString => false
  end.

Fixpoint no_ascii (s : string) : bool :=
  match s with
  | EmptyString => true
  | String c s' => negb (between 0 127 c) && no_ascii s'
  end.

(** What the byte-level argument needs of the texts of a replacement:
    the old text is well-formed and starts with an ASCII character, the
    new text is well-formed and has no carriage return. *)
Definition plain_texts (rs : list (string * string)) : bool :=
  forallb (fun r => starts_ascii (fst r) && utf8_valid (fst r) &&
                    utf8_valid (snd r) && replace_safe cr (snd r)) rs.

(** The files a process has read, oldest first. *)
Definition reads (w : world) : list string :=
  omap (fun e => match e with Reads p => Some p | _ => None end) (trace w).

(** A card list with the anchor of remove-inline-edit.py on line 0 and
    again on line 2; the regular view is marked on line 5. *)
Definition edit_twice_marked : list string :=
  [RemoveInlineEdit.anchor +:+ nl; "x" +:+ nl; RemoveInlineEdit.anchor +:+ nl;
   "a" +:+ nl; "b" +:+ nl; RemoveInlineEdit.regular_view +:+ nl; "}" +:+ nl; "}" +:+ nl].

(** A world without any file. *)
Definition no_files : world := World ∅ nl [].

(** * Properties *)

#[local] Arguments String.append : simpl nomatch.

(** The tail of every run: the write and the report, put in the form of
    [rewritten]. *)
Ltac finish_run :=
  unfold write_lines, write_text, print, rewritten, emit; cbn;
  now rewrite <- !app_assoc.

(** ** The primitives *)

Section Primitives.

Lemma join_splitlines (s : string) : join (splitlines s) = s.
Proof.
  unfold join. induction s as [|c s IH]; [reflexivity|].
  cbn [splitlines]. destruct (Ascii.eqb c LF).
  - cbn. now rewrite IH.
  - destruct (splitlines s) as [|l ls]; rewrite <- IH; reflexivity.
Qed.

Lemma read_text_ok (w : world) (path bytes : string) :
  fs w !! path = Some bytes -> utf8_valid bytes = true ->
  read_text path w = (Ok (universal_newlines bytes), emit (Reads path) w).
Proof. intros Hf Hv. unfold read_text. now rewrite Hf, Hv. Qed.

Lemma read_text_missing (w : world) (path : string) :
  fs w !! path = None -> read_text path w = (Raise (FileNotFoundError path), w).
Proof. intros Hf. unfold read_text. now rewrite Hf. Qed.

Lemma read_lines_ok (w : world) (path bytes : string) :
  fs w !! path = Some bytes -> utf8_valid bytes = true ->
  read_lines path w = (Ok (splitlines (universal_newlines bytes)), emit (Reads path) w).
Proof.
  intros Hf Hv. unfold read_lines, mbind, io_bind.
  now rewrite (read_text_ok w path bytes Hf Hv).
Qed.

Lemma read_lines_missing (w : world) (path : string) :
  fs w !! path = None -> read_lines path w = (Raise (FileNotFoundError path), w).
Proof.
  intros Hf. unfold read_lines, mbind, io_bind. now rewrite read_text_missing.
Qed.

End Primitives.

Lemma convert_page_run (w : world) (path lo ln deps mf message bytes : string) :
  fs w !! path = Some bytes -> utf8_valid bytes = true ->
  ConvertModals.convert_page path lo ln deps mf message w =
  (Ok tt, rewritten w path
            (linesep_newlines (os_linesep w)
               (join (ConvertModals.patch lo ln deps mf (splitlines (universal_newlines bytes)))))
            message).
Proof.
  intros Hf Hv. unfold ConvertModals.convert_page, mbind, io_bind.
  rewrite (read_lines_ok w path bytes Hf Hv).
  finish_run.
Qed.

(** ** Loops over the lines *)

Section Loops.

Lemma slice_bound_in_range (len : nat) (i : Z) :
  (0 <= i <= Z.of_nat len)%Z -> slice_bound len i = Z.to_nat i.
Proof.
  intros H. unfold slice_bound.
  destruct (Z.ltb_spec i 0); [lia|]. f_equal. lia.
Qed.

Lemma slice_bound_le (len : nat) (i : Z) : slice_bound len i <= len.
Proof. unfold slice_bound. destruct (Z.ltb_spec i 0); lia. Qed.

(** A search loop that breaks at its first hit does its body at
    [first_line]. *)
Lemma for_each_first {S : Type} (g : S -> Z -> S) (sub : string) (st : S)
    (k : Z) (lines : list string) :
  for_each
    (fun (st : S) (x : Z * string) =>
       let (i, line) := x in
       if str_in sub line then (g st i, true) else (st, false))
    st (enumerate_from k lines)
  = match first_line_from k sub lines with
    | Some i => g st i
    | None => st
    end.
Proof.
  revert k. induction lines as [|line rest IH]; intros k; [reflexivity|].
  cbn. destruct (str_in sub line); [reflexivity|]. apply IH.
Qed.

Lemma first_line_from_None (k : Z) (sub : string) (lines : list string) :
  first_line_from k sub lines = None <->
  Forall (fun l => str_in sub l = false) lines.
Proof.
  revert k. induction lines as [|line rest IH]; intros k; cbn.
  - split; [constructor | reflexivity].
  - destruct (str_in sub line) eqn:E.
    + split; [discriminate|]. intros H. inversion H; congruence.
    + rewrite IH. split; [now constructor | intros H; now inversion H].
Qed.

Lemma first_line_from_Some (k : Z) (sub : string) (lines : list string) (i : Z) :
  first_line_from k sub lines = Some i ->
  exists pre line post,
    lines = pre ++ line :: post /\ i = (k + Z.of_nat (length pre))%Z /\
    Forall (fun l => str_in sub l = false) pre /\ str_in sub line = true.
Proof.
  revert k. induction lines as [|line rest IH]; intros k; cbn; [discriminate|].
  destruct (str_in sub line) eqn:E.
  - intros [= <-]. exists [], line, rest. cbn. repeat split; [lia | constructor | assumption].
  - intros H. destruct (IH _ H) as (pre & l & post & -> & -> & Hpre & Hl).
    exists (line :: pre), l, post. cbn. repeat split; [lia | now constructor | assumption].
Qed.

Lemma first_line_from_app (k : Z) (sub : string) (pre : list string) (line : string)
    (post : list string) :
  Forall (fun l => str_in sub l = false) pre -> str_in sub line = true ->
  first_line_from k sub (pre ++ line :: post) = Some (k + Z.of_nat (length pre))%Z.
Proof.
  revert k. induction pre as [|p pre IH]; intros k Hpre Hl; cbn.
  - rewrite Hl. f_equal. lia.
  - inversion Hpre as [|? ? Hp Hpre']; subst. rewrite Hp, (IH _ Hpre' Hl). f_equal. lia.
Qed.

Lemma list_insert_at {A : Type} (pre post : list A) (x : A) :
  list_insert (pre ++ post) (Z.of_nat (length pre)) x = pre ++ x :: post.
Proof.
  unfold list_insert. rewrite slice_bound_in_range by (rewrite length_app; lia).
  rewrite Nat2Z.id, take_app_length, drop_app_length. reflexivity.
Qed.

(** After [lines.insert(i, x)] at the line the anchor was found on, the
    anchor is found again, one line further down. *)
Lemma first_line_insert_before (sub x : string) (lines : list string) (i : Z) :
  first_line sub lines = Some i -> str_in sub x = false ->
  first_line sub (list_insert lines i x) = Some (i + 1)%Z.
Proof.
  unfold first_line. intros H Hx.
  destruct (first_line_from_Some _ _ _ _ H) as (pre & line & post & -> & -> & Hpre & Hl).
  rewrite Z.add_0_l, list_insert_at.
  replace (pre ++ x :: line :: post) with ((pre ++ [x]) ++ line :: post)
    by now rewrite <- app_assoc.
  rewrite first_line_from_app; [| apply Forall_app; split; [assumption | now repeat constructor] | assumption].
  rewrite length_app. cbn. f_equal. lia.
Qed.

(** After [lines.insert(i + 1, x)] the anchor is found where it was. *)
Lemma first_line_insert_after (sub x : string) (lines : list string) (i : Z) :
  first_line sub lines = Some i ->
  first_line sub (list_insert lines (i + 1) x) = Some i.
Proof.
  unfold first_line. intros H.
  destruct (first_line_from_Some _ _ _ _ H) as (pre & line & post & -> & -> & Hpre & Hl).
  replace (pre ++ line :: post) with ((pre ++ [line]) ++ post) by now rewrite <- app_assoc.
  replace (0 + Z.of_nat (length pre) + 1)%Z with (Z.of_nat (length (pre ++ [line])))
    by (rewrite length_app; cbn; lia).
  rewrite list_insert_at, <- app_assoc. cbn.
  now rewrite first_line_from_app.
Qed.

End Loops.

(** ** convert-modals.py, step by step *)

Section ConvertModalsSteps.

Import ConvertModals.

Lemma add_modal_ref_first (lines : list string) :
  add_modal_ref lines =
  match first_line supabase_line lines with
  | Some i => list_insert lines i modal_ref
  | None => lines
  end.
Proof.
  unfold add_modal_ref, first_line, enumerate.
  apply (for_each_first (fun ls i => list_insert ls i modal_ref)).
Qed.

Lemma add_scroll_lock_first (deps : string) (lines : list string) :
  add_scroll_lock deps lines =
  match first_line deps lines with
  | Some i => list_insert lines (i + 1) scroll_lock_effect
  | None => lines
  end.
Proof.
  unfold add_scroll_lock, first_line, enumerate.
  apply (for_each_first (fun ls i => list_insert ls (i + 1) scroll_lock_effect)).
Qed.

(** The two insertions at a buffer cut at the anchor line. *)
Lemma add_modal_ref_at (pre post : list string) (line : string) :
  Forall (fun l => str_in supabase_line l = false) pre -> str_in supabase_line line = true ->
  add_modal_ref (pre ++ line :: post) = pre ++ modal_ref :: line :: post.
Proof.
  intros Hpre Hl. rewrite add_modal_ref_first. unfold first_line.
  rewrite (first_line_from_app 0 _ pre line post Hpre Hl), Z.add_0_l.
  apply list_insert_at.
Qed.

Lemma add_scroll_lock_at (deps : string) (pre post : list string) (line : string) :
  Forall (fun l => str_in deps l = false) pre -> str_in deps line = true ->
  add_scroll_lock deps (pre ++ line :: post) = pre ++ line :: scroll_lock_effect :: post.
Proof.
  intros Hpre Hl. rewrite add_scroll_lock_first. unfold first_line.
  rewrite (first_line_from_app 0 _ pre line post Hpre Hl), Z.add_0_l.
  replace (pre ++ line :: post) with ((pre ++ [line]) ++ post) by now rewrite <- app_assoc.
  replace (Z.of_nat (length pre) + 1)%Z with (Z.of_nat (length (pre ++ [line])))
    by (rewrite length_app; cbn; lia).
  rewrite list_insert_at, <- app_assoc. reflexivity.
Qed.

Lemma add_modal_ref_none (lines : list string) :
  Forall (fun l => str_in supabase_line l = false) lines -> add_modal_ref lines = lines.
Proof.
  intros H. rewrite add_modal_ref_first. unfold first_line.
  now rewrite (proj2 (first_line_from_None 0 _ lines) H).
Qed.

Lemma add_scroll_lock_none (deps : string) (lines : list string) :
  Forall (fun l => str_in deps l = false) lines -> add_scroll_lock deps lines = lines.
Proof.
  intros H. rewrite add_scroll_lock_first. unfold first_line.
  now rewrite (proj2 (first_line_from_None 0 _ lines) H).
Qed.

Lemma update_imports_loop (lo ln : string) (done todo rest : list string) :
  for_each (update_imports_body lo ln) (done ++ todo ++ rest)
    (enumerate_from (Z.of_nat (length done)) todo)
  = done ++ map (import_rule lo ln) todo ++ rest.
Proof.
  revert done. induction todo as [|line todo IH]; intros done; [reflexivity|].
  cbn [enumerate_from for_each update_imports_body]. rewrite Nat2Z.id.
  assert (Hstep : forall x : string,
    for_each (update_imports_body lo ln) (<[length done := x]> (done ++ (line :: todo) ++ rest))
      (enumerate_from (Z.of_nat (length done) + 1) todo)
    = done ++ x :: map (import_rule lo ln) todo ++ rest).
  { intros x. rewrite insert_app_r_alt by lia. rewrite Nat.sub_diag. cbn.
    replace (done ++ x :: todo ++ rest) with ((done ++ [x]) ++ todo ++ rest)
      by now rewrite <- app_assoc.
    replace (Z.of_nat (length done) + 1)%Z with (Z.of_nat (length (done ++ [x])))
      by (rewrite length_app; cbn; lia).
    rewrite IH. now rewrite <- app_assoc. }
  unfold import_rule. cbn [map].
  destruct (str_in react_old line); [apply Hstep|].
  destruct (str_in motion_old line); [apply Hstep|].
  destruct (str_in lo line); [apply Hstep|].
  replace (done ++ (line :: todo) ++ rest) with (<[length done := line]> (done ++ (line :: todo) ++ rest)) at 1.
  - apply Hstep.
  - rewrite insert_app_r_alt by lia. now rewrite Nat.sub_diag.
Qed.

Lemma update_imports_map (lo ln : string) (lines : list string) :
  update_imports lo ln lines = map (import_rule lo ln) (take 10 lines) ++ drop 10 lines.
Proof.
  unfold update_imports, enumerate.
  assert (Ht : take (slice_bound (length lines) 10) lines = take 10 lines).
  { unfold slice_bound. cbn. destruct (Z.min_spec 10 (Z.of_nat (length lines))) as [[? ->]|[? ->]].
    - reflexivity.
    - rewrite Nat2Z.id, firstn_all. symmetry. apply take_ge. lia. }
  rewrite Ht. rewrite <- (take_drop 10 lines) at 1.
  apply (update_imports_loop lo ln [] (take 10 lines) (drop 10 lines)).
Qed.

End ConvertModalsSteps.

(** ** The two-bound locators *)

Section FormLocator.

Import ConvertModals.

(** The loop of step 4, entered at line [k] with [form_start = st0] and
    [form_end = None].  When it ends with both bounds set, the end is one
    past a closing line [k + n]; the start is either the one the loop was
    entered with, and then no line up to the closing one has the mark, or
    a marked line [k + m] after which no line up to the closing one has
    the mark. *)
Lemma form_loop (lines : list string) :
  forall (k : Z) (st0 : option Z) (a b : Z),
    for_each form_body (st0, None) (enumerate_from k lines) = (Some a, Some b) ->
    exists (n : nat) (le : string),
      b = (k + Z.of_nat n + 1)%Z /\ lines !! n = Some le /\
      str_in form_close le = true /\ (k + Z.of_nat n > a + 10)%Z /\
      ((st0 = Some a /\
        forall (j : nat) (l : string), j <= n -> lines !! j = Some l -> str_in form_mark l = false)
       \/
       (exists (m : nat) (la : string),
          a = (k + Z.of_nat m)%Z /\ m <= n /\ lines !! m = Some la /\
          str_in form_mark la = true /\
          forall (j : nat) (l : string), m < j <= n -> lines !! j = Some l ->
                                         str_in form_mark l = false)).
Proof.
  induction lines as [|line rest IH]; intros k st0 a b; cbn [enumerate_from for_each].
  - intros [= ]. 
  - unfold form_body at 1.
    destruct (str_in form_mark line) eqn:Em.
    + (* the mark is on this line: it cannot close, the scan goes on *)
      assert (Hno : (k >? k + 10)%Z = false) by lia.
      rewrite Hno, andb_false_r. intros H.
      destruct (IH _ _ _ _ H) as (n & le & -> & Hle & Hc & Hgt & Hcase).
      exists (S n), le. repeat split; [lia | assumption | assumption | lia |].
      right. destruct Hcase as [[[= <-] Hnone] | (m & la & -> & Hm & Hla & Hma & Hnone)].
      * exists 0, line. repeat split; [lia | lia | assumption |].
        intros [|j] l Hj Hl; [lia|]. cbn in Hl. apply (Hnone j); [lia | assumption].
      * exists (S m), la. repeat split; [lia | lia | assumption | assumption |].
        intros [|j] l Hj Hl; [lia|]. cbn in Hl. apply (Hnone j); [lia | assumption].
    + destruct st0 as [a0|].
      * destruct (str_in form_close line && (k >? a0 + 10)%Z) eqn:Ec.
        -- intros [= <- <-]. apply andb_true_iff in Ec as [Ec Hk].
           exists 0, line. repeat split; [lia | assumption | lia |].
           left. split; [reflexivity|]. intros [|j] l Hj Hl; [|lia]. cbn in Hl. congruence.
        -- intros H. destruct (IH _ _ _ _ H) as (n & le & -> & Hle & Hc & Hgt & Hcase).
           exists (S n), le. repeat split; [lia | assumption | assumption | lia |].
           destruct Hcase as [[Hst Hnone] | (m & la & -> & Hm & Hla & Hma & Hnone)].
           ++ left. split; [assumption|]. intros [|j] l Hj Hl.
              ** cbn in Hl. congruence.
              ** cbn in Hl. apply (Hnone j); [lia | assumption].
           ++ right. exists (S m), la. repeat split; [lia | lia | assumption | assumption |].
              intros [|j] l Hj Hl; [lia|]. cbn in Hl. apply (Hnone j); [lia | assumption].
      * intros H. destruct (IH _ _ _ _ H) as (n & le & -> & Hle & Hc & Hgt & Hcase).
        exists (S n), le. repeat split; [lia | assumption | assumption | lia |].
        destruct Hcase as [[Hst Hnone] | (m & la & -> & Hm & Hla & Hma & Hnone)];
          [discriminate|].
        right. exists (S m), la. repeat split; [lia | lia | assumption | assumption |].
        intros [|j] l Hj Hl; [lia|]. cbn in Hl. apply (Hnone j); [lia | assumption].
Qed.

(** While no later line has the mark, the start the loop was entered with
    is the start it ends with. *)
Lemma form_loop_keeps_start (lines : list string) :
  forall (k a : Z) (e : option Z),
    Forall (fun l => str_in form_mark l = false) lines ->
    fst (for_each form_body (Some a, e) (enumerate_from k lines)) = Some a.
Proof.
  induction lines as [|line rest IH]; intros k a e Hall; [reflexivity|].
  inversion Hall as [|? ? Hl Hrest]; subst.
  cbn [enumerate_from for_each]. unfold form_body at 1. rewrite Hl.
  destruct (str_in form_close line && (k >? a + 10)%Z); [reflexivity|].
  now apply IH.
Qed.

(** A mark on the first line and on no other line is located at index 0. *)
Lemma locate_form_first_line (first : string) (rest : list string) :
  str_in form_mark first = true ->
  Forall (fun l => str_in form_mark l = false) rest ->
  fst (locate_form (first :: rest)) = Some 0%Z.
Proof.
  intros Hf Hrest. unfold locate_form, enumerate.
  cbn [enumerate_from for_each]. unfold form_body at 1. rewrite Hf.
  rewrite andb_false_r. now apply form_loop_keeps_start.
Qed.

Lemma replace_form_unlocated (modal_form : string) (lines : list string) :
  truthy (fst (locate_form lines)) && truthy (snd (locate_form lines)) = false ->
  replace_form modal_form lines = lines.
Proof.
  unfold replace_form. destruct (locate_form lines) as [a b]. cbn. now intros ->.
Qed.

(** Without a marked line the loop of step 4 finds nothing. *)
Lemma form_loop_no_mark (lines : list string) :
  forall k : Z,
    Forall (fun l => str_in form_mark l = false) lines ->
    for_each form_body (None, None) (enumerate_from k lines) = (None, None).
Proof.
  induction lines as [|line rest IH]; intros k Hall; [reflexivity|].
  inversion Hall as [|? ? Hl Hrest]; subst.
  cbn [enumerate_from for_each]. unfold form_body at 1. rewrite Hl. now apply IH.
Qed.

(** When the mark stands on one line only, and that line is not line 0,
    the form is replaced and the mark is gone: the locator finds nothing
    in the new buffer. *)
Lemma replace_form_relocate (modal_form : string) (lines : list string) (a b : Z) :
  locate_form lines = (Some a, Some b) -> a <> 0%Z ->
  str_in form_mark modal_form = false ->
  (forall (j : nat) (l : string),
     lines !! j = Some l -> str_in form_mark l = true -> j = Z.to_nat a) ->
  replace_form modal_form lines = slice_assign lines a b [modal_form] /\
  locate_form (replace_form modal_form lines) = (None, None).
Proof.
  intros Hloc Ha Hmf Honly.
  assert (Hrep : replace_form modal_form lines = slice_assign lines a b [modal_form]).
  { unfold replace_form. rewrite Hloc. cbn [truthy].
    unfold locate_form, enumerate in Hloc.
    destruct (form_loop lines 0 None a b Hloc) as (n & le & -> & _).
    destruct (Z.eqb_spec a 0) as [|_]; [contradiction|].
    destruct (Z.eqb_spec (0 + Z.of_nat n + 1) 0) as [|_]; [lia | reflexivity]. }
  split; [exact Hrep|]. rewrite Hrep.
  unfold locate_form, enumerate in Hloc.
  destruct (form_loop lines 0 None a b Hloc) as (n & le & -> & Hle & _ & _ & Hcase).
  destruct Hcase as [[Hst _] | (m & la & -> & Hm & Hla & Hma & _)]; [discriminate|].
  pose proof (lookup_lt_Some _ _ _ Hle) as Hn.
  unfold slice_assign. rewrite !slice_bound_in_range by lia.
  replace (Z.to_nat (0 + Z.of_nat m)) with m in * by lia.
  replace (Z.to_nat (0 + Z.of_nat n + 1)) with (S n) by lia.
  rewrite Nat.max_r by lia.
  apply form_loop_no_mark. apply Forall_app. split; [|constructor; [assumption|]].
  - apply Forall_lookup. intros j l Hj.
    destruct (str_in form_mark l) eqn:E; [|reflexivity].
    pose proof (lookup_lt_Some _ _ _ Hj) as Hlt. rewrite length_take in Hlt.
    rewrite lookup_take_lt in Hj by lia. specialize (Honly j l Hj E). lia.
  - apply Forall_lookup. intros j l Hj.
    destruct (str_in form_mark l) eqn:E; [|reflexivity].
    rewrite lookup_drop in Hj. specialize (Honly _ l Hj E). lia.
Qed.

Lemma form_on_first_line_only_is_skipped (modal_form first : string) (rest : list string) :
  str_in form_mark first = true ->
  Forall (fun l => str_in form_mark l = false) rest ->
  replace_form modal_form (first :: rest) = first :: rest.
Proof.
  intros Hf Hrest. apply replace_form_unlocated.
  now rewrite (locate_form_first_line first rest Hf Hrest).
Qed.

(** The start the loop ends with is the start it was entered with or a
    line with the mark, whether or not the end is found. *)
Lemma form_loop_start (lines : list string) :
  forall (k : Z) (st0 : option Z) (a : Z),
    fst (for_each form_body (st0, None) (enumerate_from k lines)) = Some a ->
    st0 = Some a \/
    exists (m : nat) (la : string),
      a = (k + Z.of_nat m)%Z /\ lines !! m = Some la /\ str_in form_mark la = true.
Proof.
  induction lines as [|line rest IH]; intros k st0 a; cbn [enumerate_from for_each].
  - intros H. now left.
  - assert (Hrest : forall st1 : option Z,
      fst (for_each form_body (st1, None) (enumerate_from (k + 1) rest)) = Some a ->
      st1 = Some a \/
      exists (m : nat) (la : string),
        a = (k + Z.of_nat m)%Z /\ (line :: rest) !! m = Some la /\ str_in form_mark la = true).
    { intros st1 H. destruct (IH _ _ _ H) as [Hst | (m & la & -> & Hla & Hma)]; [now left|].
      right. exists (S m), la. repeat split; [lia | assumption | assumption]. }
    unfold form_body at 1. destruct (str_in form_mark line) eqn:Em.
    + assert (Hno : (k >? k + 10)%Z = false) by lia.
      rewrite Hno, andb_false_r. intros H.
      destruct (Hrest _ H) as [[= <-] | Hlater]; [|now right].
      right. exists 0, line. repeat split; [lia | assumption].
    + destruct st0 as [a0|].
      * destruct (str_in form_close line && (k >? a0 + 10)%Z).
        -- cbn [fst]. intros H. now left.
        -- intros H. exact (Hrest _ H).
      * intros H. exact (Hrest _ H).
Qed.

Lemma mark_upto_cases (sub : string) (lines : list string) (c : nat) :
  (exists (m : nat) (lm : string), m <= c /\ lines !! m = Some lm /\ str_in sub lm = true) \/
  (forall (m : nat) (lm : string), m <= c -> lines !! m = Some lm -> str_in sub lm = false).
Proof.
  induction c as [|c IH].
  - destruct (lines !! 0) as [l|] eqn:El.
    + destruct (str_in sub l) eqn:Es.
      * left. exists 0, l. repeat split; [lia | assumption | assumption].
      * right. intros m lm Hm Hlm. replace m with 0 in Hlm by lia. congruence.
    + right. intros m lm Hm Hlm. replace m with 0 in Hlm by lia. congruence.
  - destruct IH as [(m & lm & Hm & Hlm & Hs) | Hnone].
    + left. exists m, lm. repeat split; [lia | assumption | assumption].
    + destruct (lines !! S c) as [l|] eqn:El.
      * destruct (str_in sub l) eqn:Es.
        -- left. exists (S c), l. repeat split; [lia | assumption | assumption].
        -- right. intros m lm Hm Hlm. destruct (Nat.eq_dec m (S c)) as [->|Hne].
           ++ congruence.
           ++ apply (Hnone m); [lia | assumption].
      * right. intros m lm Hm Hlm. destruct (Nat.eq_dec m (S c)) as [->|Hne].
        -- congruence.
        -- apply (Hnone m); [lia | assumption].
Qed.

(** The end is found at or before a closing line that stands more than
    ten lines below every line with the mark at or before it, when there
    is such a line with the mark (or the loop was entered with a start
    that far above). *)
Lemma form_loop_finds (lines : list string) :
  forall (k : Z) (st0 : option Z) (c : nat) (lc : string),
    lines !! c = Some lc -> str_in form_close lc = true ->
    (forall (m : nat) (lm : string),
       m <= c -> lines !! m = Some lm -> str_in form_mark lm = true -> m + 10 < c) ->
    ((exists (m : nat) (lm : string),
        m <= c /\ lines !! m = Some lm /\ str_in form_mark lm = true) \/
     (exists a0 : Z, st0 = Some a0 /\ (a0 + 10 < k + Z.of_nat c)%Z)) ->
    exists a b : Z,
      for_each form_body (st0, None) (enumerate_from k lines) = (Some a, Some b) /\
      (b <= k + Z.of_nat c + 1)%Z.
Proof.
  induction lines as [|line rest IH]; intros k st0 c lc Hc Hclose Hfar Hst; [discriminate|].
  cbn [enumerate_from for_each]. unfold form_body at 1.
  assert (Hnext : forall (st1 : option Z) (c' : nat),
    c = S c' ->
    ((exists (m : nat) (lm : string),
        m <= c' /\ rest !! m = Some lm /\ str_in form_mark lm = true) \/
     (exists a0 : Z, st1 = Some a0 /\ (a0 + 10 < k + 1 + Z.of_nat c')%Z)) ->
    exists a b : Z,
      for_each form_body (st1, None) (enumerate_from (k + 1) rest) = (Some a, Some b) /\
      (b <= k + Z.of_nat c + 1)%Z).
  { intros st1 c' -> Hst1. cbn in Hc.
    destruct (IH (k + 1)%Z st1 c' lc Hc Hclose) as (a & b & Hrun & Hb); [|exact Hst1|].
    - intros m lm Hm Hlm Hmk. pose proof (Hfar (S m) lm ltac:(lia) Hlm Hmk). lia.
    - exists a, b. split; [exact Hrun | lia]. }
  destruct (str_in form_mark line) eqn:Em.
  - assert (Hno : (k >? k + 10)%Z = false) by lia.
    rewrite Hno, andb_false_r.
    pose proof (Hfar 0 line ltac:(lia) eq_refl Em) as Hc0.
    destruct c as [|c']; [lia|]. apply (Hnext _ c' eq_refl).
    right. exists k. split; [reflexivity | lia].
  - destruct st0 as [a0|].
    + destruct (str_in form_close line && (k >? a0 + 10)%Z) eqn:Ec.
      * exists a0, (k + 1)%Z. split; [reflexivity | lia].
      * destruct c as [|c'].
        -- exfalso. cbn in Hc. injection Hc as <-. rewrite Hclose in Ec. cbn in Ec.
           destruct Hst as [(m & lm & Hm & Hlm & Hmk) | (a1 & [= <-] & Ha)].
           ++ replace m with 0 in Hlm by lia. cbn in Hlm. congruence.
           ++ lia.
        -- apply (Hnext _ c' eq_refl).
           destruct Hst as [(m & lm & Hm & Hlm & Hmk) | (a1 & [= <-] & Ha)].
           ++ destruct m as [|m']; [cbn in Hlm; congruence|].
              left. exists m', lm. repeat split; [lia | assumption | assumption].
           ++ right. exists a0. split; [reflexivity | lia].
    + destruct c as [|c'].
      * exfalso. destruct Hst as [(m & lm & Hm & Hlm & Hmk) | (a1 & [=] & _)].
        replace m with 0 in Hlm by lia. cbn in Hlm. congruence.
      * apply (Hnext _ c' eq_refl).
        destruct Hst as [(m & lm & Hm & Hlm & Hmk) | (a1 & [=] & _)].
        destruct m as [|m']; [cbn in Hlm; congruence|].
        left. exists m', lm. repeat split; [lia | assumption | assumption].
Qed.

(** The end is not found when every closing line stands within ten lines
    of a line with the mark at or before it, or has no such line before
    it (and the start the loop was entered with is within ten lines). *)
Lemma form_loop_misses (lines : list string) :
  forall (k : Z) (st0 : option Z),
    (forall (c : nat) (lc : string),
       lines !! c = Some lc -> str_in form_close lc = true ->
       (exists (m : nat) (lm : string),
          m <= c /\ lines !! m = Some lm /\ str_in form_mark lm = true /\ c <= m + 10) \/
       ((forall (m : nat) (lm : string),
           m <= c -> lines !! m = Some lm -> str_in form_mark lm = false) /\
        (forall a0 : Z, st0 = Some a0 -> (k + Z.of_nat c <= a0 + 10)%Z))) ->
    snd (for_each form_body (st0, None) (enumerate_from k lines)) = None.
Proof.
  induction lines as [|line rest IH]; intros k st0 Hnear; [reflexivity|].
  cbn [enumerate_from for_each]. unfold form_body at 1.
  destruct (str_in form_mark line) eqn:Em.
  - assert (Hno : (k >? k + 10)%Z = false) by lia.
    rewrite Hno, andb_false_r. apply IH. intros c lc Hc Hclose.
    destruct (Hnear (S c) lc Hc Hclose) as [(m & lm & Hm & Hlm & Hmk & Hten) | (Hnone & _)].
    + destruct m as [|m'].
      * destruct (mark_upto_cases form_mark rest c) as [(m & lm' & Hm' & Hlm' & Hmk') | Hnone].
        -- left. exists m, lm'. repeat split; [assumption | assumption | assumption | lia].
        -- right. split; [exact Hnone|]. intros a0 [= <-]. lia.
      * left. exists m', lm. repeat split; [lia | assumption | assumption | lia].
    + pose proof (Hnone 0 line ltac:(lia) eq_refl). congruence.
  - assert (Hrest : forall (c : nat) (lc : string),
      rest !! c = Some lc -> str_in form_close lc = true ->
      (exists (m : nat) (lm : string),
         m <= c /\ rest !! m = Some lm /\ str_in form_mark lm = true /\ c <= m + 10) \/
      ((forall (m : nat) (lm : string),
          m <= c -> rest !! m = Some lm -> str_in form_mark lm = false) /\
       (forall a0 : Z, st0 = Some a0 -> (k + 1 + Z.of_nat c <= a0 + 10)%Z))).
    { intros c lc Hc Hclose.
      destruct (Hnear (S c) lc Hc Hclose) as [(m & lm & Hm & Hlm & Hmk & Hten) | (Hnone & Hst)].
      - destruct m as [|m']; [cbn in Hlm; congruence|].
        left. exists m', lm. repeat split; [lia | assumption | assumption | lia].
      - right. split.
        + intros m lm Hm Hlm. apply (Hnone (S m)); [lia | assumption].
        + intros a0 Ha. specialize (Hst a0 Ha). lia. }
    destruct st0 as [a0|].
    + destruct (str_in form_close line && (k >? a0 + 10)%Z) eqn:Ec.
      * exfalso. apply andb_true_iff in Ec as [Ec Hk].
        destruct (Hnear 0 line eq_refl Ec) as [(m & lm & Hm & Hlm & Hmk & _) | (_ & Hst)].
        -- replace m with 0 in Hlm by lia. cbn in Hlm. congruence.
        -- specialize (Hst a0 eq_refl). lia.
      * now apply IH.
    + now apply IH.
Qed.

End FormLocator.

Section EditLocator.

Import RemoveInlineEdit.

(** The scan accepts a closing line only with the count below zero. *)
Lemma scan_end_negative (anch : string) (xs : list (Z * string)) :
  forall (st : scan) (e : Z),
    edit_end st = None ->
    edit_end (for_each (scan_body anch) st xs) = Some e ->
    (brace_count (for_each (scan_body anch) st xs) < 0)%Z.
Proof.
  induction xs as [|[i line] xs IH]; intros st e Hnone; cbn [for_each].
  - rewrite Hnone. discriminate.
  - unfold scan_body at 1 3.
    destruct (str_in anch line); [apply IH; assumption|].
    destruct (in_edit_section st) eqn:Ein; [|apply IH; assumption].
    set (bc := (brace_count st + (str_count "{" line - str_count "}" line))%Z).
    destruct (str_in else_mark line && (bc =? 0)%Z); [apply IH; assumption|].
    cbn [andb]. destruct (Z.ltb_spec bc 0); [cbn; lia | apply IH; assumption].
Qed.

Lemma remove_edit_form_unlocated (lines : list string) :
  truthy (edit_start (locate anchor lines)) && truthy (edit_end (locate anchor lines)) = false ->
  remove_edit_form lines = lines.
Proof. unfold remove_edit_form. now intros ->. Qed.

(** While no later line has the anchor, the start stays where it is. *)
Lemma scan_keeps_start (anch : string) (lines : list string) :
  forall (k : Z) (st : scan),
    Forall (fun l => str_in anch l = false) lines ->
    edit_start (for_each (scan_body anch) st (enumerate_from k lines)) = edit_start st.
Proof.
  induction lines as [|line rest IH]; intros k st Hall; [reflexivity|].
  inversion Hall as [|? ? Hl Hrest]; subst.
  cbn [enumerate_from for_each]. unfold scan_body at 1. rewrite Hl.
  destruct (in_edit_section st); [|now apply IH].
  destruct (str_in else_mark line && _); [now rewrite IH|].
  cbn [andb]. destruct (_ <? 0)%Z; [reflexivity | now rewrite IH].
Qed.

(** An anchor on the first line and on no other line is located at
    index 0, and then the buffer is left as it is. *)
Lemma edit_on_first_line_only_is_skipped (first : string) (rest : list string) :
  str_in anchor first = true ->
  Forall (fun l => str_in anchor l = false) rest ->
  edit_start (locate anchor (first :: rest)) = Some 0%Z /\
  remove_edit_form (first :: rest) = first :: rest.
Proof.
  intros Hf Hrest.
  assert (H0 : edit_start (locate anchor (first :: rest)) = Some 0%Z).
  { unfold locate, enumerate. cbn [enumerate_from for_each]. unfold scan_body at 1.
    rewrite Hf. now rewrite scan_keeps_start. }
  split; [exact H0|]. apply remove_edit_form_unlocated. now rewrite H0.
Qed.

End EditLocator.

(** ** [str.replace] does not leave the old text behind *)

Section Replace.

Lemma prefix_nil (s : string) : String.prefix EmptyString s = true.
Proof. now destruct s. Qed.

Lemma prefix_cons (a b : ascii) (s t : string) :
  String.prefix (String a s) (String b t) = true <-> a = b /\ String.prefix s t = true.
Proof.
  cbn. destruct (ascii_dec a b) as [->|Hne].
  - split; [now intros ->|now intros [_ ->]].
  - split; [discriminate|]. intros [? _]. contradiction.
Qed.

Lemma prefix_app_long (b a c : string) :
  String.prefix a (b +:+ c) = true -> String.length b < String.length a ->
  exists w, a = b +:+ w /\ w <> EmptyString /\ String.prefix w c = true.
Proof.
  revert a. induction b as [|x b IH]; intros a Hp Hlen; cbn in *.
  - exists a. repeat split; [|assumption]. intros ->. cbn in Hlen. lia.
  - destruct a as [|y a]; [cbn in Hlen; lia|].
    apply prefix_cons in Hp as [-> Hp]. cbn in Hlen.
    destruct (IH a Hp) as (w & -> & Hw & Hpw); [lia|]. now exists w.
Qed.

Lemma prefix_app_short (a b c : string) :
  String.prefix a (b +:+ c) = true -> String.length a <= String.length b ->
  String.prefix a b = true.
Proof.
  revert b. induction a as [|y a IH]; intros b Hp Hlen; [apply prefix_nil|].
  destruct b as [|x b]; [cbn in Hlen; lia|]. cbn [String.append] in Hp.
  apply prefix_cons in Hp as [-> Hp]. apply prefix_cons. split; [reflexivity|].
  apply IH; [assumption | cbn in Hlen; lia].
Qed.

Lemma prefix_app_same (b w : string) : String.prefix b (b +:+ w) = true.
Proof.
  induction b as [|x b IH]; [apply prefix_nil|]. cbn [String.append].
  now apply prefix_cons.
Qed.

Lemma prefix_app_keep (a v s : string) :
  String.prefix a v = true -> String.prefix a (v +:+ s) = true.
Proof.
  revert v. induction a as [|y a IH]; intros v Hp; [apply prefix_nil|].
  destruct v as [|x v]; [discriminate|]. apply prefix_cons in Hp as [-> Hp].
  cbn [String.append]. apply prefix_cons. split; [reflexivity | now apply IH].
Qed.

Lemma prefix_comparable (w x y : string) :
  String.prefix w (x +:+ y) = true -> comparable w x = true.
Proof.
  intros Hp. unfold comparable.
  destruct (Nat.le_gt_cases (String.length w) (String.length x)) as [Hle|Hgt].
  - now rewrite (prefix_app_short _ _ _ Hp Hle).
  - destruct (prefix_app_long _ _ _ Hp Hgt) as (w' & -> & _ & _).
    rewrite prefix_app_same. apply orb_true_r.
Qed.

Lemma append_assoc (a b c : string) : (a +:+ b) +:+ c = a +:+ b +:+ c.
Proof. induction a as [|x a IH]; cbn [String.append]; [reflexivity | now f_equal]. Qed.

Lemma length_append (a b : string) :
  String.length (a +:+ b) = String.length a + String.length b.
Proof. induction a as [|x a IH]; cbn [String.append String.length]; [reflexivity | now rewrite IH]. Qed.

Lemma suffixes_ok_spec (old z v : string) :
  suffixes_ok old (z +:+ v) = true -> v <> EmptyString -> comparable old v = false.
Proof.
  induction z as [|x z IH]; cbn [String.append].
  - destruct v as [|c v]; [contradiction|]. cbn [suffixes_ok].
    intros H _. apply andb_true_iff in H as [H _]. now apply negb_true_iff in H.
  - cbn [suffixes_ok]. intros H Hv. apply andb_true_iff in H as [_ H]. now apply IH.
Qed.

Lemma tails_ok_spec (new z w : string) :
  tails_ok new (z +:+ w) = true -> w <> EmptyString -> comparable w new = false.
Proof.
  induction z as [|x z IH]; cbn [String.append].
  - destruct w as [|c w]; [contradiction|]. cbn [tails_ok].
    intros H _. apply andb_true_iff in H as [H _]. now apply negb_true_iff in H.
  - cbn [tails_ok]. intros H Hw. apply andb_true_iff in H as [_ H]. now apply IH.
Qed.

Variables old new : string.
Hypothesis safe : replace_safe old new = true.

Lemma safe_old_nonempty : old <> EmptyString.
Proof using safe. intros ->. discriminate safe. Qed.

Lemma safe_new_suffix (z v : string) :
  new = z +:+ v -> v <> EmptyString -> comparable old v = false.
Proof using safe.
  intros -> Hv. unfold replace_safe in safe.
  destruct old as [|c o]; [discriminate|]. destruct (z +:+ v) eqn:E; [discriminate|].
  apply andb_true_iff in safe as [Hs _]. rewrite <- E in Hs.
  now apply (suffixes_ok_spec _ z v).
Qed.

Lemma safe_new_nonempty : new <> EmptyString.
Proof using safe.
  intros E. unfold replace_safe in safe. rewrite E in safe. now destruct old.
Qed.

Lemma safe_old_tail (u w : string) :
  old = u +:+ w -> u <> EmptyString -> w <> EmptyString -> comparable w new = false.
Proof using safe.
  intros E Hu Hw. unfold replace_safe in safe. rewrite E in safe.
  destruct u as [|c u]; [contradiction|]. cbn [String.append] in safe.
  destruct new; [discriminate|]. apply andb_true_iff in safe as [_ Ht].
  now apply (tails_ok_spec _ u w).
Qed.

(** [old] cannot start in the part of the output that is in front of a
    replacement and run into it. *)
Lemma no_prefix_into_new (u x : string) :
  String.length u < String.length old ->
  String.prefix old (u +:+ new +:+ x) = true -> False.
Proof using safe.
  intros Hlen Hp. destruct u as [|c u].
  - cbn in Hp. apply prefix_comparable in Hp.
    rewrite (safe_new_suffix EmptyString new eq_refl safe_new_nonempty) in Hp. discriminate.
  - destruct (prefix_app_long _ _ _ Hp Hlen) as (w & E & Hw & Hpw).
    apply prefix_comparable in Hpw.
    rewrite (safe_old_tail _ _ E) in Hpw; [discriminate | discriminate | assumption].
Qed.

Lemma replace_gap (s : string) :
  forall u : string,
    String.length u < String.length old ->
    String.prefix old (u +:+ replace_from 0 old new s) = true ->
    String.prefix old (u +:+ s) = true.
Proof using safe.
  induction s as [|c s IH]; intros u Hlen Hp; [assumption|].
  cbn [replace_from] in Hp. destruct (String.prefix old (String c s)) eqn:E.
  - exfalso. eapply no_prefix_into_new; eassumption.
  - change (u +:+ String c (replace_from 0 old new s))
      with (u +:+ String c EmptyString +:+ replace_from 0 old new s) in Hp.
    change (u +:+ String c s) with (u +:+ String c EmptyString +:+ s).
    rewrite <- append_assoc in Hp |- *.
    destruct (Nat.le_gt_cases (String.length old) (String.length (u +:+ String c EmptyString)))
      as [Hle|Hgt].
    + apply prefix_app_keep. now apply (prefix_app_short _ _ _ Hp).
    + now apply IH.
Qed.

Lemma replace_no_prefix (s : string) :
  String.prefix old (replace_from 0 old new s) = false.
Proof using safe.
  destruct (String.prefix old (replace_from 0 old new s)) eqn:E; [exfalso|reflexivity].
  assert (Hs : String.prefix old s = true).
  { apply (replace_gap s EmptyString); [|assumption].
    pose proof safe_old_nonempty. destruct old; [contradiction | cbn; lia]. }
  destruct s as [|c s].
  - pose proof safe_old_nonempty. destruct old; [contradiction | discriminate].
  - cbn [replace_from] in E. rewrite Hs in E.
    apply (no_prefix_into_new EmptyString (replace_from (String.length old - 1) old new s)); [|assumption].
    pose proof safe_old_nonempty. destruct old; [contradiction | cbn; lia].
Qed.

Lemma str_in_skip_new (x : string) :
  forall z v : string, new = z +:+ v -> str_in old (v +:+ x) = str_in old x.
Proof using safe.
  intros z v. revert z. induction v as [|c v IH]; intros z E; [reflexivity|].
  cbn [String.append str_in].
  destruct (String.prefix old (String c (v +:+ x))) eqn:Ep.
  - change (String c (v +:+ x)) with (String c v +:+ x) in Ep.
    apply prefix_comparable in Ep.
    rewrite (safe_new_suffix z (String c v) E) in Ep; discriminate.
  - cbn. apply (IH (z +:+ String c EmptyString)). now rewrite append_assoc.
Qed.

Lemma replace_from_clean (s : string) :
  forall k : nat, str_in old (replace_from k old new s) = false.
Proof using safe.
  induction s as [|c s IH]; intros k.
  - cbn. pose proof safe_old_nonempty. now destruct old.
  - cbn [replace_from]. destruct k as [|k]; [|apply IH].
    destruct (String.prefix old (String c s)) eqn:E.
    + rewrite (str_in_skip_new _ EmptyString new eq_refl). apply IH.
    + pose proof (replace_no_prefix (String c s)) as Hn.
      cbn [replace_from] in Hn. rewrite E in Hn.
      cbn [str_in]. rewrite Hn. apply IH.
Qed.

(** After [s.replace(old, new)] the text [old] is gone. *)
Lemma str_replace_clean (s : string) : str_in old (str_replace old new s) = false.
Proof using safe.
  pose proof (replace_from_clean s 0) as Hclean. pose proof safe_old_nonempty as Hne.
  unfold str_replace. destruct old; [contradiction | exact Hclean].
Qed.

End Replace.

Lemma replacements_safe :
  Forall (fun r => replace_safe (fst r) (snd r) = true) UpdateInventoryEdit.replacements.
Proof. repeat constructor. Qed.

(** ** Patterns without a wildcard *)

Section Literal.

Import Re.

Lemma shift_Some (r : option found) (x : found) : shift r = Some x -> exists y, r = Some y.
Proof. destruct r as [[n ms]|]; [eauto | discriminate]. Qed.

Lemma mark_Some (o : bool) (r : option found) (x : found) :
  mark o r = Some x -> exists y, r = Some y.
Proof. destruct r as [[n ms]|]; [eauto | discriminate]. Qed.

Lemma match_here_literal (dotall : bool) (p : list atom) :
  forall (l s : string) (r : found),
    literal p = Some l -> match_here dotall p s = Some r -> String.prefix l s = true.
Proof.
  induction p as [|a p IH]; intros l s r Hl Hm.
  - injection Hl as <-. apply prefix_nil.
  - destruct a; cbn in Hl, Hm.
    + destruct (literal p) as [l'|] eqn:El; [|discriminate]. injection Hl as <-.
      destruct s as [|d s]; [discriminate|].
      destruct (Ascii.eqb_spec c d) as [->|]; [|discriminate].
      apply shift_Some in Hm as [y Hy]. apply prefix_cons. split; [reflexivity|].
      now apply (IH l' s y).
    + discriminate.
    + apply mark_Some in Hm as [y Hy]. now apply (IH l s y).
    + apply mark_Some in Hm as [y Hy]. now apply (IH l s y).
Qed.

Lemma str_in_cons_false (l : string) (c : ascii) (s : string) :
  str_in l (String c s) = false ->
  String.prefix l (String c s) = false /\ str_in l s = false.
Proof. cbn [str_in]. intros H. now apply orb_false_iff in H. Qed.

(** Where the text of the pattern does not occur, [re.sub] changes
    nothing. *)
Lemma sub_from_absent (dotall : bool) (p : list atom) (t : list item) (l : string) :
  literal p = Some l ->
  forall (left : option nat) (s : string),
    str_in l s = false -> sub_from dotall p t 0 left s = s.
Proof.
  intros Hl left s. induction s as [|c s IH]; intros Hs; [reflexivity|].
  apply str_in_cons_false in Hs as [Hp Hs]. cbn [sub_from].
  assert (Hrest : String c (sub_from dotall p t 0 left s) = String c s)
    by now rewrite IH.
  destruct (match_here dotall p (String c s)) as [[[|n] ms]|] eqn:Em.
  - now destruct left as [[|k]|].
  - rewrite (match_here_literal _ _ _ _ _ Hl Em) in Hp. discriminate.
  - now destruct left as [[|k]|].
Qed.

Lemma sub_absent (pattern repl s l : string) (count : nat) (dotall : bool) (p : list atom) :
  compile pattern = Some p -> literal p = Some l ->
  str_in l s = false ->
  forall s', sub pattern repl s count dotall = Some s' -> s' = s.
Proof.
  intros Hc Hl Hs s'. unfold sub. rewrite Hc.
  destruct (template repl) as [t|]; [|discriminate].
  destruct (existsb is_group1 t && negb (existsb is_open p)); [discriminate|].
  intros [= <-]. now apply (sub_from_absent dotall p t l).
Qed.

(** Whether [re.sub] is inside the fragment does not depend on the text
    it is applied to. *)
Lemma sub_defined (pattern repl : string) (count : nat) (dotall : bool) :
  is_Some (sub pattern repl EmptyString count dotall) ->
  forall s, is_Some (sub pattern repl s count dotall).
Proof.
  unfold sub. intros H s.
  destruct (compile pattern) as [p|]; [|exact H].
  destruct (template repl) as [t|]; [|exact H].
  destruct (existsb is_group1 t && negb (existsb is_open p)); [exact H | eauto].
Qed.

End Literal.

(** ** convert-to-modal.py: the first substitution *)

Section ScrollLock.

Import ConvertToModal.

Lemma pattern_literal :
  exists p, Re.compile pattern = Some p /\ literal p = Some pattern_text.
Proof. eexists. split; reflexivity. Qed.

Lemma first_sub_defined (content : string) : is_Some (first_sub content).
Proof. apply sub_defined. vm_compute. eauto. Qed.

Lemma patch_defined (content : string) : is_Some (patch content).
Proof.
  unfold patch.
  destruct (sub_defined pattern (group1 +:+ scroll_lock_effect) 1 false) with (s := content)
    as [c1 E1]; [vm_compute; eauto|].
  rewrite E1. cbn [mbind option_bind].
  destruct (sub_defined old_form new_form 0 true) with (s := c1) as [c2 E2]; [vm_compute; eauto|].
  rewrite E2. cbn [mbind option_bind].
  destruct (sub_defined old_form_tag new_form_tag 0 false) with (s := c2) as [c3 E3];
    [vm_compute; eauto|].
  rewrite E3. cbn [mbind option_bind].
  apply sub_defined. vm_compute. eauto.
Qed.

Lemma patch_patch_text (content : string) : patch content = Some (patch_text content).
Proof. unfold patch_text. now destruct (patch_defined content) as [c ->]. Qed.

End ScrollLock.

(** ** The first substitution, exactly *)

Section InsertAfter.

Import Re.

Lemma match_chars (dotall : bool) (cs : list ascii) :
  forall s : string,
    match_here dotall (map Chr cs ++ [Close]) s =
    if String.prefix (string_of_list_ascii cs) s
    then Some (length cs, [(false, length cs)]) else None.
Proof.
  induction cs as [|c cs IH]; intros s.
  - cbn. now rewrite prefix_nil.
  - cbn [map app match_here string_of_list_ascii length].
    destruct s as [|d s]; [reflexivity|]. cbn [String.prefix].
    destruct (Ascii.eqb_spec c d) as [->|Hne].
    + destruct (ascii_dec d d) as [_|]; [|contradiction]. rewrite IH.
      now destruct (String.prefix (string_of_list_ascii cs) s).
    + now destruct (ascii_dec c d).
Qed.

Lemma prefix_sdrop (l s : string) :
  String.prefix l s = true -> s = l +:+ sdrop (String.length l) s.
Proof.
  revert s. induction l as [|x l IH]; intros s Hp; [reflexivity|].
  destruct s as [|y s]; [discriminate|]. apply prefix_cons in Hp as [-> Hp].
  cbn. f_equal. now apply IH.
Qed.

Lemma prefix_substring (l s : string) :
  String.prefix l s = true -> substring 0 (String.length l) s = l.
Proof. apply String.prefix_correct. Qed.

Lemma expand_group1 (es : list ascii) (g : string) :
  expand (Group1 :: map Lit es) g = g +:+ string_of_list_ascii es.
Proof. cbn [expand]. f_equal. induction es as [|e es IH]; cbn; [reflexivity | now f_equal]. Qed.

Lemma length_string_of_list_ascii (cs : list ascii) :
  String.length (string_of_list_ascii cs) = length cs.
Proof. induction cs as [|x cs IH]; cbn; [reflexivity | now f_equal]. Qed.

Lemma sub_from_stop (dotall : bool) (p : list atom) (t : list item) (s : string) :
  forall n : nat, sub_from dotall p t n (Some 0) s = sdrop n s.
Proof. induction s as [|c s IH]; intros [|n]; cbn; auto. Qed.

Lemma sub_from_literal_once (dotall : bool) (c0 : ascii) (cs es : list ascii) (s : string) :
  sub_from dotall (Open :: map Chr (c0 :: cs) ++ [Close]) (Group1 :: map Lit es) 0 (Some 1) s =
  insert_after_first (string_of_list_ascii (c0 :: cs)) (string_of_list_ascii es) s.
Proof.
  induction s as [|c s IH]; [reflexivity|].
  cbn [sub_from insert_after_first].
  change (match_here dotall (Open :: map Chr (c0 :: cs) ++ [Close]) (String c s))
    with (mark true (match_here dotall (map Chr (c0 :: cs) ++ [Close]) (String c s))).
  rewrite match_chars.
  destruct (String.prefix (string_of_list_ascii (c0 :: cs)) (String c s)) eqn:Ep.
  - cbn [mark length fmap option_fmap option_map Nat.pred].
    rewrite expand_group1, sub_from_stop. unfold group1. cbn [group_end].
    pose proof (length_string_of_list_ascii (c0 :: cs)) as Hlen. cbn [length] in Hlen.
    rewrite Hlen. cbn [sdrop]. rewrite <- Hlen at 1.
    replace (String.length (string_of_list_ascii (c0 :: cs)) - 0)
      with (String.length (string_of_list_ascii (c0 :: cs))) by lia.
    rewrite (prefix_substring _ _ Ep), append_assoc. reflexivity.
  - cbn [mark]. now rewrite IH.
Qed.

Lemma insert_after_first_length (l extra s : string) :
  l <> EmptyString ->
  String.length (insert_after_first l extra s) =
  String.length s + (if str_in l s then String.length extra else 0).
Proof.
  intros Hl. induction s as [|c s IH].
  - cbn. now destruct l.
  - cbn [insert_after_first str_in]. destruct (String.prefix l (String c s)) eqn:Ep.
    + cbn [orb]. rewrite (prefix_sdrop _ _ Ep) at 2. rewrite !length_append. lia.
    + cbn [orb String.length]. rewrite IH. lia.
Qed.

End InsertAfter.

Section FirstSub.

Import ConvertToModal.

Lemma first_sub_exact (content : string) :
  first_sub content = Some (insert_after_first pattern_text scroll_lock_effect content).
Proof.
  unfold first_sub, Re.sub.
  assert (Hc : Re.compile pattern =
               Some (Re.Open :: map Re.Chr (list_ascii_of_string pattern_text) ++ [Re.Close]))
    by reflexivity.
  assert (Ht : Re.template (group1 +:+ scroll_lock_effect) =
               Some (Re.Group1 :: map Re.Lit (list_ascii_of_string scroll_lock_effect)))
    by reflexivity.
  rewrite Hc, Ht. cbn [existsb Re.is_group1 Re.is_open app orb negb andb]. f_equal.
  rewrite <- (string_of_list_ascii_of_string pattern_text) at 2.
  rewrite <- (string_of_list_ascii_of_string scroll_lock_effect) at 2.
  apply sub_from_literal_once.
Qed.

End FirstSub.

(** ** Line ends *)

Section Newlines.

Lemma linesep_newlines_lf (s : string) : linesep_newlines nl s = s.
Proof.
  induction s as [|c s IH]; [reflexivity|]. cbn [linesep_newlines].
  destruct (Ascii.eqb_spec c LF) as [->|]; cbn; now rewrite IH.
Qed.

Lemma no_cr_cons (c : ascii) (s : string) :
  str_in cr (String c s) = false -> Ascii.eqb c CR = false /\ str_in cr s = false.
Proof.
  intros H. apply str_in_cons_false in H as [Hp Hs]. split; [|assumption].
  destruct (Ascii.eqb_spec c CR) as [->|]; [|reflexivity].
  exfalso. unfold cr in Hp. cbn in Hp. rewrite prefix_nil in Hp. discriminate.
Qed.

Lemma universal_newlines_no_cr (s : string) :
  str_in cr s = false -> universal_newlines s = s.
Proof.
  induction s as [|c s IH]; [reflexivity|]. intros H.
  apply no_cr_cons in H as [Hc Hs]. cbn [universal_newlines]. rewrite Hc.
  now rewrite IH.
Qed.

Lemma universal_newlines_crlf (t : string) :
  str_in cr t = false -> universal_newlines (linesep_newlines crlf t) = t.
Proof.
  induction t as [|c t IH]; [reflexivity|]. intros H.
  apply no_cr_cons in H as [Hc Hs]. cbn [linesep_newlines].
  destruct (Ascii.eqb_spec c LF) as [->|Hne].
  - cbn. now rewrite IH.
  - cbn [universal_newlines]. rewrite Hc. now rewrite IH.
Qed.

End Newlines.

(** ** What a run of each script does *)

Section Runs.

Lemma remove_inline_edit_run (w : world) (bytes : string) :
  fs w !! RemoveInlineEdit.path = Some bytes -> utf8_valid bytes = true ->
  RemoveInlineEdit.main w =
  (Ok tt, rewritten w RemoveInlineEdit.path
            (linesep_newlines (os_linesep w)
               (join (RemoveInlineEdit.remove_edit_form (splitlines (universal_newlines bytes)))))
            RemoveInlineEdit.message).
Proof.
  intros Hf Hv. unfold RemoveInlineEdit.main, mbind, io_bind.
  rewrite (read_lines_ok w _ bytes Hf Hv).
  finish_run.
Qed.

Lemma update_inventory_edit_run (w : world) (bytes : string) :
  fs w !! UpdateInventoryEdit.path = Some bytes -> utf8_valid bytes = true ->
  UpdateInventoryEdit.main w =
  (Ok tt, rewritten w UpdateInventoryEdit.path
            (linesep_newlines (os_linesep w) (UpdateInventoryEdit.patch (universal_newlines bytes)))
            UpdateInventoryEdit.message).
Proof.
  intros Hf Hv. unfold UpdateInventoryEdit.main, mbind, io_bind.
  rewrite (read_text_ok w _ bytes Hf Hv).
  finish_run.
Qed.

Lemma convert_to_modal_run (w : world) (bytes : string) :
  fs w !! ConvertToModal.path = Some bytes -> utf8_valid bytes = true ->
  ConvertToModal.main w =
  (Ok tt, rewritten w ConvertToModal.path
            (linesep_newlines (os_linesep w) (patch_text (universal_newlines bytes)))
            ConvertToModal.message).
Proof.
  intros Hf Hv. unfold ConvertToModal.main, mbind, io_bind.
  rewrite (read_text_ok w _ bytes Hf Hv), patch_patch_text.
  finish_run.
Qed.

(** A script whose file is missing stops at [open]: nothing is written
    and nothing is printed. *)
Lemma missing_file_stops (w : world) :
  fs w !! RemoveInlineEdit.path = None ->
  RemoveInlineEdit.main w = (Raise (FileNotFoundError RemoveInlineEdit.path), w) /\
  UpdateInventoryEdit.main w = (Raise (FileNotFoundError RemoveInlineEdit.path), w) /\
  ConvertToModal.main w = (Raise (FileNotFoundError RemoveInlineEdit.path), w) /\
  ConvertModals.main w = (Raise (FileNotFoundError RemoveInlineEdit.path), w).
Proof.
  intros Hf. repeat split.
  - unfold RemoveInlineEdit.main, mbind, io_bind. now rewrite (read_lines_missing w _ Hf).
  - unfold UpdateInventoryEdit.main, mbind, io_bind.
    change UpdateInventoryEdit.path with RemoveInlineEdit.path.
    now rewrite (read_text_missing w _ Hf).
  - unfold ConvertToModal.main, mbind, io_bind.
    change ConvertToModal.path with RemoveInlineEdit.path.
    now rewrite (read_text_missing w _ Hf).
  - unfold ConvertModals.main, ConvertModals.convert_inventory_page, ConvertModals.convert_page,
      mbind, io_bind.
    change ConvertModals.inventory_path with RemoveInlineEdit.path.
    now rewrite (read_lines_missing w _ Hf).
Qed.

Lemma convert_modals_run (w : world) (b1 b2 : string) :
  fs w !! ConvertModals.inventory_path = Some b1 -> utf8_valid b1 = true ->
  fs w !! ConvertModals.customers_path = Some b2 -> utf8_valid b2 = true ->
  exists d1 d2 : string,
    ConvertModals.main w =
    (Ok tt,
     emit (Prints (ConvertModals.all_message +:+ nl))
       (rewritten
          (rewritten w ConvertModals.inventory_path d1 ConvertModals.inventory_message)
          ConvertModals.customers_path d2 ConvertModals.customers_message)).
Proof.
  intros H1 V1 H2 V2. eexists. eexists.
  unfold ConvertModals.main, ConvertModals.convert_inventory_page,
    ConvertModals.convert_customers_page.
  unfold mbind at 1. unfold io_bind at 1.
  rewrite (convert_page_run w _ _ _ _ _ _ b1 H1 V1).
  unfold mbind at 1. unfold io_bind at 1.
  erewrite (convert_page_run _ _ _ _ _ _ _ b2); [reflexivity | | exact V2].
  unfold rewritten. cbn [fs]. rewrite lookup_insert_ne; [exact H2 | discriminate].
Qed.

Lemma stdout_emit_print (w : world) (line : string) :
  stdout (emit (Prints line) w) = stdout w ++ [line].
Proof. unfold stdout, emit. cbn [trace]. now rewrite omap_app. Qed.

Lemma stdout_rewritten (w : world) (path data message : string) :
  stdout (rewritten w path data message) = stdout w ++ [message +:+ nl].
Proof. unfold stdout, rewritten. cbn [trace]. now rewrite omap_app. Qed.

Lemma writes_rewritten (w : world) (path data message : string) :
  writes (rewritten w path data message) = writes w ++ [path].
Proof. unfold writes, rewritten. cbn [trace]. now rewrite omap_app. Qed.

Lemma writes_emit_print (w : world) (line : string) :
  writes (emit (Prints line) w) = writes w.
Proof. unfold writes, emit. cbn [trace]. rewrite omap_app. cbn. apply app_nil_r. Qed.

Lemma fs_rewritten_other (w : world) (path data message p : string) :
  p <> path -> fs (rewritten w path data message) !! p = fs w !! p.
Proof. intros Hne. unfold rewritten. cbn [fs]. now rewrite lookup_insert_ne. Qed.

Lemma fs_rewritten_same (w : world) (path data message : string) :
  fs (rewritten w path data message) !! path = Some data.
Proof. unfold rewritten. cbn [fs]. apply lookup_insert_eq. Qed.

Lemma reads_rewritten (w : world) (path data message : string) :
  reads (rewritten w path data message) = reads w ++ [path].
Proof. unfold reads, rewritten. cbn [trace]. now rewrite omap_app. Qed.

Lemma reads_emit_print (w : world) (line : string) :
  reads (emit (Prints line) w) = reads w.
Proof. unfold reads, emit. cbn [trace]. rewrite omap_app. cbn. apply app_nil_r. Qed.

End Runs.

(** ** Pages that cannot be read *)

Section Stops.

Import ConvertModals.

Lemma read_text_undecodable (w : world) (path bytes : string) :
  fs w !! path = Some bytes -> utf8_valid bytes = false ->
  read_text path w = (Raise (UnicodeDecodeError path), w).
Proof. intros Hf Hv. unfold read_text. now rewrite Hf, Hv. Qed.

(** A script that cannot read its page stops there, with the world as it
    was. *)
Lemma unreadable_stops (w : world) (e : exn) :
  read_text inventory_path w = (Raise e, w) ->
  RemoveInlineEdit.main w = (Raise e, w) /\
  UpdateInventoryEdit.main w = (Raise e, w) /\
  ConvertToModal.main w = (Raise e, w).
Proof.
  intros H. repeat split.
  - unfold RemoveInlineEdit.main, read_lines, mbind, io_bind.
    change RemoveInlineEdit.path with inventory_path. now rewrite H.
  - unfold UpdateInventoryEdit.main, mbind, io_bind.
    change UpdateInventoryEdit.path with inventory_path. now rewrite H.
  - unfold ConvertToModal.main, mbind, io_bind.
    change ConvertToModal.path with inventory_path. now rewrite H.
Qed.

Lemma convert_page_unreadable (path lo ln deps mf message : string) (w : world) (e : exn) :
  read_text path w = (Raise e, w) ->
  convert_page path lo ln deps mf message w = (Raise e, w).
Proof. intros H. unfold convert_page, read_lines, mbind, io_bind. now rewrite H. Qed.

(** The page, missing or not well-formed UTF-8. *)
Lemma read_text_unreadable (w : world) (path : string) :
  (fs w !! path = None \/
   exists bytes, fs w !! path = Some bytes /\ utf8_valid bytes = false) ->
  exists e : exn, read_text path w = (Raise e, w).
Proof.
  intros [Hnone | (bytes & Hf & Hv)].
  - eexists. now apply read_text_missing.
  - eexists. now apply (read_text_undecodable w _ bytes).
Qed.

Lemma convert_modals_stops (w : world) (e : exn) :
  read_text inventory_path w = (Raise e, w) -> ConvertModals.main w = (Raise e, w).
Proof.
  intros Hread. unfold ConvertModals.main, convert_inventory_page.
  unfold mbind at 1. unfold io_bind at 1.
  now rewrite (convert_page_unreadable _ _ _ _ _ _ w e Hread).
Qed.

(** convert-modals.py with a readable inventory page and a customers page
    that cannot be read: the run stops after the first page function. *)
Lemma convert_modals_half_run (w : world) (b1 : string) :
  fs w !! inventory_path = Some b1 -> utf8_valid b1 = true ->
  (fs w !! customers_path = None \/
   exists b2, fs w !! customers_path = Some b2 /\ utf8_valid b2 = false) ->
  exists (e : exn) (d1 : string),
    ConvertModals.main w = (Raise e, rewritten w inventory_path d1 inventory_message).
Proof.
  intros H1 V1 Hbad.
  set (d1 := linesep_newlines (os_linesep w)
               (join (patch lucide_inventory_old lucide_inventory_new deps_inventory
                        modal_form_inventory (splitlines (universal_newlines b1))))).
  destruct (read_text_unreadable (rewritten w inventory_path d1 inventory_message)
              customers_path) as (e & Hread).
  { rewrite fs_rewritten_other by discriminate. exact Hbad. }
  exists e, d1.
  unfold ConvertModals.main, convert_inventory_page, convert_customers_page.
  unfold mbind at 1. unfold io_bind at 1.
  rewrite (convert_page_run w _ _ _ _ _ _ b1 H1 V1). fold d1.
  unfold mbind at 1. unfold io_bind at 1.
  now rewrite (convert_page_unreadable _ _ _ _ _ _ _ e Hread).
Qed.

End Stops.

(** ** The claims *)

Section Claims.

Import ConvertModals.

Lemma update_imports_unmatched (lo ln : string) (lines : list string) :
  Forall (fun l => str_in react_old l = false /\ str_in motion_old l = false /\
                   str_in lo l = false) (take 10 lines) ->
  update_imports lo ln lines = lines.
Proof.
  intros H. rewrite update_imports_map. rewrite <- (take_drop 10 lines) at 3. f_equal.
  induction H as [|l ls (H1 & H2 & H3) _ IH]; [reflexivity|].
  cbn [map]. unfold import_rule at 1. now rewrite H1, H2, H3, IH.
Qed.

(** C1, as the code has it.  A rule that matches nothing is skipped: its
    step leaves the buffer as it is, the other steps are applied, and the
    file is written all the same.  For every world in which the inventory
    page is readable, [convert_inventory_page] and remove-inline-edit.py
    end normally, having written the buffer with whatever steps did match;
    there is no [PatchNotFound]. *)
Theorem unmatched_rules_are_skipped_and_the_file_is_written
    (w : world) (bytes : string) :
  fs w !! inventory_path = Some bytes -> utf8_valid bytes = true ->
  let lines := splitlines (universal_newlines bytes) in
  let lines1 := update_imports lucide_inventory_old lucide_inventory_new lines in
  let lines2 := add_modal_ref lines1 in
  let lines3 := add_scroll_lock deps_inventory lines2 in
  let lines4 := replace_form modal_form_inventory lines3 in
  convert_inventory_page w =
    (Ok tt, rewritten w inventory_path (linesep_newlines (os_linesep w) (join lines4))
              inventory_message) /\
  (Forall (fun l => str_in react_old l = false /\ str_in motion_old l = false /\
                    str_in lucide_inventory_old l = false) (take 10 lines) ->
   lines1 = lines) /\
  (first_line supabase_line lines1 = None -> lines2 = lines1) /\
  (first_line deps_inventory lines2 = None -> lines3 = lines2) /\
  (truthy (fst (locate_form lines3)) && truthy (snd (locate_form lines3)) = false ->
   lines4 = lines3) /\
  RemoveInlineEdit.main w =
    (Ok tt, rewritten w RemoveInlineEdit.path
              (linesep_newlines (os_linesep w) (join (RemoveInlineEdit.remove_edit_form lines)))
              RemoveInlineEdit.message) /\
  (truthy (RemoveInlineEdit.edit_start (RemoveInlineEdit.locate RemoveInlineEdit.anchor lines)) &&
   truthy (RemoveInlineEdit.edit_end (RemoveInlineEdit.locate RemoveInlineEdit.anchor lines)) = false ->
   RemoveInlineEdit.remove_edit_form lines = lines).
Proof.
  intros Hf Hv lines lines1 lines2 lines3 lines4. repeat split.
  - exact (convert_page_run w _ _ _ _ _ _ bytes Hf Hv).
  - apply update_imports_unmatched.
  - intros H. unfold lines2. now rewrite add_modal_ref_first, H.
  - intros H. unfold lines3. now rewrite add_scroll_lock_first, H.
  - apply replace_form_unlocated.
  - exact (remove_inline_edit_run w bytes Hf Hv).
  - apply remove_edit_form_unlocated.
Qed.

Lemma unmatched_rules_witness :
  let w := World {[ inventory_path := supabase_only ]} nl [] in
  fs w !! inventory_path = Some supabase_only /\ utf8_valid supabase_only = true /\
  fst (convert_inventory_page w) = Ok tt /\
  fs (snd (convert_inventory_page w)) !! inventory_path = Some (modal_ref +:+ supabase_only).
Proof.
  intros w.
  assert (Hf : fs w !! inventory_path = Some supabase_only) by (vm_compute; reflexivity).
  assert (Hv : utf8_valid supabase_only = true) by (vm_compute; reflexivity).
  split; [exact Hf|]. split; [exact Hv|].
  destruct (unmatched_rules_are_skipped_and_the_file_is_written w supabase_only Hf Hv)
    as (Hrun & _).
  rewrite Hrun. split; [reflexivity|]. cbn [snd]. rewrite fs_rewritten_same.
  vm_compute. reflexivity.
Defined.

(** C1 as stated fails: in this run the scroll-lock rule and the form rule
    match nothing, but the run ends normally, writes the file, and the file
    is no longer what it was. *)
Lemma unmatched_rule_counterexample :
  let w := World {[ inventory_path := supabase_only ]} nl [] in
  first_line deps_inventory (splitlines supabase_only) = None /\
  first_line form_mark (splitlines supabase_only) = None /\
  fst (convert_inventory_page w) = Ok tt /\
  writes (snd (convert_inventory_page w)) = [inventory_path] /\
  fs (snd (convert_inventory_page w)) !! inventory_path <> fs w !! inventory_path.
Proof.
  intros w. repeat split; try (vm_compute; reflexivity).
  vm_compute. discriminate.
Qed.

(** C2 at the fixture of the specification, and at a page with the
    script's own anchor (on line 1) and closing line (on line 4).  The
    count starts at 1 on the anchor line and is back at 0 on the line that
    closes the anchor's brace, but the scan only stops below zero: it runs
    to the end of the buffer and no closing boundary is found, so nothing
    is removed. *)
Theorem brace_balance_scenario_finds_no_close :
  let fixture := ["a {" +:+ nl; "  b {" +:+ nl; "  }" +:+ nl; "}" +:+ nl; "tail" +:+ nl] in
  let page := ["<div>" +:+ nl; RemoveInlineEdit.anchor +:+ nl; "  b {" +:+ nl; "  }" +:+ nl;
               ")}" +:+ nl; "tail" +:+ nl] in
  RemoveInlineEdit.edit_start (RemoveInlineEdit.locate "a {" fixture) = Some 0%Z /\
  RemoveInlineEdit.edit_end (RemoveInlineEdit.locate "a {" fixture) = None /\
  RemoveInlineEdit.brace_count (RemoveInlineEdit.locate "a {" fixture) = 0%Z /\
  RemoveInlineEdit.edit_start (RemoveInlineEdit.locate RemoveInlineEdit.anchor page) = Some 1%Z /\
  RemoveInlineEdit.edit_end (RemoveInlineEdit.locate RemoveInlineEdit.anchor page) = None /\
  RemoveInlineEdit.brace_count (RemoveInlineEdit.locate RemoveInlineEdit.anchor page) = 0%Z /\
  RemoveInlineEdit.remove_edit_form page = page.
Proof. repeat split; vm_compute; reflexivity. Qed.

(** C3, as the code has it.  The replacing patches do not find their text
    again: after step 1 none of the first ten lines has an old import
    text; after step 4 has replaced the form, the form mark having stood
    on one line only, the form locator finds nothing; and after each
    [content.replace(old, new)] of update-inventory-edit.py the result
    does not contain [old].  The inserting patches do find their anchor
    again: [modalRef] was put in before the anchor line, which is now one
    line further down, and the scroll lock was put in after the anchor
    line, which is where it was. *)
Theorem relocation_after_patch (lines : list string) (content : string) :
  (forall i, first_line supabase_line lines = Some i ->
             first_line supabase_line (add_modal_ref lines) = Some (i + 1)%Z) /\
  (forall deps i, first_line deps lines = Some i ->
                  first_line deps (add_scroll_lock deps lines) = Some i) /\
  Forall (fun l => str_in react_old l = false /\ str_in motion_old l = false /\
                   str_in lucide_inventory_old l = false)
    (take 10 (update_imports lucide_inventory_old lucide_inventory_new lines)) /\
  Forall (fun l => str_in react_old l = false /\ str_in motion_old l = false /\
                   str_in lucide_customers_old l = false)
    (take 10 (update_imports lucide_customers_old lucide_customers_new lines)) /\
  (forall a b : Z,
     locate_form lines = (Some a, Some b) -> a <> 0%Z ->
     (forall (j : nat) (l : string),
        lines !! j = Some l -> str_in form_mark l = true -> j = Z.to_nat a) ->
     locate_form (replace_form modal_form_inventory lines) = (None, None) /\
     locate_form (replace_form modal_form_customers lines) = (None, None)) /\
  Forall (fun r => str_in (fst r) (str_replace (fst r) (snd r) content) = false)
    UpdateInventoryEdit.replacements.
Proof.
  assert (Himports : forall lo ln,
    str_in lo react_new = false -> str_in lo motion_new = false ->
    (str_in react_old ln = false /\ str_in motion_old ln = false /\ str_in lo ln = false) ->
    Forall (fun l => str_in react_old l = false /\ str_in motion_old l = false /\
                     str_in lo l = false) (take 10 (update_imports lo ln lines))).
  { intros lo ln Hr Hm Hln. rewrite update_imports_map.
    assert (Ht : take 10 (map (import_rule lo ln) (take 10 lines) ++ drop 10 lines)
                 = map (import_rule lo ln) (take 10 lines)).
    { destruct (le_lt_dec 10 (length lines)) as [Hlen|Hlen].
      - rewrite take_app_le by (rewrite length_map, length_take; lia).
        apply take_ge. rewrite length_map, length_take. lia.
      - rewrite (drop_ge lines 10) by lia. rewrite app_nil_r.
        apply take_ge. rewrite length_map, length_take. lia. }
    rewrite Ht. apply Forall_map, Forall_forall. intros l _. unfold import_rule.
    destruct (str_in react_old l) eqn:E1; [now repeat split|].
    destruct (str_in motion_old l) eqn:E2; [now repeat split|].
    destruct (str_in lo l) eqn:E3; [exact Hln | now repeat split]. }
  repeat apply conj.
  - intros i Hi. rewrite add_modal_ref_first, Hi.
    apply first_line_insert_before; [assumption | vm_compute; reflexivity].
  - intros deps i Hi. rewrite add_scroll_lock_first, Hi.
    now apply first_line_insert_after.
  - apply Himports; repeat split; vm_compute; reflexivity.
  - apply Himports; repeat split; vm_compute; reflexivity.
  - intros a b Hloc Ha Honly. split.
    + apply (replace_form_relocate modal_form_inventory lines a b Hloc Ha); [|exact Honly].
      vm_compute. reflexivity.
    + apply (replace_form_relocate modal_form_customers lines a b Hloc Ha); [|exact Honly].
      vm_compute. reflexivity.
  - eapply Forall_impl; [exact replacements_safe|].
    intros [old new] Hsafe. now apply str_replace_clean.
Qed.

Lemma relocation_after_patch_witness :
  first_line supabase_line [supabase_only] = Some 0%Z /\
  first_line supabase_line (add_modal_ref [supabase_only]) = Some 1%Z /\
  locate_form form_below_top = (Some 1%Z, Some 14%Z) /\
  locate_form (replace_form modal_form_inventory form_below_top) = (None, None).
Proof.
  split; [vm_compute; reflexivity|].
  destruct (relocation_after_patch [supabase_only] EmptyString) as (Hins & _).
  split; [exact (Hins 0%Z eq_refl)|].
  assert (Hloc : locate_form form_below_top = (Some 1%Z, Some 14%Z)) by (vm_compute; reflexivity).
  split; [exact Hloc|].
  destruct (relocation_after_patch form_below_top EmptyString) as (_ & _ & _ & _ & Hform & _).
  apply (Hform 1%Z 14%Z Hloc); [discriminate|].
  intros j l Hj Hl.
  do 15 (destruct j as [|j];
         [cbn in Hj; injection Hj as <-; first [reflexivity | vm_compute in Hl; discriminate]|]).
  cbn in Hj. discriminate.
Defined.

(** C3 as stated fails for the [modalRef] insertion: the patch has been
    applied and its locator finds the anchor again. *)
Lemma relocation_counterexample :
  first_line supabase_line (add_modal_ref [supabase_only]) = Some 1%Z /\
  add_modal_ref (add_modal_ref [supabase_only]) = [modal_ref; modal_ref; supabase_only].
Proof. split; vm_compute; reflexivity. Qed.

End Claims.

Section ClaimsLocators.

Import ConvertModals.

Lemma first_line_spec (sub : string) (lines : list string) (i : Z) :
  first_line sub lines = Some i ->
  exists line,
    (0 <= i)%Z /\ lines !! Z.to_nat i = Some line /\ str_in sub line = true /\
    forall (j : nat) (l : string), j < Z.to_nat i -> lines !! j = Some l -> str_in sub l = false.
Proof.
  unfold first_line. intros H.
  destruct (first_line_from_Some _ _ _ _ H) as (pre & line & post & -> & -> & Hpre & Hl).
  rewrite Z.add_0_l, Nat2Z.id. exists line. repeat split; [lia | | assumption |].
  - apply list_lookup_middle. reflexivity.
  - intros j l Hj Hjl. rewrite lookup_app_l in Hjl by assumption.
    exact (proj1 (Forall_lookup _ _) Hpre j l Hjl).
Qed.

(** A buffer cut at the first line that has a text. *)
Lemma first_match_cut (sub : string) (lines : list string) (i : nat) (line : string) :
  lines !! i = Some line ->
  (forall (j : nat) (l : string), j < i -> lines !! j = Some l -> str_in sub l = false) ->
  lines = take i lines ++ line :: drop (S i) lines /\
  Forall (fun l => str_in sub l = false) (take i lines) /\
  drop i lines = line :: drop (S i) lines.
Proof.
  intros Hi Hbefore. repeat split.
  - symmetry. now apply take_drop_middle.
  - apply Forall_lookup. intros j l Hj.
    apply lookup_take_Some in Hj as [Hj Hlt]. now apply (Hbefore j).
  - now apply drop_S.
Qed.

(** C4, as the code has it.  The one-bound rules, the loops of steps 2 and
    3, act at the first line that contains their text and leave the buffer
    alone when no line contains it.  For the form section both bounds come
    out of one pass.  Without a line with the mark nothing is found; the
    start, when found, is a line with the mark, but it is not fixed: every
    later line with the mark moves it, so the start returned with an end is
    the last marked line before the end, at or after the first marked
    line.  The end is found exactly when some closing line stands more
    than ten lines below every marked line at or before it, and it is then
    one past the first such line. *)
Theorem locators_find (lines : list string) :
  (forall (i : nat) (line : string),
     lines !! i = Some line -> str_in supabase_line line = true ->
     (forall (j : nat) (l : string),
        j < i -> lines !! j = Some l -> str_in supabase_line l = false) ->
     add_modal_ref lines = take i lines ++ modal_ref :: drop i lines) /\
  (Forall (fun l => str_in supabase_line l = false) lines -> add_modal_ref lines = lines) /\
  (forall (deps : string) (i : nat) (line : string),
     lines !! i = Some line -> str_in deps line = true ->
     (forall (j : nat) (l : string), j < i -> lines !! j = Some l -> str_in deps l = false) ->
     add_scroll_lock deps lines
     = take (S i) lines ++ scroll_lock_effect :: drop (S i) lines) /\
  (forall deps : string,
     Forall (fun l => str_in deps l = false) lines -> add_scroll_lock deps lines = lines) /\
  (forall a b : Z,
     locate_form lines = (Some a, Some b) ->
     exists la le,
       (0 <= a)%Z /\ (a + 10 < b - 1)%Z /\
       lines !! Z.to_nat a = Some la /\ str_in form_mark la = true /\
       lines !! Z.to_nat (b - 1) = Some le /\ str_in form_close le = true /\
       (forall (j : nat) (l : string),
          Z.to_nat a < j <= Z.to_nat (b - 1) -> lines !! j = Some l ->
          str_in form_mark l = false) /\
       (forall f : Z, first_line form_mark lines = Some f -> (f <= a)%Z)) /\
  (Forall (fun l => str_in form_mark l = false) lines -> locate_form lines = (None, None)) /\
  (forall a : Z,
     fst (locate_form lines) = Some a ->
     exists la, (0 <= a)%Z /\ lines !! Z.to_nat a = Some la /\ str_in form_mark la = true) /\
  (forall (c : nat) (lc : string),
     lines !! c = Some lc -> str_in form_close lc = true ->
     (exists (m : nat) (lm : string),
        m <= c /\ lines !! m = Some lm /\ str_in form_mark lm = true) ->
     (forall (m : nat) (lm : string),
        m <= c -> lines !! m = Some lm -> str_in form_mark lm = true -> m + 10 < c) ->
     exists a b : Z, locate_form lines = (Some a, Some b) /\ (b - 1 <= Z.of_nat c)%Z) /\
  ((forall (c : nat) (lc : string),
      lines !! c = Some lc -> str_in form_close lc = true ->
      (exists (m : nat) (lm : string),
         m <= c /\ lines !! m = Some lm /\ str_in form_mark lm = true /\ c <= m + 10) \/
      (forall (m : nat) (lm : string),
         m <= c -> lines !! m = Some lm -> str_in form_mark lm = false)) ->
   snd (locate_form lines) = None).
Proof.
  split; [|split; [|split; [|split; [|split; [|split; [|split; [|split]]]]]]].
  - intros i line Hi Hin Hbefore.
    destruct (first_match_cut _ _ _ _ Hi Hbefore) as (Hcut & Hpre & Hdrop).
    rewrite Hcut at 1. rewrite (add_modal_ref_at _ _ _ Hpre Hin), Hdrop. reflexivity.
  - apply add_modal_ref_none.
  - intros deps i line Hi Hin Hbefore.
    destruct (first_match_cut _ _ _ _ Hi Hbefore) as (Hcut & Hpre & Hdrop).
    rewrite Hcut at 1. rewrite (add_scroll_lock_at _ _ _ _ Hpre Hin).
    rewrite (take_S_r _ _ _ Hi), <- app_assoc. reflexivity.
  - intros deps. apply add_scroll_lock_none.
  - intros a b H. unfold locate_form, enumerate in H.
    destruct (form_loop lines 0 None a b H) as (n & le & -> & Hle & Hc & Hgt & Hcase).
    destruct Hcase as [[Hst _] | (m & la & -> & Hm & Hla & Hma & Hnone)]; [discriminate|].
    exists la, le.
    replace (Z.to_nat (0 + Z.of_nat m)) with m by lia.
    replace (Z.to_nat (0 + Z.of_nat n + 1 - 1)) with n by lia.
    repeat split; try assumption; try lia.
    intros f Hf. destruct (first_line_spec _ _ _ Hf) as (lf & Hf0 & _ & _ & Hbefore).
    destruct (Z.le_gt_cases f (0 + Z.of_nat m)) as [?|Hlt]; [assumption|].
    rewrite (Hbefore m la) in Hma; [discriminate | lia | assumption].
  - intros Hnone. unfold locate_form, enumerate. now apply form_loop_no_mark.
  - intros a H. unfold locate_form, enumerate in H.
    destruct (form_loop_start lines 0 None a H) as [Hst | (m & la & -> & Hla & Hma)];
      [discriminate|].
    exists la. replace (Z.to_nat (0 + Z.of_nat m)) with m by lia.
    repeat split; [lia | assumption | assumption].
  - intros c lc Hc Hclose Hmark Hfar. unfold locate_form, enumerate.
    destruct (form_loop_finds lines 0 None c lc Hc Hclose Hfar (or_introl Hmark))
      as (a & b & Hrun & Hb).
    exists a, b. split; [exact Hrun | lia].
  - intros Hnear. unfold locate_form, enumerate. apply form_loop_misses.
    intros c lc Hc Hclose. destruct (Hnear c lc Hc Hclose) as [Hm | Hnone]; [now left|].
    right. split; [exact Hnone | discriminate].
Qed.

Lemma locators_find_witness :
  add_modal_ref anchors_page
  = take 3 anchors_page ++ modal_ref :: drop 3 anchors_page /\
  add_scroll_lock deps_inventory anchors_page
  = take 2 anchors_page ++ scroll_lock_effect :: drop 2 anchors_page /\
  add_modal_ref twice_marked = twice_marked /\
  locate_form twice_marked = (Some 1%Z, Some 13%Z) /\
  (exists la, twice_marked !! 1 = Some la /\ str_in form_mark la = true) /\
  (exists a b : Z, locate_form twice_marked = (Some a, Some b) /\ (b - 1 <= 12)%Z) /\
  snd (locate_form [form_mark +:+ nl; form_close +:+ nl]) = None.
Proof.
  assert (H2 : locate_form twice_marked = (Some 1%Z, Some 13%Z)) by (vm_compute; reflexivity).
  destruct (locators_find anchors_page) as (Href & _ & Hlock & _).
  destruct (locators_find twice_marked) as (_ & Hnoref & _ & _ & Hsound & _ & _ & Hfinds & _).
  destruct (locators_find [form_mark +:+ nl; form_close +:+ nl])
    as (_ & _ & _ & _ & _ & _ & _ & _ & Hmiss).
  split; [|split; [|split; [|split; [exact H2|split; [|split]]]]].
  - apply (Href 3 (supabase_line +:+ nl)); [reflexivity | vm_compute; reflexivity |].
    intros j l Hj Hl. do 3 (destruct j as [|j]; [injection Hl as <-; vm_compute; reflexivity|]).
    lia.
  - apply (Hlock deps_inventory 1 (deps_inventory +:+ nl));
      [reflexivity | vm_compute; reflexivity |].
    intros j l Hj Hl. destruct j as [|j]; [injection Hl as <-; vm_compute; reflexivity | lia].
  - apply Hnoref. repeat constructor.
  - destruct (Hsound _ _ H2) as (la & le & _ & _ & Hla & Hma & _).
    exists la. split; assumption.
  - apply (Hfinds 12 (form_close +:+ nl)); [reflexivity | vm_compute; reflexivity | |].
    + exists 1, (form_mark +:+ nl).
      split; [lia|]. split; [reflexivity | vm_compute; reflexivity].
    + intros m lm Hm Hlm Hmk.
      do 2 (destruct m as [|m]; [lia|]).
      exfalso. revert Hmk.
      do 11 (destruct m as [|m]; [injection Hlm as <-; vm_compute; discriminate|]). lia.
  - apply Hmiss. intros c lc Hc Hclose. left.
    exists 0, (form_mark +:+ nl).
    split; [lia|]. split; [reflexivity|]. split; [vm_compute; reflexivity|].
    apply lookup_lt_Some in Hc. cbn [length] in Hc. lia.
Defined.

(** C4 as stated fails for the form section: the first line that contains
    the mark is line 0, and the start the locator returns is line 1. *)
Lemma first_bound_moves_counterexample :
  first_line form_mark twice_marked = Some 0%Z /\
  locate_form twice_marked = (Some 1%Z, Some 13%Z).
Proof. split; vm_compute; reflexivity. Qed.

End ClaimsLocators.

Section ClaimsExit.

Import ConvertModals.

(** C5, as the code has it.  A run over pages that can be read ends with
    exit status 0 and has printed its confirmation, whatever the pages
    contain, so whether or not any rule matches: one line for the three
    one-page scripts, the two page lines and the closing line for
    convert-modals.py.  A run whose page is missing or is not well-formed
    UTF-8 ends with exit status 1 and prints nothing; convert-modals.py
    with a readable inventory page and an unreadable customers page ends
    with exit status 1 after the confirmation of the inventory page.  The
    exit status tells a page that could not be read from one that could,
    and nothing about the rules. *)
Theorem scripts_always_report_success (w : world) :
  (forall b1 : string,
     fs w !! inventory_path = Some b1 -> utf8_valid b1 = true ->
     (exit_status (RemoveInlineEdit.main w) = 0%Z /\
      stdout (snd (RemoveInlineEdit.main w)) = stdout w ++ [RemoveInlineEdit.message +:+ nl]) /\
     (exit_status (UpdateInventoryEdit.main w) = 0%Z /\
      stdout (snd (UpdateInventoryEdit.main w))
      = stdout w ++ [UpdateInventoryEdit.message +:+ nl]) /\
     (exit_status (ConvertToModal.main w) = 0%Z /\
      stdout (snd (ConvertToModal.main w)) = stdout w ++ [ConvertToModal.message +:+ nl]) /\
     (forall b2 : string,
        fs w !! customers_path = Some b2 -> utf8_valid b2 = true ->
        exit_status (ConvertModals.main w) = 0%Z /\
        stdout (snd (ConvertModals.main w)) =
        stdout w ++ [inventory_message +:+ nl; customers_message +:+ nl; all_message +:+ nl]) /\
     ((fs w !! customers_path = None \/
       exists b2, fs w !! customers_path = Some b2 /\ utf8_valid b2 = false) ->
      exit_status (ConvertModals.main w) = 1%Z /\
      stdout (snd (ConvertModals.main w)) = stdout w ++ [inventory_message +:+ nl])) /\
  ((fs w !! inventory_path = None \/
    exists b1, fs w !! inventory_path = Some b1 /\ utf8_valid b1 = false) ->
   (exit_status (RemoveInlineEdit.main w) = 1%Z /\
    stdout (snd (RemoveInlineEdit.main w)) = stdout w) /\
   (exit_status (UpdateInventoryEdit.main w) = 1%Z /\
    stdout (snd (UpdateInventoryEdit.main w)) = stdout w) /\
   (exit_status (ConvertToModal.main w) = 1%Z /\
    stdout (snd (ConvertToModal.main w)) = stdout w) /\
   (exit_status (ConvertModals.main w) = 1%Z /\
    stdout (snd (ConvertModals.main w)) = stdout w)).
Proof.
  split.
  - intros b1 H1 V1. repeat apply conj.
    + now rewrite (remove_inline_edit_run w b1 H1 V1).
    + rewrite (remove_inline_edit_run w b1 H1 V1). cbn [snd]. apply stdout_rewritten.
    + now rewrite (update_inventory_edit_run w b1 H1 V1).
    + rewrite (update_inventory_edit_run w b1 H1 V1). cbn [snd]. apply stdout_rewritten.
    + now rewrite (convert_to_modal_run w b1 H1 V1).
    + rewrite (convert_to_modal_run w b1 H1 V1). cbn [snd]. apply stdout_rewritten.
    + intros b2 H2 V2.
      destruct (convert_modals_run w b1 b2 H1 V1 H2 V2) as (d1 & d2 & ->).
      split; [reflexivity|].
      cbn [snd]. rewrite stdout_emit_print, !stdout_rewritten, <- !app_assoc. reflexivity.
    + intros Hbad.
      destruct (convert_modals_half_run w b1 H1 V1 Hbad) as (e & d1 & ->).
      split; [reflexivity|]. cbn [snd]. apply stdout_rewritten.
  - intros Hbad. destruct (read_text_unreadable w inventory_path Hbad) as (e & Hread).
    destruct (unreadable_stops w e Hread) as (-> & -> & ->).
    rewrite (convert_modals_stops w e Hread). repeat split.
Qed.

Lemma scripts_always_report_success_witness :
  fs two_pages !! inventory_path = Some supabase_only /\
  fs two_pages !! customers_path = Some ("nothing to patch" +:+ nl) /\
  exit_status (RemoveInlineEdit.main two_pages) = 0%Z /\
  exit_status (ConvertModals.main two_pages) = 0%Z /\
  stdout (snd (ConvertModals.main two_pages)) =
  [inventory_message +:+ nl; customers_message +:+ nl; all_message +:+ nl] /\
  fs no_files !! inventory_path = None /\
  exit_status (UpdateInventoryEdit.main no_files) = 1%Z /\
  stdout (snd (UpdateInventoryEdit.main no_files)) = [].
Proof.
  assert (H1 : fs two_pages !! inventory_path = Some supabase_only) by (vm_compute; reflexivity).
  assert (H2 : fs two_pages !! customers_path = Some ("nothing to patch" +:+ nl))
    by (vm_compute; reflexivity).
  assert (H3 : fs no_files !! inventory_path = None) by reflexivity.
  split; [exact H1|]. split; [exact H2|].
  destruct (proj1 (scripts_always_report_success two_pages) _ H1 eq_refl)
    as ((Hr & _) & _ & _ & Hm & _).
  split; [exact Hr|]. split; [exact (proj1 (Hm _ H2 eq_refl))|].
  split; [exact (proj2 (Hm _ H2 eq_refl))|]. split; [exact H3|].
  destruct (proj2 (scripts_always_report_success no_files) (or_introl H3))
    as (_ & (Hexit & Hout) & _).
  split; [exact Hexit | exact Hout].
Defined.

(** C5 as stated fails for a page that cannot be read: the run ends with
    exit status 1 and without its confirmation, for each script; and a run
    of convert-modals.py can end so after the first of its pages. *)
Lemma unreadable_page_counterexample :
  utf8_valid (String "255"%char EmptyString) = false /\
  (exit_status (RemoveInlineEdit.main broken_page) = 1%Z /\
   stdout (snd (RemoveInlineEdit.main broken_page)) = []) /\
  (exit_status (UpdateInventoryEdit.main broken_page) = 1%Z /\
   stdout (snd (UpdateInventoryEdit.main broken_page)) = []) /\
  (exit_status (ConvertToModal.main broken_page) = 1%Z /\
   stdout (snd (ConvertToModal.main broken_page)) = []) /\
  (exit_status (ConvertModals.main no_files) = 1%Z /\
   stdout (snd (ConvertModals.main no_files)) = []) /\
  (exit_status (ConvertModals.main inventory_only) = 1%Z /\
   stdout (snd (ConvertModals.main inventory_only)) = [inventory_message +:+ nl]).
Proof. repeat split; vm_compute; reflexivity. Qed.

End ClaimsExit.

Section ClaimsFiles.

Import ConvertModals.

Lemma rewritten_frame (w : world) (path data message : string) :
  writes (rewritten w path data message) = writes w ++ [path] /\
  forall p, p <> path -> fs (rewritten w path data message) !! p = fs w !! p.
Proof. split; [apply writes_rewritten | intros p; apply fs_rewritten_other]. Qed.

(** C6, as the code has it.  Each rewrite, the three one-page scripts and
    the two page functions of convert-modals.py, reads one file, its page,
    once and whole, writes that same file once, the whole new text, and
    leaves every other file as it was.  A run of convert-modals.py calls
    both page functions: it reads two files and writes two files. *)
Theorem each_rewrite_writes_its_own_file (w : world) (b1 : string) :
  fs w !! inventory_path = Some b1 -> utf8_valid b1 = true ->
  (reads (snd (RemoveInlineEdit.main w)) = reads w ++ [RemoveInlineEdit.path] /\
   writes (snd (RemoveInlineEdit.main w)) = writes w ++ [RemoveInlineEdit.path] /\
   fs (snd (RemoveInlineEdit.main w)) !! RemoveInlineEdit.path =
     Some (linesep_newlines (os_linesep w)
             (join (RemoveInlineEdit.remove_edit_form (splitlines (universal_newlines b1))))) /\
   forall p, p <> RemoveInlineEdit.path -> fs (snd (RemoveInlineEdit.main w)) !! p = fs w !! p) /\
  (reads (snd (UpdateInventoryEdit.main w)) = reads w ++ [UpdateInventoryEdit.path] /\
   writes (snd (UpdateInventoryEdit.main w)) = writes w ++ [UpdateInventoryEdit.path] /\
   fs (snd (UpdateInventoryEdit.main w)) !! UpdateInventoryEdit.path =
     Some (linesep_newlines (os_linesep w)
             (UpdateInventoryEdit.patch (universal_newlines b1))) /\
   forall p, p <> UpdateInventoryEdit.path ->
             fs (snd (UpdateInventoryEdit.main w)) !! p = fs w !! p) /\
  (reads (snd (ConvertToModal.main w)) = reads w ++ [ConvertToModal.path] /\
   writes (snd (ConvertToModal.main w)) = writes w ++ [ConvertToModal.path] /\
   (exists c, ConvertToModal.patch (universal_newlines b1) = Some c /\
              fs (snd (ConvertToModal.main w)) !! ConvertToModal.path =
                Some (linesep_newlines (os_linesep w) c)) /\
   forall p, p <> ConvertToModal.path -> fs (snd (ConvertToModal.main w)) !! p = fs w !! p) /\
  (reads (snd (convert_inventory_page w)) = reads w ++ [inventory_path] /\
   writes (snd (convert_inventory_page w)) = writes w ++ [inventory_path] /\
   fs (snd (convert_inventory_page w)) !! inventory_path =
     Some (linesep_newlines (os_linesep w)
             (join (patch lucide_inventory_old lucide_inventory_new deps_inventory
                      modal_form_inventory (splitlines (universal_newlines b1))))) /\
   forall p, p <> inventory_path -> fs (snd (convert_inventory_page w)) !! p = fs w !! p) /\
  (forall b2 : string,
     fs w !! customers_path = Some b2 -> utf8_valid b2 = true ->
     (reads (snd (convert_customers_page w)) = reads w ++ [customers_path] /\
      writes (snd (convert_customers_page w)) = writes w ++ [customers_path] /\
      fs (snd (convert_customers_page w)) !! customers_path =
        Some (linesep_newlines (os_linesep w)
                (join (patch lucide_customers_old lucide_customers_new deps_customers
                         modal_form_customers (splitlines (universal_newlines b2))))) /\
      forall p, p <> customers_path -> fs (snd (convert_customers_page w)) !! p = fs w !! p) /\
     reads (snd (ConvertModals.main w)) = reads w ++ [inventory_path; customers_path] /\
     writes (snd (ConvertModals.main w)) = writes w ++ [inventory_path; customers_path]).
Proof.
  intros H1 V1. repeat apply conj.
  - rewrite (remove_inline_edit_run w b1 H1 V1). apply reads_rewritten.
  - rewrite (remove_inline_edit_run w b1 H1 V1). apply writes_rewritten.
  - rewrite (remove_inline_edit_run w b1 H1 V1). apply fs_rewritten_same.
  - rewrite (remove_inline_edit_run w b1 H1 V1). intros p. apply fs_rewritten_other.
  - rewrite (update_inventory_edit_run w b1 H1 V1). apply reads_rewritten.
  - rewrite (update_inventory_edit_run w b1 H1 V1). apply writes_rewritten.
  - rewrite (update_inventory_edit_run w b1 H1 V1). apply fs_rewritten_same.
  - rewrite (update_inventory_edit_run w b1 H1 V1). intros p. apply fs_rewritten_other.
  - rewrite (convert_to_modal_run w b1 H1 V1). apply reads_rewritten.
  - rewrite (convert_to_modal_run w b1 H1 V1). apply writes_rewritten.
  - exists (patch_text (universal_newlines b1)). split; [apply patch_patch_text|].
    rewrite (convert_to_modal_run w b1 H1 V1). apply fs_rewritten_same.
  - rewrite (convert_to_modal_run w b1 H1 V1). intros p. apply fs_rewritten_other.
  - unfold convert_inventory_page. rewrite (convert_page_run w _ _ _ _ _ _ b1 H1 V1).
    apply reads_rewritten.
  - unfold convert_inventory_page. rewrite (convert_page_run w _ _ _ _ _ _ b1 H1 V1).
    apply writes_rewritten.
  - unfold convert_inventory_page. rewrite (convert_page_run w _ _ _ _ _ _ b1 H1 V1).
    apply fs_rewritten_same.
  - unfold convert_inventory_page. rewrite (convert_page_run w _ _ _ _ _ _ b1 H1 V1).
    intros p. apply fs_rewritten_other.
  - intros b2 H2 V2. repeat apply conj.
    + unfold convert_customers_page. rewrite (convert_page_run w _ _ _ _ _ _ b2 H2 V2).
      apply reads_rewritten.
    + unfold convert_customers_page. rewrite (convert_page_run w _ _ _ _ _ _ b2 H2 V2).
      apply writes_rewritten.
    + unfold convert_customers_page. rewrite (convert_page_run w _ _ _ _ _ _ b2 H2 V2).
      apply fs_rewritten_same.
    + unfold convert_customers_page. rewrite (convert_page_run w _ _ _ _ _ _ b2 H2 V2).
      intros p. apply fs_rewritten_other.
    + destruct (convert_modals_run w b1 b2 H1 V1 H2 V2) as (d1 & d2 & ->). cbn [snd].
      rewrite reads_emit_print, !reads_rewritten, <- app_assoc. reflexivity.
    + destruct (convert_modals_run w b1 b2 H1 V1 H2 V2) as (d1 & d2 & ->). cbn [snd].
      rewrite writes_emit_print, !writes_rewritten, <- app_assoc. reflexivity.
Qed.

Lemma each_rewrite_writes_its_own_file_witness :
  fs both_pages !! inventory_path = Some supabase_only /\
  fs both_pages !! customers_path = Some supabase_only /\
  reads (snd (convert_customers_page both_pages)) = [customers_path] /\
  writes (snd (convert_customers_page both_pages)) = [customers_path] /\
  fs (snd (convert_customers_page both_pages)) !! inventory_path = Some supabase_only /\
  reads (snd (convert_inventory_page both_pages)) = [inventory_path] /\
  writes (snd (convert_inventory_page both_pages)) = [inventory_path] /\
  fs (snd (convert_inventory_page both_pages)) !! customers_path = Some supabase_only.
Proof.
  assert (H1 : fs both_pages !! inventory_path = Some supabase_only) by (vm_compute; reflexivity).
  assert (H2 : fs both_pages !! customers_path = Some supabase_only) by (vm_compute; reflexivity).
  split; [exact H1|]. split; [exact H2|].
  destruct (each_rewrite_writes_its_own_file both_pages _ H1 eq_refl)
    as (_ & _ & _ & (Hri & Hwi & _ & Hfi) & Hcust).
  destruct (Hcust _ H2 eq_refl) as ((Hr & Hw & _ & Hframe) & _).
  split; [exact Hr|]. split; [exact Hw|]. split; [rewrite Hframe; [exact H1 | discriminate]|].
  split; [exact Hri|]. split; [exact Hwi|]. rewrite Hfi; [exact H2 | discriminate].
Defined.

(** C6 as stated fails for a run of convert-modals.py: one run writes the
    inventory page and the customers page, and here it changes both. *)
Lemma one_run_two_files_counterexample :
  writes (snd (ConvertModals.main both_pages)) = [inventory_path; customers_path] /\
  inventory_path <> customers_path /\
  fs (snd (ConvertModals.main both_pages)) !! inventory_path <> fs both_pages !! inventory_path /\
  fs (snd (ConvertModals.main both_pages)) !! customers_path <> fs both_pages !! customers_path.
Proof.
  repeat split; try (vm_compute; reflexivity); try discriminate; vm_compute; discriminate.
Qed.

Lemma convert_page_same (path lo ln deps mf message : string) (w1 w2 : world) :
  fs w1 !! path = fs w2 !! path -> os_linesep w1 = os_linesep w2 ->
  fst (convert_page path lo ln deps mf message w1) =
  fst (convert_page path lo ln deps mf message w2) /\
  fs (snd (convert_page path lo ln deps mf message w1)) !! path =
  fs (snd (convert_page path lo ln deps mf message w2)) !! path.
Proof.
  intros Hfs Hsep.
  destruct (fs w1 !! path) as [bytes|] eqn:E1; symmetry in Hfs.
  - destruct (utf8_valid bytes) eqn:V.
    + rewrite (convert_page_run w1 _ _ _ _ _ _ bytes E1 V),
        (convert_page_run w2 _ _ _ _ _ _ bytes Hfs V).
      cbn [fst snd]. rewrite !fs_rewritten_same, Hsep. now split.
    + rewrite (convert_page_unreadable _ _ _ _ _ _ w1 _ (read_text_undecodable w1 _ bytes E1 V)),
        (convert_page_unreadable _ _ _ _ _ _ w2 _ (read_text_undecodable w2 _ bytes Hfs V)).
      cbn [fst snd]. rewrite E1, Hfs. now split.
  - rewrite (convert_page_unreadable _ _ _ _ _ _ w1 _ (read_text_missing w1 _ E1)),
      (convert_page_unreadable _ _ _ _ _ _ w2 _ (read_text_missing w2 _ Hfs)).
    cbn [fst snd]. rewrite E1, Hfs. now split.
Qed.

(** C7.  What a rewrite does to its page depends on the bytes of the page
    and on [os.linesep] and on nothing else: in two worlds that agree on
    these, whatever else they hold, each script ends the same way and
    leaves the same bytes in the page. *)
Theorem rewrite_depends_on_the_buffer_only (w1 w2 : world) :
  fs w1 !! inventory_path = fs w2 !! inventory_path ->
  os_linesep w1 = os_linesep w2 ->
  (fst (RemoveInlineEdit.main w1) = fst (RemoveInlineEdit.main w2) /\
   fs (snd (RemoveInlineEdit.main w1)) !! inventory_path =
   fs (snd (RemoveInlineEdit.main w2)) !! inventory_path) /\
  (fst (UpdateInventoryEdit.main w1) = fst (UpdateInventoryEdit.main w2) /\
   fs (snd (UpdateInventoryEdit.main w1)) !! inventory_path =
   fs (snd (UpdateInventoryEdit.main w2)) !! inventory_path) /\
  (fst (ConvertToModal.main w1) = fst (ConvertToModal.main w2) /\
   fs (snd (ConvertToModal.main w1)) !! inventory_path =
   fs (snd (ConvertToModal.main w2)) !! inventory_path) /\
  (fst (convert_inventory_page w1) = fst (convert_inventory_page w2) /\
   fs (snd (convert_inventory_page w1)) !! inventory_path =
   fs (snd (convert_inventory_page w2)) !! inventory_path) /\
  (fs w1 !! customers_path = fs w2 !! customers_path ->
   fst (convert_customers_page w1) = fst (convert_customers_page w2) /\
   fs (snd (convert_customers_page w1)) !! customers_path =
   fs (snd (convert_customers_page w2)) !! customers_path).
Proof.
  intros Hfs Hsep.
  assert (Hpages :
    (fst (convert_inventory_page w1) = fst (convert_inventory_page w2) /\
     fs (snd (convert_inventory_page w1)) !! inventory_path =
     fs (snd (convert_inventory_page w2)) !! inventory_path) /\
    (fs w1 !! customers_path = fs w2 !! customers_path ->
     fst (convert_customers_page w1) = fst (convert_customers_page w2) /\
     fs (snd (convert_customers_page w1)) !! customers_path =
     fs (snd (convert_customers_page w2)) !! customers_path)).
  { split; [|intros Hc]; now apply convert_page_same. }
  destruct Hpages as [Hinv Hcust].
  destruct (fs w1 !! inventory_path) as [bytes|] eqn:E1; symmetry in Hfs.
  - destruct (utf8_valid bytes) eqn:V.
    + rewrite (remove_inline_edit_run w1 bytes E1 V), (remove_inline_edit_run w2 bytes Hfs V),
        (update_inventory_edit_run w1 bytes E1 V), (update_inventory_edit_run w2 bytes Hfs V),
        (convert_to_modal_run w1 bytes E1 V), (convert_to_modal_run w2 bytes Hfs V).
      cbn [fst snd].
      change RemoveInlineEdit.path with inventory_path.
      change UpdateInventoryEdit.path with inventory_path.
      change ConvertToModal.path with inventory_path.
      rewrite !fs_rewritten_same, Hsep. refine (conj _ (conj _ (conj _ (conj Hinv Hcust)))); now split.
    + destruct (unreadable_stops w1 _ (read_text_undecodable w1 _ bytes E1 V))
        as (-> & -> & ->).
      destruct (unreadable_stops w2 _ (read_text_undecodable w2 _ bytes Hfs V))
        as (-> & -> & ->).
      cbn [fst snd]. rewrite E1, Hfs. refine (conj _ (conj _ (conj _ (conj Hinv Hcust)))); now split.
  - destruct (unreadable_stops w1 _ (read_text_missing w1 _ E1)) as (-> & -> & ->).
    destruct (unreadable_stops w2 _ (read_text_missing w2 _ Hfs)) as (-> & -> & ->).
    cbn [fst snd]. rewrite E1, Hfs. refine (conj _ (conj _ (conj _ (conj Hinv Hcust)))); now split.
Qed.

Lemma rewrite_depends_on_the_buffer_only_witness :
  fs both_pages !! inventory_path = fs elsewhere !! inventory_path /\
  os_linesep both_pages = os_linesep elsewhere /\
  fs (snd (convert_inventory_page both_pages)) !! inventory_path =
  fs (snd (convert_inventory_page elsewhere)) !! inventory_path.
Proof.
  assert (H1 : fs both_pages !! inventory_path = fs elsewhere !! inventory_path)
    by (vm_compute; reflexivity).
  split; [exact H1|]. split; [reflexivity|].
  destruct (rewrite_depends_on_the_buffer_only both_pages elsewhere H1 eq_refl)
    as (_ & _ & _ & (_ & Hpage) & _).
  exact Hpage.
Defined.

End ClaimsFiles.

Section ClaimsRoundTrip.

Import ConvertModals.

(** The scripts are the shared frame with their edits, followed by the
    report. *)
Lemma scripts_are_rewrites (w : world) :
  convert_inventory_page w =
    (rewrite inventory_path
       [update_imports lucide_inventory_old lucide_inventory_new; add_modal_ref;
        add_scroll_lock deps_inventory; replace_form modal_form_inventory];;
     print inventory_message) w /\
  convert_customers_page w =
    (rewrite customers_path
       [update_imports lucide_customers_old lucide_customers_new; add_modal_ref;
        add_scroll_lock deps_customers; replace_form modal_form_customers];;
     print customers_message) w /\
  RemoveInlineEdit.main w =
    (rewrite RemoveInlineEdit.path [RemoveInlineEdit.remove_edit_form];;
     print RemoveInlineEdit.message) w /\
  UpdateInventoryEdit.main w =
    (rewrite_text UpdateInventoryEdit.path
       (map (fun r => str_replace (fst r) (snd r)) UpdateInventoryEdit.replacements);;
     print UpdateInventoryEdit.message) w.
Proof.
  repeat split.
  - unfold convert_inventory_page, convert_page, rewrite, mbind, io_bind.
    destruct (read_lines inventory_path w) as [[lines|e] w']; reflexivity.
  - unfold convert_customers_page, convert_page, rewrite, mbind, io_bind.
    destruct (read_lines customers_path w) as [[lines|e] w']; reflexivity.
  - unfold RemoveInlineEdit.main, rewrite, mbind, io_bind.
    destruct (read_lines RemoveInlineEdit.path w) as [[lines|e] w']; reflexivity.
  - unfold UpdateInventoryEdit.main, rewrite_text, mbind, io_bind.
    destruct (read_text UpdateInventoryEdit.path w) as [[content|e] w']; reflexivity.
Qed.

Lemma rewrite_nothing_run (w : world) (path bytes : string) :
  fs w !! path = Some bytes -> utf8_valid bytes = true ->
  rewrite path [] w =
  (Ok tt,
   World (<[path := linesep_newlines (os_linesep w) (universal_newlines bytes)]> (fs w))
         (os_linesep w)
         (trace w ++ [Reads path;
                      Writes path (linesep_newlines (os_linesep w) (universal_newlines bytes))])).
Proof.
  intros Hf Hv. unfold rewrite, mbind, io_bind.
  rewrite (read_lines_ok w path bytes Hf Hv).
  unfold write_lines, write_text, emit. cbn [foldl fs os_linesep trace].
  rewrite join_splitlines, <- app_assoc. reflexivity.
Qed.

Lemma rewrite_text_nothing_run (w : world) (path bytes : string) :
  fs w !! path = Some bytes -> utf8_valid bytes = true ->
  rewrite_text path [] w = rewrite path [] w.
Proof.
  intros Hf Hv. rewrite (rewrite_nothing_run w path bytes Hf Hv).
  unfold rewrite_text, mbind, io_bind. rewrite (read_text_ok w path bytes Hf Hv).
  unfold write_text, emit. cbn [foldl fs os_linesep trace].
  rewrite <- app_assoc. reflexivity.
Qed.

(** C8, as the code has it.  With no edits the buffer that was read is the
    buffer that is written ([join (splitlines s) = s]), so the file keeps
    its text; its bytes are what the text layer makes of them, line ends
    read as LF and written as [os.linesep].  The bytes are unchanged when
    the line ends of the file are the platform's already: no CR where
    [os.linesep] is LF, and the CR LF form of a text without CR where
    [os.linesep] is CR LF.  The frame over lines and the frame over one
    string do the same. *)
Theorem empty_rewrite_keeps_the_text (w : world) (path bytes : string) :
  fs w !! path = Some bytes -> utf8_valid bytes = true ->
  fst (rewrite path [] w) = Ok tt /\
  rewrite_text path [] w = rewrite path [] w /\
  fs (snd (rewrite path [] w)) =
    <[path := linesep_newlines (os_linesep w) (universal_newlines bytes)]> (fs w) /\
  (os_linesep w = nl -> str_in cr bytes = false -> fs (snd (rewrite path [] w)) = fs w) /\
  (os_linesep w = crlf ->
   forall t, str_in cr t = false -> bytes = linesep_newlines crlf t ->
             fs (snd (rewrite path [] w)) = fs w).
Proof.
  intros Hf Hv. split; [|split; [exact (rewrite_text_nothing_run w path bytes Hf Hv)|]];
    rewrite (rewrite_nothing_run w path bytes Hf Hv); cbn [fst snd fs]; [reflexivity|].
  repeat split.
  - intros -> Hcr. rewrite linesep_newlines_lf, (universal_newlines_no_cr _ Hcr).
    now apply insert_id.
  - intros -> t Ht ->. rewrite (universal_newlines_crlf _ Ht). now apply insert_id.
Qed.

Lemma empty_rewrite_keeps_the_text_witness :
  fs unix_page !! inventory_path = Some ("a" +:+ nl) /\
  utf8_valid ("a" +:+ nl) = true /\ os_linesep unix_page = nl /\
  str_in cr ("a" +:+ nl) = false /\
  fs (snd (rewrite inventory_path [] unix_page)) = fs unix_page.
Proof.
  assert (Hf : fs unix_page !! inventory_path = Some ("a" +:+ nl)) by (vm_compute; reflexivity).
  split; [exact Hf|]. split; [reflexivity|]. split; [reflexivity|]. split; [reflexivity|].
  destruct (empty_rewrite_keeps_the_text unix_page inventory_path _ Hf eq_refl)
    as (_ & _ & _ & Hunix & _).
  apply Hunix; reflexivity.
Defined.

(** C8 as stated fails: a page with CR LF line ends rewritten where
    [os.linesep] is LF comes back with LF line ends, and a page with LF
    line ends rewritten where [os.linesep] is CR LF comes back with CR
    LF. *)
Lemma empty_rewrite_counterexample :
  let dos_file := "a" +:+ crlf in
  let unix_file := "a" +:+ nl in
  fs (snd (rewrite inventory_path [] (World {[ inventory_path := dos_file ]} nl [])))
    !! inventory_path = Some unix_file /\
  fs (snd (rewrite inventory_path [] (World {[ inventory_path := unix_file ]} crlf [])))
    !! inventory_path = Some dos_file /\
  dos_file <> unix_file.
Proof. repeat split; try (vm_compute; reflexivity). discriminate. Qed.

(** C9, as the code has it.  A start bound on line 0 is a false value for
    [if form_start and form_end] and for [if edit_start and edit_end]: the
    form is not replaced and the inline edit form is not removed, whether
    or not the end bound was found.  The located start is line 0 when the
    first line has the anchor and no later line has it; so a buffer whose
    first line has the anchor is changed only if a later line has the
    anchor too, which moves the start off line 0. *)
Theorem start_on_line_zero_is_skipped (lines : list string) (modal_form : string) :
  (fst (locate_form lines) = Some 0%Z -> replace_form modal_form lines = lines) /\
  (RemoveInlineEdit.edit_start (RemoveInlineEdit.locate RemoveInlineEdit.anchor lines) = Some 0%Z ->
   RemoveInlineEdit.remove_edit_form lines = lines) /\
  (forall (first : string) (rest : list string),
     lines = first :: rest -> str_in form_mark first = true ->
     Forall (fun l => str_in form_mark l = false) rest ->
     fst (locate_form lines) = Some 0%Z /\ replace_form modal_form lines = lines) /\
  (forall (first : string) (rest : list string),
     lines = first :: rest -> str_in RemoveInlineEdit.anchor first = true ->
     Forall (fun l => str_in RemoveInlineEdit.anchor l = false) rest ->
     RemoveInlineEdit.edit_start (RemoveInlineEdit.locate RemoveInlineEdit.anchor lines)
     = Some 0%Z /\
     RemoveInlineEdit.remove_edit_form lines = lines) /\
  (forall (first : string) (rest : list string),
     lines = first :: rest -> str_in form_mark first = true ->
     replace_form modal_form lines <> lines ->
     Exists (fun l => str_in form_mark l = true) rest) /\
  (forall (first : string) (rest : list string),
     lines = first :: rest -> str_in RemoveInlineEdit.anchor first = true ->
     RemoveInlineEdit.remove_edit_form lines <> lines ->
     Exists (fun l => str_in RemoveInlineEdit.anchor l = true) rest).
Proof.
  assert (Hcases : forall (sub : string) (rest : list string),
            Forall (fun l => str_in sub l = false) rest \/
            Exists (fun l => str_in sub l = true) rest).
  { intros sub rest. induction rest as [|l rest IH]; [left; constructor|].
    destruct (str_in sub l) eqn:El; [right; now constructor|].
    destruct IH as [IH | IH]; [left | right]; now constructor. }
  repeat apply conj.
  - intros H. apply replace_form_unlocated. now rewrite H.
  - intros H. apply remove_edit_form_unlocated. now rewrite H.
  - intros first rest -> Hf Hrest. split; [now apply locate_form_first_line|].
    now apply form_on_first_line_only_is_skipped.
  - intros first rest -> Hf Hrest. now apply edit_on_first_line_only_is_skipped.
  - intros first rest -> Hf Hchanged.
    destruct (Hcases form_mark rest) as [Hnone | Hsome]; [|exact Hsome].
    exfalso. apply Hchanged. now apply form_on_first_line_only_is_skipped.
  - intros first rest -> Hf Hchanged.
    destruct (Hcases RemoveInlineEdit.anchor rest) as [Hnone | Hsome]; [|exact Hsome].
    exfalso. apply Hchanged.
    exact (proj2 (edit_on_first_line_only_is_skipped first rest Hf Hnone)).
Qed.

Lemma start_on_line_zero_is_skipped_witness :
  locate_form form_on_top = (Some 0%Z, Some 13%Z) /\
  replace_form modal_form_inventory form_on_top = form_on_top /\
  RemoveInlineEdit.edit_start (RemoveInlineEdit.locate RemoveInlineEdit.anchor edit_on_top)
    = Some 0%Z /\
  RemoveInlineEdit.edit_end (RemoveInlineEdit.locate RemoveInlineEdit.anchor edit_on_top)
    = Some 4%Z /\
  RemoveInlineEdit.remove_edit_form edit_on_top = edit_on_top.
Proof.
  assert (H1 : locate_form form_on_top = (Some 0%Z, Some 13%Z)) by (vm_compute; reflexivity).
  assert (H2 : RemoveInlineEdit.edit_start
                 (RemoveInlineEdit.locate RemoveInlineEdit.anchor edit_on_top) = Some 0%Z)
    by (vm_compute; reflexivity).
  split; [exact H1|]. split.
  - apply (proj1 (start_on_line_zero_is_skipped form_on_top modal_form_inventory)).
    now rewrite H1.
  - split; [exact H2|]. split; [vm_compute; reflexivity|].
    exact (proj1 (proj2 (start_on_line_zero_is_skipped edit_on_top EmptyString)) H2).
Defined.

(** C9 as stated fails when a later line has the anchor too: the first
    line has it, the start moves to the later line, the guard holds and
    the region is replaced or deleted. *)
Lemma anchor_on_line_zero_counterexample :
  (exists first rest, twice_marked = first :: rest /\ str_in form_mark first = true) /\
  locate_form twice_marked = (Some 1%Z, Some 13%Z) /\
  replace_form modal_form_inventory twice_marked
  = [form_mark +:+ nl; modal_form_inventory] /\
  (exists first rest,
     edit_twice_marked = first :: rest /\ str_in RemoveInlineEdit.anchor first = true) /\
  RemoveInlineEdit.edit_start (RemoveInlineEdit.locate RemoveInlineEdit.anchor edit_twice_marked)
    = Some 2%Z /\
  RemoveInlineEdit.edit_end (RemoveInlineEdit.locate RemoveInlineEdit.anchor edit_twice_marked)
    = Some 7%Z /\
  RemoveInlineEdit.remove_edit_form edit_twice_marked
  = take 2 edit_twice_marked ++ drop 3 edit_twice_marked /\
  length (RemoveInlineEdit.remove_edit_form edit_twice_marked) = 7.
Proof.
  split; [eexists _, _; split; [reflexivity | vm_compute; reflexivity]|].
  split; [vm_compute; reflexivity|]. split; [vm_compute; reflexivity|].
  split; [eexists _, _; split; [reflexivity | vm_compute; reflexivity]|].
  repeat split; vm_compute; reflexivity.
Qed.

End ClaimsRoundTrip.

Section ClaimsScrollLock.

Import ConvertToModal.

(** C10.  The first substitution of convert-to-modal.py puts the scroll
    lock behind the first occurrence of the text [pattern] stands for,
    which ends in [inventory];].  It changes a buffer only if the buffer
    contains that text; a buffer without it, such as one whose line reads
    [inventory]);], is left as it is, and the script then is its three
    later substitutions, none of which brings in the scroll lock. *)
Theorem scroll_lock_needs_the_unclosed_line (content : string) :
  first_sub content = Some (insert_after_first pattern_text scroll_lock_effect content) /\
  (forall c, first_sub content = Some c -> c <> content -> str_in pattern_text content = true) /\
  (str_in pattern_text content = false ->
   first_sub content = Some content /\
   patch content =
     (c2 ← Re.sub old_form new_form content 0 true;
      c3 ← Re.sub old_form_tag new_form_tag c2 0 false;
      Re.sub old_buttons new_buttons c3 0 true)) /\
  (str_in pattern_text content = true -> first_sub content <> Some content) /\
  str_in pattern_text page_line = false /\
  str_in scroll_lock_effect new_form = false /\
  str_in scroll_lock_effect new_form_tag = false /\
  str_in scroll_lock_effect new_buttons = false.
Proof.
  assert (Habsent : str_in pattern_text content = false -> first_sub content = Some content).
  { intros Hno. destruct pattern_literal as (p & Hc & Hl).
    destruct (first_sub_defined content) as [c Hsub]. rewrite Hsub. f_equal.
    exact (sub_absent _ _ _ _ _ _ _ Hc Hl Hno c Hsub). }
  split; [apply first_sub_exact|]. split; [|split; [|split]].
  - intros c Hc Hne. destruct (str_in pattern_text content) eqn:E; [reflexivity|].
    rewrite (Habsent eq_refl) in Hc. congruence.
  - intros Hno. split; [now apply Habsent|].
    unfold patch. fold (first_sub content). now rewrite (Habsent Hno).
  - intros Hin Heq. rewrite first_sub_exact in Heq. injection Heq as Heq.
    apply (f_equal String.length) in Heq.
    rewrite insert_after_first_length, Hin in Heq by discriminate.
    cbn in Heq. lia.
  - repeat split; vm_compute; reflexivity.
Qed.

Lemma scroll_lock_needs_the_unclosed_line_witness :
  str_in pattern_text (page_line +:+ nl) = false /\
  first_sub (page_line +:+ nl) = Some (page_line +:+ nl) /\
  str_in pattern_text (pattern_text +:+ nl) = true /\
  first_sub (pattern_text +:+ nl) <> Some (pattern_text +:+ nl).
Proof.
  assert (H1 : str_in pattern_text (page_line +:+ nl) = false) by (vm_compute; reflexivity).
  assert (H2 : str_in pattern_text (pattern_text +:+ nl) = true) by (vm_compute; reflexivity).
  split; [exact H1|]. split.
  - destruct (scroll_lock_needs_the_unclosed_line (page_line +:+ nl)) as (_ & _ & H & _).
    exact (proj1 (H H1)).
  - split; [exact H2|].
    destruct (scroll_lock_needs_the_unclosed_line (pattern_text +:+ nl)) as (_ & _ & _ & H & _).
    exact (H H2).
Defined.

End ClaimsScrollLock.

(** * Further properties of the scripts *)

(** ** remove-inline-edit.py: the located region and what is removed *)

Section EditRegion.

Import RemoveInlineEdit.

(** The scan loop, entered at line [k] with no end yet.  When it ends with
    an end, the end is a line [k + n] of the buffer on which the count is
    below zero; the start is either the one the loop was entered with, the
    loop having been entered inside the section and no line up to the end
    having the anchor, or an anchor line [k + m] before the end after which
    no line up to the end has the anchor. *)
Lemma scan_loop (anch : string) (lines : list string) :
  forall (k : Z) (st : scan) (b : Z),
    edit_end st = None ->
    edit_end (for_each (scan_body anch) st (enumerate_from k lines)) = Some b ->
    exists n : nat,
      b = (k + Z.of_nat n)%Z /\ n < length lines /\
      (brace_count (for_each (scan_body anch) st (enumerate_from k lines)) < 0)%Z /\
      ((edit_start (for_each (scan_body anch) st (enumerate_from k lines)) = edit_start st /\
        in_edit_section st = true /\
        forall (j : nat) (l : string), j <= n -> lines !! j = Some l -> str_in anch l = false)
       \/
       (exists (m : nat) (la : string),
          edit_start (for_each (scan_body anch) st (enumerate_from k lines))
            = Some (k + Z.of_nat m)%Z /\
          m < n /\ lines !! m = Some la /\ str_in anch la = true /\
          forall (j : nat) (l : string), m < j <= n -> lines !! j = Some l ->
                                         str_in anch l = false)).
Proof.
  induction lines as [|line rest IH]; intros k st b Hnone; cbn [enumerate_from for_each].
  - rewrite Hnone. discriminate.
  - (* what the rest of the scan gives, shifted by the line just read *)
    assert (Hshift : forall st1 : scan,
      edit_end st1 = None ->
      (in_edit_section st1 = true ->
       (edit_start st1 = edit_start st /\ in_edit_section st = true /\ str_in anch line = false)
       \/ (edit_start st1 = Some k /\ str_in anch line = true)) ->
      edit_end (for_each (scan_body anch) st1 (enumerate_from (k + 1) rest)) = Some b ->
      exists n : nat,
        b = (k + Z.of_nat n)%Z /\ n < length (line :: rest) /\
        (brace_count (for_each (scan_body anch) st1 (enumerate_from (k + 1) rest)) < 0)%Z /\
        ((edit_start (for_each (scan_body anch) st1 (enumerate_from (k + 1) rest)) = edit_start st /\
          in_edit_section st = true /\
          forall (j : nat) (l : string),
            j <= n -> (line :: rest) !! j = Some l -> str_in anch l = false)
         \/
         (exists (m : nat) (la : string),
            edit_start (for_each (scan_body anch) st1 (enumerate_from (k + 1) rest))
              = Some (k + Z.of_nat m)%Z /\
            m < n /\ (line :: rest) !! m = Some la /\ str_in anch la = true /\
            forall (j : nat) (l : string), m < j <= n -> (line :: rest) !! j = Some l ->
                                           str_in anch l = false))).
    { intros st1 Hn1 Hin H.
      destruct (IH (k + 1)%Z st1 b Hn1 H) as (n & -> & Hlen & Hneg & Hcase).
      exists (S n). repeat split; [lia | cbn; lia | assumption |].
      destruct Hcase as [(Hs & Hi & Hno) | (m & la & Hs & Hm & Hla & Hma & Hno)].
      - destruct (Hin Hi) as [(Hs1 & Hi0 & Hl) | (Hs1 & Hl)].
        + left. repeat split; [congruence | assumption |].
          intros [|j] l Hj Hjl; cbn in Hjl; [congruence | apply (Hno j); [lia | assumption]].
        + right. exists 0, line. repeat split; [rewrite Hs, Hs1; f_equal; lia | lia | assumption |].
          intros [|j] l Hj Hjl; [lia|]. cbn in Hjl. apply (Hno j); [lia | assumption].
      - right. exists (S m), la. repeat split; [rewrite Hs; f_equal; lia | lia | assumption | assumption |].
        intros [|j] l Hj Hjl; [lia|]. cbn in Hjl. apply (Hno j); [lia | assumption]. }
    unfold scan_body at 1 3 5 7.
    destruct (str_in anch line) eqn:Ea.
    + apply Hshift; [exact Hnone|]. intros _. right. now split.
    + destruct (in_edit_section st) eqn:Ein.
      * set (bc := (brace_count st + (str_count "{" line - str_count "}" line))%Z).
        destruct (str_in else_mark line && (bc =? 0)%Z).
        -- apply Hshift; [exact Hnone|]. cbn. discriminate.
        -- cbn [andb]. destruct (Z.ltb_spec bc 0) as [Hlt|Hge].
           ++ cbn. intros [= <-]. exists 0. repeat split; [lia | cbn; lia | assumption |].
              left. repeat split. intros [|j] l Hj Hjl; [|lia]. cbn in Hjl. congruence.
           ++ apply Hshift; [exact Hnone|]. intros _. left. now repeat split.
      * apply Hshift; [exact Hnone|]. intros Hi. congruence.
Qed.

(** The first marked line of [range(a, b + 1)]. *)
Lemma find_regular_view_from (lines : list string) (a : Z) (n : nat) :
  forall s : nat,
    match for_each
            (fun (found : option Z) (i : Z) =>
               if str_in regular_view (list_get lines i) then (Some i, true) else (found, false))
            None (map (fun k => (a + Z.of_nat k)%Z) (seq s n)) with
    | Some r =>
        (a + Z.of_nat s <= r < a + Z.of_nat s + Z.of_nat n)%Z /\
        str_in regular_view (list_get lines r) = true /\
        forall i : Z, (a + Z.of_nat s <= i < r)%Z -> str_in regular_view (list_get lines i) = false
    | None =>
        forall i : Z, (a + Z.of_nat s <= i < a + Z.of_nat s + Z.of_nat n)%Z ->
                      str_in regular_view (list_get lines i) = false
    end.
Proof.
  induction n as [|n IH]; intros s; cbn [seq map for_each].
  - intros i Hi. lia.
  - destruct (str_in regular_view (list_get lines (a + Z.of_nat s))) eqn:E.
    + repeat split; [lia | lia | assumption | intros i Hi; lia].
    + specialize (IH (S s)).
      destruct (for_each _ None (map _ (seq (S s) n))) as [r|].
      * destruct IH as (Hr & Hin & Hbefore). repeat split; [lia | lia | assumption |].
        intros i Hi. destruct (Z.eq_dec i (a + Z.of_nat s)%Z) as [->|Hne]; [assumption|].
        apply Hbefore. lia.
      * intros i Hi. destruct (Z.eq_dec i (a + Z.of_nat s)%Z) as [->|Hne]; [assumption|].
        apply IH. lia.
Qed.

Lemma find_regular_view_spec (lines : list string) (a b : Z) :
  match find_regular_view lines a b with
  | Some r =>
      (a <= r <= b)%Z /\ str_in regular_view (list_get lines r) = true /\
      forall i : Z, (a <= i < r)%Z -> str_in regular_view (list_get lines i) = false
  | None =>
      forall i : Z, (a <= i <= b)%Z -> str_in regular_view (list_get lines i) = false
  end.
Proof.
  unfold find_regular_view, range.
  pose proof (find_regular_view_from lines a (Z.to_nat (b + 1 - a)) 0) as H.
  destruct (for_each _ None _) as [r|].
  - destruct H as (Hr & Hin & Hbefore). repeat split; [lia | lia | assumption |].
    intros i Hi. apply Hbefore. lia.
  - intros i Hi. apply H. lia.
Qed.

End EditRegion.

Section EditRemoval.

Import RemoveInlineEdit.

(** X1.  When the scan of remove-inline-edit.py ends with both bounds,
    they are lines of the buffer with the start before the end; the start
    line has the anchor, no line after it up to the end has it, and the
    brace count is below zero. *)
Theorem edit_region_is_well_formed (anch : string) (lines : list string) (a b : Z) :
  edit_start (locate anch lines) = Some a ->
  edit_end (locate anch lines) = Some b ->
  (0 <= a < b)%Z /\ (b < Z.of_nat (length lines))%Z /\
  (brace_count (locate anch lines) < 0)%Z /\
  (exists la, lines !! Z.to_nat a = Some la /\ str_in anch la = true) /\
  (forall (j : nat) (l : string),
     Z.to_nat a < j <= Z.to_nat b -> lines !! j = Some l -> str_in anch l = false).
Proof.
  unfold locate, enumerate. intros Ha Hb.
  destruct (scan_loop anch lines 0 scan0 b eq_refl Hb) as (n & -> & Hlen & Hneg & Hcase).
  destruct Hcase as [(_ & Hin & _) | (m & la & Hs & Hm & Hla & Hma & Hno)]; [discriminate|].
  rewrite Hs in Ha. injection Ha as <-.
  replace (Z.to_nat (0 + Z.of_nat m)) with m by lia.
  replace (Z.to_nat (0 + Z.of_nat n)) with n by lia.
  repeat split; try lia; try assumption. now exists la.
Qed.

Lemma edit_region_is_well_formed_witness :
  edit_start (locate anchor edit_card) = Some 1%Z /\
  edit_end (locate anchor edit_card) = Some 8%Z /\
  (8 < Z.of_nat (length edit_card))%Z /\
  (brace_count (locate anchor edit_card) < 0)%Z.
Proof.
  assert (Ha : edit_start (locate anchor edit_card) = Some 1%Z) by (vm_compute; reflexivity).
  assert (Hb : edit_end (locate anchor edit_card) = Some 8%Z) by (vm_compute; reflexivity).
  split; [exact Ha|]. split; [exact Hb|].
  destruct (edit_region_is_well_formed anchor edit_card 1 8 Ha Hb) as (_ & Hlen & Hneg & _).
  split; assumption.
Defined.

(** The bounds of a located region, for the slices. *)
Lemma edit_bounds (lines : list string) (a b : Z) :
  edit_start (locate anchor lines) = Some a ->
  edit_end (locate anchor lines) = Some b ->
  (0 <= a < b)%Z /\ (b < Z.of_nat (length lines))%Z.
Proof.
  unfold locate, enumerate. intros Ha Hb.
  destruct (scan_loop anchor lines 0 scan0 b eq_refl Hb) as (n & -> & Hlen & _ & Hcase).
  destruct Hcase as [(_ & Hin & _) | (m & la & Hs & Hm & _)]; [discriminate|].
  rewrite Hs in Ha. injection Ha as <-. lia.
Qed.

Lemma remove_edit_form_located (lines : list string) (a b r : Z) :
  edit_start (locate anchor lines) = Some a ->
  edit_end (locate anchor lines) = Some b ->
  a <> 0%Z -> find_regular_view lines a b = Some r ->
  remove_edit_form lines = slice_del lines a (r - 2).
Proof.
  intros Ha Hb Hne Hr. unfold remove_edit_form. rewrite Ha, Hb, Hr. cbn [truthy].
  destruct (edit_bounds lines a b Ha Hb) as (Hab & _).
  pose proof (find_regular_view_spec lines a b) as Hspec. rewrite Hr in Hspec.
  destruct Hspec as (Hrange & _).
  destruct (Z.eqb_spec a 0) as [|_]; [contradiction|].
  destruct (Z.eqb_spec b 0) as [|_]; [lia|].
  destruct (Z.eqb_spec r 0) as [|_]; [lia | reflexivity].
Qed.

(** X2.  When the region is located below line 0 and the regular view is
    marked on line [r] of it, [r] being the first such line from the start
    on and at least 2, remove-inline-edit.py deletes the lines from the
    start up to, not including, line [r - 2]: the lines before the start
    are kept, and so are the two lines just before the regular view, the
    regular view and everything after it.  With the regular view on the
    start line or within two lines of it nothing is deleted. *)
Theorem edit_form_removal_keeps_the_rest (lines : list string) (a b r : Z) :
  edit_start (locate anchor lines) = Some a ->
  edit_end (locate anchor lines) = Some b ->
  a <> 0%Z -> find_regular_view lines a b = Some r -> (2 <= r)%Z ->
  (a <= r <= b)%Z /\
  str_in regular_view (list_get lines r) = true /\
  (forall i : Z, (a <= i < r)%Z -> str_in regular_view (list_get lines i) = false) /\
  remove_edit_form lines =
    take (Z.to_nat a) lines ++ drop (Z.to_nat (Z.max a (r - 2))) lines /\
  (r <= a + 2 -> remove_edit_form lines = lines)%Z.
Proof.
  intros Ha Hb Hne Hr Hr2.
  destruct (edit_bounds lines a b Ha Hb) as (Hab & Hlen).
  pose proof (find_regular_view_spec lines a b) as Hspec. rewrite Hr in Hspec.
  destruct Hspec as (Hrange & Hin & Hbefore).
  assert (Hshape : remove_edit_form lines =
                   take (Z.to_nat a) lines ++ drop (Z.to_nat (Z.max a (r - 2))) lines).
  { rewrite (remove_edit_form_located lines a b r Ha Hb Hne Hr).
    unfold slice_del, slice_assign. rewrite !slice_bound_in_range by lia.
    cbn [app]. f_equal. f_equal. lia. }
  repeat split; try assumption; try lia.
  intros Hnear. rewrite Hshape. replace (Z.max a (r - 2)) with a by lia.
  apply take_drop.
Qed.

Lemma edit_form_removal_keeps_the_rest_witness :
  edit_start (locate anchor edit_card) = Some 1%Z /\
  edit_end (locate anchor edit_card) = Some 8%Z /\
  find_regular_view edit_card 1 8 = Some 5%Z /\
  remove_edit_form edit_card = take 1 edit_card ++ drop 3 edit_card.
Proof.
  assert (Ha : edit_start (locate anchor edit_card) = Some 1%Z) by (vm_compute; reflexivity).
  assert (Hb : edit_end (locate anchor edit_card) = Some 8%Z) by (vm_compute; reflexivity).
  assert (Hr : find_regular_view edit_card 1 8 = Some 5%Z) by (vm_compute; reflexivity).
  split; [exact Ha|]. split; [exact Hb|]. split; [exact Hr|].
  destruct (edit_form_removal_keeps_the_rest edit_card 1 8 5 Ha Hb) as (_ & _ & _ & H & _);
    [discriminate | exact Hr | lia | exact H].
Defined.

(** X3.  When the start is line 1 and the anchor line itself has the mark
    of the regular view, the end of the deletion is [1 - 2 = -1], which a
    slice counts from the end of the list: every line from line 1 up to,
    not including, the last line is deleted, and the buffer is left with
    its first and its last line. *)
Theorem regular_view_on_the_anchor_line_wraps_around (lines : list string) (b : Z) :
  edit_start (locate anchor lines) = Some 1%Z ->
  edit_end (locate anchor lines) = Some b ->
  str_in regular_view (list_get lines 1) = true ->
  remove_edit_form lines = take 1 lines ++ drop (length lines - 1) lines /\
  length (remove_edit_form lines) = 2.
Proof.
  intros Ha Hb Hin.
  destruct (edit_bounds lines 1 b Ha Hb) as (Hab & Hlen).
  assert (Hr : find_regular_view lines 1 b = Some 1%Z).
  { pose proof (find_regular_view_spec lines 1 b) as Hspec.
    destruct (find_regular_view lines 1 b) as [r|].
    - destruct Hspec as (Hrange & _ & Hbefore). f_equal.
      destruct (Z.eq_dec r 1%Z) as [|Hne]; [assumption|].
      rewrite (Hbefore 1%Z) in Hin; [discriminate | lia].
    - rewrite (Hspec 1%Z) in Hin; [discriminate | lia]. }
  assert (Hshape : remove_edit_form lines = take 1 lines ++ drop (length lines - 1) lines).
  { rewrite (remove_edit_form_located lines 1 b 1 Ha Hb); [|discriminate | exact Hr].
    assert (Hwrap : slice_bound (length lines) (1 - 2) = length lines - 1).
    { unfold slice_bound. change (1 - 2 <? 0)%Z with true. cbn iota. lia. }
    unfold slice_del, slice_assign. rewrite Hwrap, slice_bound_in_range by lia.
    cbn [app]. f_equal. f_equal. lia. }
  split; [exact Hshape|]. rewrite Hshape, length_app, length_take, length_drop. lia.
Qed.

Lemma regular_view_on_the_anchor_line_wraps_around_witness :
  edit_start (locate anchor edit_one_liner) = Some 1%Z /\
  edit_end (locate anchor edit_one_liner) = Some 5%Z /\
  remove_edit_form edit_one_liner = ["<ul>" +:+ nl; "}" +:+ nl].
Proof.
  assert (Ha : edit_start (locate anchor edit_one_liner) = Some 1%Z) by (vm_compute; reflexivity).
  assert (Hb : edit_end (locate anchor edit_one_liner) = Some 5%Z) by (vm_compute; reflexivity).
  split; [exact Ha|]. split; [exact Hb|].
  destruct (regular_view_on_the_anchor_line_wraps_around edit_one_liner 5 Ha Hb) as (H & _);
    [vm_compute; reflexivity|].
  rewrite H. vm_compute. reflexivity.
Defined.

End EditRemoval.

(** ** convert-modals.py: the steps one by one *)

Section PageSteps.

Import ConvertModals.

Lemma take_update_imports (lo ln : string) (lines : list string) :
  take 10 (map (import_rule lo ln) (take 10 lines) ++ drop 10 lines)
  = map (import_rule lo ln) (take 10 lines) /\
  drop 10 (map (import_rule lo ln) (take 10 lines) ++ drop 10 lines) = drop 10 lines.
Proof.
  destruct (le_lt_dec 10 (length lines)) as [Hlen|Hlen].
  - assert (Hl : length (map (import_rule lo ln) (take 10 lines)) = 10)
      by (rewrite length_map, length_take; lia).
    split.
    + rewrite take_app_le by lia. apply take_ge. lia.
    + rewrite drop_app_ge by lia. rewrite Hl. reflexivity.
  - rewrite (drop_ge lines 10) by lia. rewrite app_nil_r. split.
    + apply take_ge. rewrite length_map, length_take. lia.
    + apply drop_ge. rewrite length_map, length_take. lia.
Qed.

(** X4.  Step 1 of a page function keeps the number of lines and rewrites
    a line only among the first ten: a line from index 10 on is kept as it
    is even when it has an import text, and each of the first ten lines
    becomes what the first rule that matches it says, the react rule
    before the motion rule before the lucide rule. *)
Theorem update_imports_touches_the_first_ten (lo ln : string) (lines : list string) :
  length (update_imports lo ln lines) = length lines /\
  (forall j : nat, 10 <= j -> update_imports lo ln lines !! j = lines !! j) /\
  (forall (j : nat) (l : string),
     j < 10 -> lines !! j = Some l ->
     update_imports lo ln lines !! j =
     Some (if str_in react_old l then react_new
           else if str_in motion_old l then motion_new
           else if str_in lo l then ln
           else l)).
Proof.
  rewrite update_imports_map. repeat split.
  - rewrite length_app, length_map, length_take, length_drop. lia.
  - intros j Hj. destruct (le_lt_dec 10 (length lines)) as [Hlen|Hlen].
    + rewrite lookup_app_r by (rewrite length_map, length_take; lia).
      rewrite length_map, length_take, lookup_drop. f_equal. lia.
    + rewrite (drop_ge lines 10) by lia. rewrite app_nil_r.
      rewrite !lookup_ge_None_2; [reflexivity | lia | rewrite length_map, length_take; lia].
  - intros j l Hj Hl. pose proof (lookup_lt_Some _ _ _ Hl) as Hlt.
    rewrite lookup_app_l by (rewrite length_map, length_take; lia).
    rewrite list_lookup_fmap, lookup_take_lt by lia. rewrite Hl. reflexivity.
Qed.

Lemma update_imports_touches_the_first_ten_witness :
  imports_page !! 0 = Some (react_old +:+ nl) /\
  update_imports lucide_inventory_old lucide_inventory_new imports_page !! 0 = Some react_new /\
  update_imports lucide_inventory_old lucide_inventory_new imports_page !! 10
  = Some (react_old +:+ nl).
Proof.
  destruct (update_imports_touches_the_first_ten lucide_inventory_old lucide_inventory_new
              imports_page) as (_ & Hrest & Hfirst).
  split; [reflexivity|]. split.
  - rewrite (Hfirst 0 (react_old +:+ nl)); [vm_compute; reflexivity | lia | reflexivity].
  - rewrite (Hrest 10); [reflexivity | lia].
Defined.

Lemma import_rule_twice (lo ln l : string) :
  str_in lo react_new = false -> str_in lo motion_new = false ->
  str_in react_old ln = false -> str_in motion_old ln = false -> str_in lo ln = false ->
  import_rule lo ln (import_rule lo ln l) = import_rule lo ln l.
Proof.
  intros H1 H2 H3 H4 H5.
  assert (Rr : str_in react_old react_new = false) by (vm_compute; reflexivity).
  assert (Rm : str_in motion_old react_new = false) by (vm_compute; reflexivity).
  assert (Mr : str_in react_old motion_new = false) by (vm_compute; reflexivity).
  assert (Mm : str_in motion_old motion_new = false) by (vm_compute; reflexivity).
  destruct (str_in react_old l) eqn:E1.
  { assert (Hl : import_rule lo ln l = react_new) by (unfold import_rule; now rewrite E1).
    rewrite Hl. unfold import_rule. rewrite Rr, Rm, H1. reflexivity. }
  destruct (str_in motion_old l) eqn:E2.
  { assert (Hl : import_rule lo ln l = motion_new) by (unfold import_rule; now rewrite E1, E2).
    rewrite Hl. unfold import_rule. rewrite Mr, Mm, H2. reflexivity. }
  destruct (str_in lo l) eqn:E3.
  { assert (Hl : import_rule lo ln l = ln) by (unfold import_rule; now rewrite E1, E2, E3).
    rewrite Hl. unfold import_rule. rewrite H3, H4, H5. reflexivity. }
  assert (Hl : import_rule lo ln l = l) by (unfold import_rule; now rewrite E1, E2, E3).
  rewrite !Hl. reflexivity.
Qed.

Lemma update_imports_twice (lo ln : string) (lines : list string) :
  str_in lo react_new = false -> str_in lo motion_new = false ->
  str_in react_old ln = false -> str_in motion_old ln = false -> str_in lo ln = false ->
  update_imports lo ln (update_imports lo ln lines) = update_imports lo ln lines.
Proof.
  intros H1 H2 H3 H4 H5. rewrite !update_imports_map.
  destruct (take_update_imports lo ln lines) as [-> ->].
  f_equal. rewrite <- list_fmap_compose. apply list_fmap_ext.
  intros _ l _. cbn. now apply import_rule_twice.
Qed.

(** X5.  Step 1 is safe to run again: for both pages, running it on its
    own result changes nothing. *)
Theorem update_imports_is_idempotent (lines : list string) :
  update_imports lucide_inventory_old lucide_inventory_new
    (update_imports lucide_inventory_old lucide_inventory_new lines)
  = update_imports lucide_inventory_old lucide_inventory_new lines /\
  update_imports lucide_customers_old lucide_customers_new
    (update_imports lucide_customers_old lucide_customers_new lines)
  = update_imports lucide_customers_old lucide_customers_new lines.
Proof. split; apply update_imports_twice; vm_compute; reflexivity. Qed.

Lemma first_line_cut (sub : string) (lines : list string) (i : Z) :
  first_line sub lines = Some i ->
  exists (pre : list string) (line : string) (post : list string),
    lines = pre ++ line :: post /\
    Forall (fun l => str_in sub l = false) pre /\ str_in sub line = true /\
    take (Z.to_nat i) lines = pre /\ drop (Z.to_nat i) lines = line :: post /\
    take (S (Z.to_nat i)) lines = pre ++ [line] /\ drop (S (Z.to_nat i)) lines = post.
Proof.
  unfold first_line. intros H.
  destruct (first_line_from_Some _ _ _ _ H) as (pre & line & post & -> & -> & Hpre & Hl).
  exists pre, line, post. rewrite Z.add_0_l, Nat2Z.id.
  repeat split; try assumption.
  - apply take_app_length.
  - apply drop_app_length.
  - replace (pre ++ line :: post) with ((pre ++ [line]) ++ post) by now rewrite <- app_assoc.
    replace (S (length pre)) with (length (pre ++ [line])) by (rewrite length_app; cbn; lia).
    apply take_app_length.
  - replace (pre ++ line :: post) with ((pre ++ [line]) ++ post) by now rewrite <- app_assoc.
    replace (S (length pre)) with (length (pre ++ [line])) by (rewrite length_app; cbn; lia).
    apply drop_app_length.
Qed.

(** X6.  Steps 2 and 3 put one element into the list at the first anchor
    line, [modalRef] in front of it and the scroll lock behind it, and keep
    every line in its order.  A second run finds the same anchor line and
    inserts again: the page then has the inserted text twice. *)
Theorem insertions_repeat (deps : string) (lines : list string) :
  (forall i : Z,
     first_line supabase_line lines = Some i ->
     add_modal_ref lines =
       take (Z.to_nat i) lines ++ modal_ref :: drop (Z.to_nat i) lines /\
     add_modal_ref (add_modal_ref lines) =
       take (Z.to_nat i) lines ++ modal_ref :: modal_ref :: drop (Z.to_nat i) lines) /\
  (forall j : Z,
     first_line deps lines = Some j ->
     add_scroll_lock deps lines =
       take (S (Z.to_nat j)) lines ++ scroll_lock_effect :: drop (S (Z.to_nat j)) lines /\
     add_scroll_lock deps (add_scroll_lock deps lines) =
       take (S (Z.to_nat j)) lines
       ++ scroll_lock_effect :: scroll_lock_effect :: drop (S (Z.to_nat j)) lines).
Proof.
  split.
  - intros i Hi.
    destruct (first_line_cut _ _ _ Hi) as (pre & line & post & Hcut & Hpre & Hl & -> & -> & _).
    rewrite Hcut, (add_modal_ref_at pre post line Hpre Hl). split; [reflexivity|].
    replace (pre ++ modal_ref :: line :: post) with ((pre ++ [modal_ref]) ++ line :: post)
      by now rewrite <- app_assoc.
    rewrite add_modal_ref_at; [now rewrite <- app_assoc | | assumption].
    apply Forall_app. split; [assumption|]. repeat constructor.
  - intros j Hj.
    destruct (first_line_cut _ _ _ Hj) as (pre & line & post & Hcut & Hpre & Hl & _ & _ & -> & ->).
    rewrite <- !app_assoc. cbn [app].
    rewrite Hcut, (add_scroll_lock_at deps pre post line Hpre Hl). split; [reflexivity|].
    now rewrite add_scroll_lock_at.
Qed.

Lemma insertions_repeat_witness :
  first_line supabase_line anchors_page = Some 3%Z /\
  first_line deps_inventory anchors_page = Some 1%Z /\
  length (add_modal_ref (add_modal_ref anchors_page)) = 7 /\
  length (add_scroll_lock deps_inventory (add_scroll_lock deps_inventory anchors_page)) = 7.
Proof.
  assert (H1 : first_line supabase_line anchors_page = Some 3%Z) by (vm_compute; reflexivity).
  assert (H2 : first_line deps_inventory anchors_page = Some 1%Z) by (vm_compute; reflexivity).
  split; [exact H1|]. split; [exact H2|].
  destruct (insertions_repeat deps_inventory anchors_page) as (Hm & Hs).
  destruct (Hm _ H1) as (_ & ->). destruct (Hs _ H2) as (_ & ->).
  split; reflexivity.
Defined.

End PageSteps.

Section PageStepsTogether.

Import ConvertModals.

Ltac reassoc := rewrite <- ?app_assoc; cbn [app]; rewrite <- ?app_assoc; reflexivity.

(** A buffer either has no line with [sub] or is cut at the first one. *)
Lemma first_line_cases (sub : string) (lines : list string) :
  Forall (fun l => str_in sub l = false) lines \/
  exists (pre : list string) (line : string) (post : list string),
    lines = pre ++ line :: post /\
    Forall (fun l => str_in sub l = false) pre /\ str_in sub line = true.
Proof.
  destruct (first_line_from 0 sub lines) as [i|] eqn:E.
  - right. destruct (first_line_from_Some _ _ _ _ E) as (pre & line & post & -> & _ & Hpre & Hl).
    now exists pre, line, post.
  - left. now apply (first_line_from_None 0).
Qed.

Lemma Forall_cut {A : Type} (P : A -> Prop) (pre post : list A) (x : A) :
  Forall P (pre ++ x :: post) <-> Forall P pre /\ P x /\ Forall P post.
Proof. rewrite Forall_app, Forall_cons. reflexivity. Qed.

(** X7.  Steps 2 and 3 of a page function can be done in either order:
    neither inserted text has the other step's anchor, so each step finds
    its anchor line whether or not the other has run, and the two orders
    give the same buffer. *)
Theorem insertions_commute (deps : string) (lines : list string) :
  str_in deps modal_ref = false ->
  add_scroll_lock deps (add_modal_ref lines) = add_modal_ref (add_scroll_lock deps lines).
Proof.
  intros Hd.
  assert (Hs : str_in supabase_line scroll_lock_effect = false) by (vm_compute; reflexivity).
  destruct (first_line_cases supabase_line lines)
    as [HnoS | (A & x & C & -> & HA & Hx)].
  - (* no anchor of step 2 *)
    rewrite (add_modal_ref_none lines HnoS). symmetry. apply add_modal_ref_none.
    destruct (first_line_cases deps lines) as [HnoD | (P & y & Q & -> & HP & Hy)].
    + now rewrite add_scroll_lock_none.
    + rewrite (add_scroll_lock_at deps P Q y HP Hy).
      apply Forall_cut in HnoS as (H1 & H2 & H3). apply Forall_cut. repeat split; try assumption.
      now constructor.
  - rewrite (add_modal_ref_at A C x HA Hx).
    destruct (first_line_cases deps A) as [HAD | (A1 & y & A2 & -> & HA1 & Hy)].
    + destruct (str_in deps x) eqn:Exd.
      * (* both anchors on one line *)
        rewrite (add_scroll_lock_at deps A C x HAD Exd).
        rewrite (add_modal_ref_at A (scroll_lock_effect :: C) x HA Hx).
        replace (A ++ modal_ref :: x :: C) with ((A ++ [modal_ref]) ++ x :: C) by reassoc.
        rewrite add_scroll_lock_at; [reassoc | | assumption].
        apply Forall_app. split; [assumption | now repeat constructor].
      * destruct (first_line_cases deps C) as [HCD | (C1 & y & C2 & -> & HC1 & Hy)].
        -- (* no anchor of step 3 *)
           rewrite (add_scroll_lock_none deps (A ++ x :: C)).
           ++ rewrite (add_modal_ref_at A C x HA Hx). apply add_scroll_lock_none.
              apply Forall_cut. split; [assumption|]. split; [assumption|].
              now constructor.
           ++ apply Forall_cut. now repeat split.
        -- (* the anchor of step 2 above the anchor of step 3 *)
           replace (A ++ x :: C1 ++ y :: C2) with ((A ++ x :: C1) ++ y :: C2) by reassoc.
           rewrite (add_scroll_lock_at deps (A ++ x :: C1) C2 y);
             [| apply Forall_cut; now repeat split | assumption].
           replace ((A ++ x :: C1) ++ y :: scroll_lock_effect :: C2)
             with (A ++ x :: (C1 ++ y :: scroll_lock_effect :: C2)) by reassoc.
           rewrite (add_modal_ref_at A _ x HA Hx).
           replace (A ++ modal_ref :: x :: C1 ++ y :: C2)
             with ((A ++ modal_ref :: x :: C1) ++ y :: C2) by reassoc.
           rewrite add_scroll_lock_at; [reassoc | | assumption].
           apply Forall_cut. split; [assumption|]. split; [assumption|].
           now constructor.
    + (* the anchor of step 3 above the anchor of step 2 *)
      apply Forall_cut in HA as (HA1S & HyS & HA2S).
      replace ((A1 ++ y :: A2) ++ modal_ref :: x :: C)
        with (A1 ++ y :: (A2 ++ modal_ref :: x :: C)) by reassoc.
      rewrite (add_scroll_lock_at deps A1 _ y HA1 Hy).
      replace ((A1 ++ y :: A2) ++ x :: C) with (A1 ++ y :: (A2 ++ x :: C)) by reassoc.
      rewrite (add_scroll_lock_at deps A1 _ y HA1 Hy).
      replace (A1 ++ y :: scroll_lock_effect :: A2 ++ x :: C)
        with ((A1 ++ y :: scroll_lock_effect :: A2) ++ x :: C) by reassoc.
      rewrite add_modal_ref_at; [reassoc | | assumption].
      apply Forall_cut. split; [assumption|]. split; [assumption|].
      now constructor.
Qed.

Lemma insertions_commute_witness :
  str_in deps_inventory modal_ref = false /\
  add_scroll_lock deps_inventory (add_modal_ref anchors_page)
  = add_modal_ref (add_scroll_lock deps_inventory anchors_page) /\
  length (add_scroll_lock deps_inventory (add_modal_ref anchors_page)) = 7.
Proof.
  assert (Hd : str_in deps_inventory modal_ref = false) by (vm_compute; reflexivity).
  split; [exact Hd|]. split; [exact (insertions_commute deps_inventory anchors_page Hd)|].
  vm_compute. reflexivity.
Defined.

(** Before the end that the form locator returns, no closing line stands
    more than ten lines below the start it returns. *)
Lemma form_loop_first_close (lines : list string) :
  forall (k : Z) (st0 : option Z) (a b : Z),
    for_each form_body (st0, None) (enumerate_from k lines) = (Some a, Some b) ->
    forall (j : nat) (l : string),
      (k + Z.of_nat j + 1 < b)%Z -> lines !! j = Some l -> str_in form_close l = true ->
      (k + Z.of_nat j <= a + 10)%Z.
Proof.
  induction lines as [|line rest IH]; intros k st0 a b; cbn [enumerate_from for_each].
  - intros [= ].
  - assert (Hrest : forall st1 : option Z,
      for_each form_body (st1, None) (enumerate_from (k + 1) rest) = (Some a, Some b) ->
      (str_in form_close line = true -> forall x, st1 = Some x -> (k <= x + 10)%Z) ->
      forall (j : nat) (l : string),
        (k + Z.of_nat j + 1 < b)%Z -> (line :: rest) !! j = Some l ->
        str_in form_close l = true -> (k + Z.of_nat j <= a + 10)%Z).
    { intros st1 H Hhere [|j] l Hj Hl Hc.
      - cbn in Hl. injection Hl as <-.
        destruct (form_loop rest (k + 1) st1 a b H) as (n & le & _ & _ & _ & _ & Hcase).
        destruct Hcase as [[Hst _] | (m & la & -> & _)]; [|lia].
        specialize (Hhere Hc a Hst). lia.
      - cbn in Hl. pose proof (IH (k + 1)%Z st1 a b H j l ltac:(lia) Hl Hc). lia. }
    unfold form_body at 1. destruct (str_in form_mark line) eqn:Em.
    + assert (Hno : (k >? k + 10)%Z = false) by lia.
      rewrite Hno, andb_false_r. intros H. apply (Hrest _ H).
      intros _ x [= <-]. lia.
    + destruct st0 as [a0|].
      * destruct (str_in form_close line && (k >? a0 + 10)%Z) eqn:Ec.
        -- intros [= <- <-] j l Hj. lia.
        -- intros H. apply (Hrest _ H). intros Hc x [= <-].
           rewrite Hc in Ec. cbn in Ec. lia.
      * intros H. apply (Hrest _ H). intros _ x [= ].
Qed.

(** X8.  The end the form locator returns is one past the first closing
    line that stands more than ten lines below the start it returns: every
    closing line before it is at most ten lines below that start. *)
Theorem form_end_is_the_first_far_close (lines : list string) (a b : Z) :
  locate_form lines = (Some a, Some b) ->
  (exists le, lines !! Z.to_nat (b - 1) = Some le /\ str_in form_close le = true /\
              (b - 1 > a + 10)%Z) /\
  (forall (j : nat) (l : string),
     (Z.of_nat j < b - 1)%Z -> lines !! j = Some l -> str_in form_close l = true ->
     (Z.of_nat j <= a + 10)%Z).
Proof.
  intros H. unfold locate_form, enumerate in H. split.
  - destruct (form_loop lines 0 None a b H) as (n & le & -> & Hle & Hc & Hgt & _).
    exists le. replace (Z.to_nat (0 + Z.of_nat n + 1 - 1)) with n by lia.
    repeat split; [assumption | assumption | lia].
  - intros j l Hj Hl Hc.
    pose proof (form_loop_first_close lines 0 None a b H j l ltac:(lia) Hl Hc) as Hfirst. lia.
Qed.

Lemma form_end_is_the_first_far_close_witness :
  locate_form twice_marked = (Some 1%Z, Some 13%Z) /\
  (exists le, twice_marked !! 12 = Some le /\ str_in form_close le = true).
Proof.
  assert (H : locate_form twice_marked = (Some 1%Z, Some 13%Z)) by (vm_compute; reflexivity).
  split; [exact H|].
  destruct (form_end_is_the_first_far_close twice_marked 1 13 H) as ((le & Hle & Hc & _) & _).
  exists le. split; assumption.
Defined.

(** X9.  A form that has no closing line more than ten lines below a form
    mark is not replaced; in particular step 4 never changes a buffer of
    fewer than twelve lines. *)
Theorem short_form_is_kept (modal_form : string) (lines : list string) :
  ((forall (i j : nat) (li lj : string),
      lines !! i = Some li -> str_in form_mark li = true ->
      lines !! j = Some lj -> str_in form_close lj = true -> j <= i + 10) ->
   replace_form modal_form lines = lines) /\
  (length lines < 12 -> replace_form modal_form lines = lines).
Proof.
  assert (Hlocated : forall a b, locate_form lines = (Some a, Some b) ->
    exists (i j : nat) (li lj : string),
      lines !! i = Some li /\ str_in form_mark li = true /\
      lines !! j = Some lj /\ str_in form_close lj = true /\ i + 10 < j).
  { intros a b H. unfold locate_form, enumerate in H.
    destruct (form_loop lines 0 None a b H) as (n & le & -> & Hle & Hc & Hgt & Hcase).
    destruct Hcase as [[Hst _] | (m & la & -> & Hm & Hla & Hma & _)]; [discriminate|].
    exists m, n, la, le. repeat split; try assumption. lia. }
  assert (Hkept : (forall a b, locate_form lines <> (Some a, Some b)) ->
                  replace_form modal_form lines = lines).
  { intros Hnot. apply replace_form_unlocated.
    destruct (locate_form lines) as [[a|] [b|]]; cbn [fst snd truthy];
      [exfalso; now apply (Hnot a b) | apply andb_false_r | reflexivity | reflexivity]. }
  split.
  - intros Hnear. apply Hkept. intros a b H.
    destruct (Hlocated a b H) as (i & j & li & lj & Hi & Hmi & Hj & Hcj & Hfar).
    specialize (Hnear i j li lj Hi Hmi Hj Hcj). lia.
  - intros Hlen. apply Hkept. intros a b H.
    destruct (Hlocated a b H) as (i & j & li & lj & Hi & Hmi & Hj & Hcj & Hfar).
    pose proof (lookup_lt_Some _ _ _ Hj). lia.
Qed.

Lemma short_form_is_kept_witness :
  length (take 11 form_below_top) < 12 /\
  replace_form modal_form_inventory (take 11 form_below_top) = take 11 form_below_top.
Proof.
  assert (Hlen : length (take 11 form_below_top) < 12) by (vm_compute; lia).
  split; [exact Hlen|].
  exact (proj2 (short_form_is_kept modal_form_inventory (take 11 form_below_top)) Hlen).
Defined.

Lemma join_app (l1 l2 : list string) : join (l1 ++ l2) = join l1 +:+ join l2.
Proof.
  unfold join. induction l1 as [|x l1 IH]; [reflexivity|].
  cbn [app foldr]. now rewrite IH, append_assoc.
Qed.

(** X10.  When the form is located with its start below line 0, step 4
    puts the modal form, as one list element, in the place of the lines
    from the start up to, not including, the end: the lines before the
    start and from the end on are kept, and the text of the page is the
    text before the form, the modal form, and the text from the end on. *)
Theorem form_replacement_keeps_the_rest (modal_form : string) (lines : list string) (a b : Z) :
  locate_form lines = (Some a, Some b) -> a <> 0%Z ->
  replace_form modal_form lines =
    take (Z.to_nat a) lines ++ modal_form :: drop (Z.to_nat b) lines /\
  join (replace_form modal_form lines) =
    join (take (Z.to_nat a) lines) +:+ modal_form +:+ join (drop (Z.to_nat b) lines) /\
  (Z.of_nat (length (replace_form modal_form lines)) = Z.of_nat (length lines) - (b - a) + 1)%Z.
Proof.
  intros Hloc Ha.
  assert (Hshape : replace_form modal_form lines =
                   take (Z.to_nat a) lines ++ modal_form :: drop (Z.to_nat b) lines /\
                   (0 <= a < b)%Z /\ (b <= Z.of_nat (length lines))%Z).
  { unfold replace_form. rewrite Hloc. cbn [truthy].
    unfold locate_form, enumerate in Hloc.
    destruct (form_loop lines 0 None a b Hloc) as (n & le & -> & Hle & _ & Hgt & Hcase).
    destruct Hcase as [[Hst _] | (m & la & -> & Hm & _)]; [discriminate|].
    pose proof (lookup_lt_Some _ _ _ Hle) as Hn.
    destruct (Z.eqb_spec (0 + Z.of_nat m) 0) as [|_]; [contradiction|].
    destruct (Z.eqb_spec (0 + Z.of_nat n + 1) 0) as [|_]; [lia|]. cbn [negb andb].
    unfold slice_assign. rewrite !slice_bound_in_range by lia.
    rewrite Nat.max_r by lia. repeat split; lia. }
  destruct Hshape as (Hshape & Hab & Hlen). split; [exact Hshape|]. rewrite Hshape. split.
  - rewrite join_app. reflexivity.
  - rewrite length_app, length_take. cbn [length]. rewrite length_drop. lia.
Qed.

Lemma form_replacement_keeps_the_rest_witness :
  locate_form form_below_top = (Some 1%Z, Some 14%Z) /\
  replace_form modal_form_inventory form_below_top =
    ["top" +:+ nl; modal_form_inventory; "tail" +:+ nl].
Proof.
  assert (H : locate_form form_below_top = (Some 1%Z, Some 14%Z)) by (vm_compute; reflexivity).
  split; [exact H|].
  destruct (form_replacement_keeps_the_rest modal_form_inventory form_below_top 1 14 H)
    as (Hshape & _); [discriminate|].
  rewrite Hshape. reflexivity.
Defined.

End PageStepsTogether.

(** ** Pages that cannot be read *)

Section Unreadable.

Import ConvertModals.

(** X11.  convert-modals.py does its two pages one after the other and
    has no way back: when the customers page is missing, the inventory
    page has been rewritten and reported already, and the run ends there
    with [FileNotFoundError], exit status 1, and without the closing
    line. *)
Theorem missing_customers_page_leaves_inventory_rewritten (w : world) (b1 : string) :
  fs w !! inventory_path = Some b1 -> utf8_valid b1 = true ->
  fs w !! customers_path = None ->
  ConvertModals.main w =
    (Raise (FileNotFoundError customers_path),
     rewritten w inventory_path
       (linesep_newlines (os_linesep w)
          (join (patch lucide_inventory_old lucide_inventory_new deps_inventory
                   modal_form_inventory (splitlines (universal_newlines b1)))))
       inventory_message) /\
  exit_status (ConvertModals.main w) = 1%Z /\
  stdout (snd (ConvertModals.main w)) = stdout w ++ [inventory_message +:+ nl] /\
  writes (snd (ConvertModals.main w)) = writes w ++ [inventory_path] /\
  fs (snd (ConvertModals.main w)) !! customers_path = None.
Proof.
  intros H1 V1 H2.
  assert (Hrun : ConvertModals.main w =
    (Raise (FileNotFoundError customers_path),
     rewritten w inventory_path
       (linesep_newlines (os_linesep w)
          (join (patch lucide_inventory_old lucide_inventory_new deps_inventory
                   modal_form_inventory (splitlines (universal_newlines b1)))))
       inventory_message)).
  { unfold ConvertModals.main, convert_inventory_page, convert_customers_page.
    unfold mbind at 1. unfold io_bind at 1.
    rewrite (convert_page_run w _ _ _ _ _ _ b1 H1 V1).
    unfold mbind at 1. unfold io_bind at 1.
    rewrite convert_page_unreadable with (e := FileNotFoundError customers_path); [reflexivity|].
    apply read_text_missing. rewrite fs_rewritten_other; [exact H2 | discriminate]. }
  rewrite Hrun. cbn [fst snd]. repeat split.
  - apply stdout_rewritten.
  - apply writes_rewritten.
  - rewrite fs_rewritten_other; [exact H2 | discriminate].
Qed.

Lemma missing_customers_page_leaves_inventory_rewritten_witness :
  fs inventory_only !! inventory_path = Some supabase_only /\
  fs inventory_only !! customers_path = None /\
  exit_status (ConvertModals.main inventory_only) = 1%Z /\
  fs (snd (ConvertModals.main inventory_only)) !! inventory_path
  = Some (modal_ref +:+ supabase_only).
Proof.
  assert (H1 : fs inventory_only !! inventory_path = Some supabase_only)
    by (vm_compute; reflexivity).
  assert (H2 : fs inventory_only !! customers_path = None) by (vm_compute; reflexivity).
  split; [exact H1|]. split; [exact H2|].
  destruct (missing_customers_page_leaves_inventory_rewritten inventory_only _ H1 eq_refl H2)
    as (Hrun & Hexit & _).
  split; [exact Hexit|]. rewrite Hrun. cbn [snd]. rewrite fs_rewritten_same.
  vm_compute. reflexivity.
Defined.

(** X12.  A script whose inventory page is missing or is not valid UTF-8
    stops at the read: it raises, the exit status is 1, and the world is
    as it was, so no file is written and nothing is printed.  For
    convert-modals.py this means that the customers page is not touched
    either. *)
Theorem unreadable_page_stops_every_script (w : world) :
  (fs w !! inventory_path = None \/
   exists bytes, fs w !! inventory_path = Some bytes /\ utf8_valid bytes = false) ->
  exists e : exn,
    RemoveInlineEdit.main w = (Raise e, w) /\
    UpdateInventoryEdit.main w = (Raise e, w) /\
    ConvertToModal.main w = (Raise e, w) /\
    ConvertModals.main w = (Raise e, w) /\
    exit_status (ConvertModals.main w) = 1%Z.
Proof.
  intros Hbad.
  assert (Hread : exists e, read_text inventory_path w = (Raise e, w)).
  { destruct Hbad as [Hnone | (bytes & Hf & Hv)].
    - eexists. now apply read_text_missing.
    - eexists. now apply (read_text_undecodable w _ bytes). }
  destruct Hread as (e & Hread). exists e.
  destruct (unreadable_stops w e Hread) as (-> & -> & ->).
  assert (Hmain : ConvertModals.main w = (Raise e, w)).
  { unfold ConvertModals.main, convert_inventory_page.
    unfold mbind at 1. unfold io_bind at 1.
    now rewrite (convert_page_unreadable _ _ _ _ _ _ w e Hread). }
  rewrite Hmain. repeat split.
Qed.

Lemma unreadable_page_stops_every_script_witness :
  (exists bytes, fs broken_page !! inventory_path = Some bytes /\ utf8_valid bytes = false) /\
  exit_status (ConvertModals.main broken_page) = 1%Z /\
  snd (RemoveInlineEdit.main broken_page) = broken_page.
Proof.
  assert (Hbad : exists bytes,
             fs broken_page !! inventory_path = Some bytes /\ utf8_valid bytes = false).
  { eexists. split; vm_compute; reflexivity. }
  split; [exact Hbad|].
  destruct (unreadable_page_stops_every_script broken_page (or_intror Hbad))
    as (e & Hr & _ & _ & _ & Hexit).
  split; [exact Hexit|]. now rewrite Hr.
Defined.

End Unreadable.

(** ** update-inventory-edit.py: the ten replacements together *)

Section Replacements.

Lemma replace_from_absent (old new : string) (s : string) :
  str_in old s = false -> replace_from 0 old new s = s.
Proof.
  induction s as [|c s IH]; intros Hs; [reflexivity|].
  apply str_in_cons_false in Hs as [Hp Hs]. cbn [replace_from].
  rewrite Hp. now rewrite IH.
Qed.

Lemma str_replace_absent (old new s : string) :
  str_in old s = false -> str_replace old new s = s.
Proof.
  intros Hs. unfold str_replace. destruct old as [|c old].
  - destruct s; discriminate Hs.
  - now apply replace_from_absent.
Qed.

(** A replacement of another text [oldj] by [new] does not bring [old]
    in, when [old] can neither begin nor end inside [new]. *)
Lemma cross_gap (old new oldj : string) (s : string) :
  replace_safe old new = true ->
  forall u : string,
    String.length u < String.length old ->
    String.prefix old (u +:+ replace_from 0 oldj new s) = true ->
    String.prefix old (u +:+ s) = true.
Proof.
  intros Hsafe. induction s as [|c s IH]; intros u Hlen Hp; [assumption|].
  cbn [replace_from] in Hp. destruct (String.prefix oldj (String c s)) eqn:E.
  - exfalso. eapply (no_prefix_into_new old new Hsafe); eassumption.
  - change (u +:+ String c (replace_from 0 oldj new s))
      with (u +:+ String c EmptyString +:+ replace_from 0 oldj new s) in Hp.
    change (u +:+ String c s) with (u +:+ String c EmptyString +:+ s).
    rewrite <- append_assoc in Hp |- *.
    destruct (Nat.le_gt_cases (String.length old) (String.length (u +:+ String c EmptyString)))
      as [Hle|Hgt].
    + apply prefix_app_keep. now apply (prefix_app_short _ _ _ Hp).
    + now apply IH.
Qed.

Lemma cross_clean (old new oldj : string) (s : string) :
  replace_safe old new = true ->
  forall k : nat,
    str_in old s = false -> str_in old (replace_from k oldj new s) = false.
Proof.
  intros Hsafe. pose proof (safe_old_nonempty old new Hsafe) as Hne.
  induction s as [|c s IH]; intros k Hs; [exact Hs|].
  pose proof (str_in_cons_false _ _ _ Hs) as [Hp Hs'].
  cbn [replace_from]. destruct k as [|k]; [|now apply IH].
  destruct (String.prefix oldj (String c s)) eqn:E.
  - rewrite (str_in_skip_new old new Hsafe _ EmptyString new eq_refl). now apply IH.
  - cbn [str_in]. rewrite (IH 0 Hs'), orb_false_r.
    destruct (String.prefix old (String c (replace_from 0 oldj new s))) eqn:Ep; [|reflexivity].
    assert (Hps : String.prefix old (String c s) = true).
    { apply (cross_gap old new oldj (String c s) Hsafe EmptyString).
      - destruct old; [contradiction | cbn; lia].
      - cbn [String.append replace_from]. now rewrite E. }
    congruence.
Qed.

Lemma cross_clean_replace (old new oldj : string) (s : string) :
  replace_safe old new = true -> oldj <> EmptyString ->
  str_in old s = false -> str_in old (str_replace oldj new s) = false.
Proof.
  intros Hsafe Hj Hs. unfold str_replace. destruct oldj; [contradiction|].
  now apply cross_clean.
Qed.

Lemma all_safe_pair (rs : list (string * string)) (r r' : string * string) :
  all_safe rs = true -> r ∈ rs -> r' ∈ rs -> replace_safe (fst r) (snd r') = true.
Proof.
  unfold all_safe. rewrite forallb_forall. intros H Hr Hr'.
  apply list_elem_of_In in Hr, Hr'. specialize (H r Hr).
  rewrite forallb_forall in H. now apply H.
Qed.

(** After the replacements of [todo], no old text of [done ++ todo] is
    left, when none of [done] was there before. *)
Lemma foldl_clean (rs : list (string * string)) :
  all_safe rs = true ->
  forall (todo done : list (string * string)) (c : string),
    rs = done ++ todo ->
    (forall r, r ∈ done -> str_in (fst r) c = false) ->
    forall r, r ∈ rs -> str_in (fst r) (foldl replace_step c todo) = false.
Proof.
  intros Hsafe todo. induction todo as [|[old new] todo IH]; intros done c Hrs Hdone r Hr.
  - rewrite app_nil_r in Hrs. subst rs. now apply Hdone.
  - assert (Hmid : (old, new) ∈ rs)
      by (subst rs; apply elem_of_app; right; apply list_elem_of_here).
    pose proof (all_safe_pair rs (old, new) (old, new) Hsafe Hmid Hmid) as Hself.
    cbn [fst snd] in Hself.
    cbn [foldl]. apply (IH (done ++ [(old, new)])); [now rewrite <- app_assoc | | assumption].
    intros r' Hr'. unfold replace_step. cbn [fst snd].
    apply elem_of_app in Hr' as [Hin | Hin].
    + apply cross_clean_replace; [| | now apply Hdone].
      * apply (all_safe_pair rs r' (old, new) Hsafe); [|exact Hmid].
        subst rs. apply elem_of_app. now left.
      * intros ->. discriminate Hself.
    + apply list_elem_of_singleton in Hin. subst r'. cbn [fst].
      now apply str_replace_clean.
Qed.

Lemma foldl_absent (todo : list (string * string)) (c : string) :
  (forall r, r ∈ todo -> str_in (fst r) c = false) -> foldl replace_step c todo = c.
Proof.
  revert c. induction todo as [|r todo IH]; intros c H; [reflexivity|].
  cbn [foldl]. unfold replace_step at 2.
  rewrite str_replace_absent by (apply H; apply list_elem_of_here).
  apply IH. intros r' Hr'. apply H. now apply list_elem_of_further.
Qed.

Lemma replacements_all_safe : all_safe UpdateInventoryEdit.replacements = true.
Proof. vm_compute. reflexivity. Qed.

(** X13.  A page that has none of the ten old texts goes through
    update-inventory-edit.py unchanged: every [replace] is a silent no-op
    and the script writes the text it read and reports success. *)
Theorem page_without_old_texts_is_kept (w : world) (bytes : string) :
  fs w !! UpdateInventoryEdit.path = Some bytes -> utf8_valid bytes = true ->
  Forall (fun r => str_in (fst r) (universal_newlines bytes) = false)
    UpdateInventoryEdit.replacements ->
  UpdateInventoryEdit.patch (universal_newlines bytes) = universal_newlines bytes /\
  UpdateInventoryEdit.main w =
    (Ok tt, rewritten w UpdateInventoryEdit.path
              (linesep_newlines (os_linesep w) (universal_newlines bytes))
              UpdateInventoryEdit.message).
Proof.
  intros Hf Hv Hnone.
  assert (Hpatch : UpdateInventoryEdit.patch (universal_newlines bytes) = universal_newlines bytes).
  { apply (foldl_absent UpdateInventoryEdit.replacements).
    intros r Hr. exact (proj1 (Forall_forall _ _) Hnone r Hr). }
  split; [exact Hpatch|].
  rewrite (update_inventory_edit_run w bytes Hf Hv). now rewrite Hpatch.
Qed.

Lemma page_without_old_texts_is_kept_witness :
  fs unix_page !! UpdateInventoryEdit.path = Some ("a" +:+ nl) /\
  UpdateInventoryEdit.patch ("a" +:+ nl) = "a" +:+ nl /\
  fs (snd (UpdateInventoryEdit.main unix_page)) = fs unix_page.
Proof.
  assert (Hf : fs unix_page !! UpdateInventoryEdit.path = Some ("a" +:+ nl))
    by (vm_compute; reflexivity).
  split; [exact Hf|].
  destruct (page_without_old_texts_is_kept unix_page ("a" +:+ nl) Hf eq_refl) as (Hp & Hrun).
  { repeat constructor. }
  split; [exact Hp|]. rewrite Hrun. cbn [snd]. unfold rewritten. cbn [fs].
  apply insert_id. exact Hf.
Defined.

Lemma patch_leaves_no_old_text (content : string) (r : string * string) :
  r ∈ UpdateInventoryEdit.replacements ->
  str_in (fst r) (UpdateInventoryEdit.patch content) = false.
Proof.
  apply (foldl_clean UpdateInventoryEdit.replacements replacements_all_safe
           UpdateInventoryEdit.replacements [] content eq_refl).
  intros r' Hr'. inversion Hr'.
Qed.

Lemma patch_twice (content : string) :
  UpdateInventoryEdit.patch (UpdateInventoryEdit.patch content)
  = UpdateInventoryEdit.patch content.
Proof.
  apply (foldl_absent UpdateInventoryEdit.replacements).
  intros r. apply patch_leaves_no_old_text.
Qed.

(** X14.  update-inventory-edit.py is safe to run again.  After the ten
    replacements none of the ten old texts is left in the page, whatever
    the page was, so a second run of the replacements changes nothing. *)
Theorem replacements_are_idempotent (content : string) :
  Forall (fun r => str_in (fst r) (UpdateInventoryEdit.patch content) = false)
    UpdateInventoryEdit.replacements /\
  UpdateInventoryEdit.patch (UpdateInventoryEdit.patch content)
  = UpdateInventoryEdit.patch content.
Proof.
  split.
  - apply Forall_forall. intros r. apply patch_leaves_no_old_text.
  - apply patch_twice.
Qed.

End Replacements.

(** ** convert-to-modal.py: the later substitutions *)

Section LiteralPatterns.

Import Re.

Lemma match_lits (dotall : bool) (cs : list ascii) :
  forall s : string,
    match_here dotall (map Chr cs) s =
    if String.prefix (string_of_list_ascii cs) s then Some (length cs, []) else None.
Proof.
  induction cs as [|c cs IH]; intros s.
  - cbn. now rewrite prefix_nil.
  - cbn [map match_here string_of_list_ascii length].
    destruct s as [|d s]; [reflexivity|]. cbn [String.prefix].
    destruct (Ascii.eqb_spec c d) as [->|Hne].
    + destruct (ascii_dec d d) as [_|]; [|contradiction]. rewrite IH.
      now destruct (String.prefix (string_of_list_ascii cs) s).
    + now destruct (ascii_dec c d).
Qed.

Lemma expand_lits (es : list ascii) (g : string) :
  expand (map Lit es) g = string_of_list_ascii es.
Proof. induction es as [|e es IH]; cbn; [reflexivity | now f_equal]. Qed.

Lemma no_group_in_lits (es : list ascii) : existsb is_group1 (map Lit es) = false.
Proof. induction es as [|e es IH]; [reflexivity | exact IH]. Qed.

(** A pattern of literal characters and a template of literal
    characters: [re.sub] is [str.replace]. *)
Lemma sub_from_lits (dotall : bool) (c0 : ascii) (cs es : list ascii) (s : string) :
  forall k : nat,
    sub_from dotall (map Chr (c0 :: cs)) (map Lit es) k None s =
    replace_from k (string_of_list_ascii (c0 :: cs)) (string_of_list_ascii es) s.
Proof.
  induction s as [|c s IH]; intros k; [reflexivity|].
  cbn [sub_from replace_from]. destruct k as [|k]; [|apply IH].
  rewrite match_lits.
  destruct (String.prefix (string_of_list_ascii (c0 :: cs)) (String c s)) eqn:Ep.
  - cbn [length fmap option_fmap option_map]. rewrite expand_lits, IH.
    rewrite length_string_of_list_ascii. cbn [length].
    now replace (S (length cs) - 1) with (length cs) by lia.
  - now rewrite IH.
Qed.

Lemma sub_lits (pattern repl l content : string) (dotall : bool) :
  compile pattern = Some (map Chr (list_ascii_of_string l)) -> l <> EmptyString ->
  template repl = Some (map Lit (list_ascii_of_string repl)) ->
  sub pattern repl content 0 dotall = Some (str_replace l repl content).
Proof.
  intros Hc Hl Ht. unfold sub. rewrite Hc, Ht, no_group_in_lits. cbn [andb]. f_equal.
  destruct l as [|c0 l]; [contradiction|]. cbn [list_ascii_of_string].
  rewrite sub_from_lits. change (c0 :: list_ascii_of_string l)
    with (list_ascii_of_string (String c0 l)).
  rewrite !string_of_list_ascii_of_string. reflexivity.
Qed.

End LiteralPatterns.

Section LaterSubstitutions.

Import ConvertToModal.

Lemma old_form_literal :
  Re.compile old_form = Some (map Re.Chr (list_ascii_of_string (unescape old_form))).
Proof. vm_compute. reflexivity. Qed.

Lemma old_form_tag_literal :
  Re.compile old_form_tag = Some (map Re.Chr (list_ascii_of_string (unescape old_form_tag))).
Proof. vm_compute. reflexivity. Qed.

(** X15.  The second and the third substitution of convert-to-modal.py
    have patterns without wildcard or group, and templates without
    reference: each is the plain replacement of the pattern's text (the
    pattern without its escaping backslashes) by the new text, at every
    occurrence, and leaves no occurrence of that text behind, so neither
    can match again on its own result. *)
Theorem literal_substitutions_are_replacements (content : string) :
  Re.sub old_form new_form content 0 true
  = Some (str_replace (unescape old_form) new_form content) /\
  Re.sub old_form_tag new_form_tag content 0 false
  = Some (str_replace (unescape old_form_tag) new_form_tag content) /\
  str_in (unescape old_form) (str_replace (unescape old_form) new_form content) = false /\
  str_in (unescape old_form_tag)
    (str_replace (unescape old_form_tag) new_form_tag content) = false.
Proof.
  repeat split.
  - apply sub_lits; [exact old_form_literal | discriminate | vm_compute; reflexivity].
  - apply sub_lits; [exact old_form_tag_literal | discriminate | vm_compute; reflexivity].
  - apply str_replace_clean. vm_compute. reflexivity.
  - apply str_replace_clean. vm_compute. reflexivity.
Qed.

End LaterSubstitutions.

(** ** convert-to-modal.py: the button row and its wildcard *)

Section Wildcard.

Import Re.

Lemma sub_from_sdrop (dotall : bool) (p : list atom) (t : list item) (left : option nat) :
  forall (s : string) (k : nat),
    sub_from dotall p t k left s = sub_from dotall p t 0 left (sdrop k s).
Proof.
  induction s as [|c s IH]; intros [|k]; try reflexivity.
  cbn [sdrop]. rewrite <- IH. reflexivity.
Qed.

Lemma sdrop_append (a b : string) : sdrop (String.length a) (a +:+ b) = b.
Proof. induction a as [|c a IH]; [reflexivity | exact IH]. Qed.

Lemma sdrop_add (a b : nat) (s : string) : sdrop (a + b) s = sdrop b (sdrop a s).
Proof.
  revert s. induction a as [|a IH]; intros s; [reflexivity|].
  destruct s as [|c s]; [now destruct b | apply IH].
Qed.

Lemma prefix_append (a b : string) : String.prefix a (a +:+ b) = true.
Proof.
  induction a as [|c a IH]; [apply prefix_nil|].
  cbn [String.append String.prefix]. now destruct (ascii_dec c c).
Qed.

Lemma find_None (l s : string) : str_in l s = false -> find l s = None.
Proof.
  induction s as [|c s IH]; intros H.
  - cbn in *. rewrite orb_false_r in H. now rewrite H.
  - apply str_in_cons_false in H as [Hp H]. cbn [find]. rewrite Hp, (IH H). reflexivity.
Qed.

Lemma str_in_sdrop (l s : string) (k : nat) :
  str_in l s = false -> str_in l (sdrop k s) = false.
Proof.
  revert s. induction k as [|k IH]; intros s H; [exact H|].
  destruct s as [|c s]; [exact H|]. apply str_in_cons_false in H as [_ H]. now apply IH.
Qed.

(** With [DOTALL] the lazy wildcard runs up to the first place where the
    rest of the pattern is found, whatever stands before it. *)
Lemma match_any_lits (ts : list ascii) :
  forall s : string,
    match_here true (AnyLazy :: map Chr ts) s =
    (fun k => (k + length ts, [])) <$> find (string_of_list_ascii ts) s.
Proof.
  induction s as [|d s IH].
  - cbn [match_here find]. rewrite match_lits.
    now destruct (String.prefix (string_of_list_ascii ts) EmptyString).
  - change (match_here true (AnyLazy :: map Chr ts) (String d s))
      with (match match_here true (map Chr ts) (String d s) with
            | Some r => Some r
            | None => if true || negb (Ascii.eqb d LF)
                      then shift (match_here true (AnyLazy :: map Chr ts) s) else None
            end).
    rewrite match_lits. cbn [find orb].
    destruct (String.prefix (string_of_list_ascii ts) (String d s)); [reflexivity|].
    rewrite IH. now destruct (find (string_of_list_ascii ts) s).
Qed.

Lemma match_lits_any_lits (hs ts : list ascii) :
  forall s : string,
    match_here true (map Chr hs ++ AnyLazy :: map Chr ts) s =
    if String.prefix (string_of_list_ascii hs) s
    then (fun k => (length hs + k + length ts, []))
           <$> find (string_of_list_ascii ts) (sdrop (length hs) s)
    else None.
Proof.
  induction hs as [|c hs IH]; intros s.
  - cbn [map app string_of_list_ascii length sdrop]. rewrite prefix_nil.
    apply match_any_lits.
  - cbn [map app match_here string_of_list_ascii length].
    destruct s as [|d s]; [reflexivity|]. cbn [String.prefix sdrop].
    destruct (Ascii.eqb_spec c d) as [->|Hne].
    + destruct (ascii_dec d d) as [_|]; [|contradiction]. rewrite IH.
      destruct (String.prefix (string_of_list_ascii hs) s); [|reflexivity].
      now destruct (find (string_of_list_ascii ts) (sdrop (length hs) s)).
    + now destruct (ascii_dec c d).
Qed.

Section OnePattern.

Variables (h0 : ascii) (hs ts es : list ascii).

Lemma sub_from_head_tail (mid rest : string) :
  find (string_of_list_ascii ts) (mid +:+ string_of_list_ascii ts +:+ rest)
  = Some (String.length mid) ->
  sub_from true (map Chr (h0 :: hs) ++ AnyLazy :: map Chr ts) (map Lit es) 0 None
    (string_of_list_ascii (h0 :: hs) +:+ mid +:+ string_of_list_ascii ts +:+ rest) =
  string_of_list_ascii es +:+
  sub_from true (map Chr (h0 :: hs) ++ AnyLazy :: map Chr ts) (map Lit es) 0 None rest.
Proof.
  intros Hfind.
  set (p := map Chr (h0 :: hs) ++ AnyLazy :: map Chr ts).
  set (head := string_of_list_ascii (h0 :: hs)).
  set (tail := string_of_list_ascii ts) in *.
  assert (Hm : match_here true p (head +:+ mid +:+ tail +:+ rest) =
               Some (length (h0 :: hs) + String.length mid + length ts, [])).
  { unfold p. rewrite match_lits_any_lits. fold head. rewrite prefix_append.
    rewrite <- (length_string_of_list_ascii (h0 :: hs)). fold head.
    rewrite sdrop_append. fold tail. now rewrite Hfind. }
  remember (head +:+ mid +:+ tail +:+ rest) as s eqn:Es.
  assert (Hs : exists s', s = String h0 s') by (subst s; cbn; eauto).
  destruct Hs as [s' Hs]. rewrite Hs in Hm |- *.
  cbn [sub_from]. rewrite Hm. cbn [length Nat.add fmap option_fmap option_map].
  rewrite expand_lits. f_equal.
  rewrite sub_from_sdrop. f_equal.
  assert (Ed : s' = string_of_list_ascii hs +:+ mid +:+ tail +:+ rest).
  { rewrite Es in Hs. cbn in Hs. now injection Hs as <-. }
  rewrite Ed, <- (length_string_of_list_ascii hs), !sdrop_add, sdrop_append, sdrop_append.
  unfold tail. rewrite <- (length_string_of_list_ascii ts). apply sdrop_append.
Qed.

Lemma sub_from_no_tail (s : string) :
  str_in (string_of_list_ascii ts) s = false ->
  sub_from true (map Chr (h0 :: hs) ++ AnyLazy :: map Chr ts) (map Lit es) 0 None s = s.
Proof.
  intros H. induction s as [|c s IH]; [reflexivity|].
  cbn [sub_from].
  assert (Hm : match_here true (map Chr (h0 :: hs) ++ AnyLazy :: map Chr ts) (String c s) = None).
  { rewrite match_lits_any_lits.
    destruct (String.prefix (string_of_list_ascii (h0 :: hs)) (String c s)); [|reflexivity].
    now rewrite (find_None _ _ (str_in_sdrop _ _ _ H)). }
  rewrite Hm. apply str_in_cons_false in H as [_ H]. now rewrite (IH H).
Qed.

Lemma sub_from_no_head (s : string) :
  str_in (string_of_list_ascii (h0 :: hs)) s = false ->
  sub_from true (map Chr (h0 :: hs) ++ AnyLazy :: map Chr ts) (map Lit es) 0 None s = s.
Proof.
  intros H. induction s as [|c s IH]; [reflexivity|].
  cbn [sub_from]. apply str_in_cons_false in H as [Hp H].
  assert (Hm : match_here true (map Chr (h0 :: hs) ++ AnyLazy :: map Chr ts) (String c s) = None).
  { rewrite match_lits_any_lits. now rewrite Hp. }
  rewrite Hm. now rewrite (IH H).
Qed.

End OnePattern.

End Wildcard.

Section ButtonRow.

Import ConvertToModal.

Lemma buttons_shape :
  exists h0 hs,
    list_ascii_of_string buttons_head = h0 :: hs /\
    Re.compile old_buttons =
      Some (map Re.Chr (h0 :: hs) ++ Re.AnyLazy :: map Re.Chr (list_ascii_of_string buttons_tail)).
Proof. eexists _, _. split; vm_compute; reflexivity. Qed.

Lemma buttons_pattern_text :
  unescape old_buttons = buttons_head +:+ ".*?" +:+ buttons_tail.
Proof. vm_compute. reflexivity. Qed.

Lemma new_buttons_template :
  Re.template new_buttons = Some (map Re.Lit (list_ascii_of_string new_buttons)).
Proof. vm_compute. reflexivity. Qed.

Lemma buttons_sub_from :
  exists h0 hs,
    string_of_list_ascii (h0 :: hs) = buttons_head /\
    forall content,
      Re.sub old_buttons new_buttons content 0 true =
      Some (Re.sub_from true
              (map Re.Chr (h0 :: hs) ++ Re.AnyLazy :: map Re.Chr (list_ascii_of_string buttons_tail))
              (map Re.Lit (list_ascii_of_string new_buttons)) 0 None content).
Proof.
  destruct buttons_shape as (h0 & hs & Hh & Hc). exists h0, hs. split.
  - now rewrite <- Hh, string_of_list_ascii_of_string.
  - intros content. unfold Re.sub. rewrite Hc, new_buttons_template, no_group_in_lits.
    reflexivity.
Qed.

(** X16.  The button row is replaced whatever its [onClick] handler is.
    The pattern of the fourth substitution is the row's text up to
    [onClick={], a lazy wildcard, and the row's text from the closing
    brace on.  With [DOTALL] the wildcard takes everything, line feeds
    included, up to the first place where that second text begins: the
    whole stretch is replaced by the new button row, and the substitution
    goes on behind it. *)
Theorem button_row_is_replaced_whatever_the_handler (mid rest : string) :
  find buttons_tail (mid +:+ buttons_tail +:+ rest) = Some (String.length mid) ->
  exists r,
    Re.sub old_buttons new_buttons rest 0 true = Some r /\
    Re.sub old_buttons new_buttons
      (buttons_head +:+ mid +:+ buttons_tail +:+ rest) 0 true
    = Some (new_buttons +:+ r).
Proof.
  intros Hfind. destruct buttons_sub_from as (h0 & hs & Hh & Hsub).
  eexists. split; [apply Hsub|]. rewrite Hsub. f_equal.
  rewrite <- Hh, <- (string_of_list_ascii_of_string buttons_tail) at 1.
  rewrite sub_from_head_tail.
  - now rewrite string_of_list_ascii_of_string.
  - now rewrite string_of_list_ascii_of_string.
Qed.

Lemma button_row_is_replaced_whatever_the_handler_witness :
  find buttons_tail (two_line_handler +:+ buttons_tail +:+ nl)
  = Some (String.length two_line_handler) /\
  Re.sub old_buttons new_buttons
    (buttons_head +:+ two_line_handler +:+ buttons_tail +:+ nl) 0 true
  = Some (new_buttons +:+ nl).
Proof.
  assert (H : find buttons_tail (two_line_handler +:+ buttons_tail +:+ nl)
              = Some (String.length two_line_handler)) by (vm_compute; reflexivity).
  split; [exact H|].
  destruct (button_row_is_replaced_whatever_the_handler two_line_handler nl H)
    as (r & Hr & Hsub).
  rewrite Hsub. f_equal. f_equal.
  assert (Hnl : Re.sub old_buttons new_buttons nl 0 true = Some nl) by (vm_compute; reflexivity).
  congruence.
Defined.

(** X17.  The fourth substitution needs both ends of the button row: a
    text in which the row's text up to [onClick={] does not occur, or in
    which the row's text from the handler's closing brace on does not
    occur, is returned as it is, also when the other end is there. *)
Theorem button_row_needs_both_ends (content : string) :
  str_in buttons_head content = false \/ str_in buttons_tail content = false ->
  Re.sub old_buttons new_buttons content 0 true = Some content.
Proof.
  intros H. destruct buttons_sub_from as (h0 & hs & Hh & Hsub).
  rewrite Hsub. f_equal. destruct H as [H | H].
  - apply sub_from_no_head. now rewrite Hh.
  - apply sub_from_no_tail. now rewrite string_of_list_ascii_of_string.
Qed.

Lemma button_row_needs_both_ends_witness :
  str_in buttons_tail (buttons_head +:+ two_line_handler) = false /\
  Re.sub old_buttons new_buttons (buttons_head +:+ two_line_handler) 0 true
  = Some (buttons_head +:+ two_line_handler).
Proof.
  assert (H : str_in buttons_tail (buttons_head +:+ two_line_handler) = false)
    by (vm_compute; reflexivity).
  split; [exact H|].
  apply (button_row_needs_both_ends (buttons_head +:+ two_line_handler)). now right.
Defined.

End ButtonRow.

(** ** update-inventory-edit.py: a second run *)

Section Utf8.

Lemma high_not_ascii (lo hi : N) (c : ascii) :
  (128 <= lo)%N -> between lo hi c = true -> between 0 127 c = false.
Proof.
  unfold between. intros Hlo H. apply andb_true_iff in H as [H1 _].
  apply N.leb_le in H1. apply andb_false_iff. right. apply N.leb_gt. lia.
Qed.

Lemma cont_not_ascii (c : ascii) : cont c = true -> between 0 127 c = false.
Proof. apply high_not_ascii. lia. Qed.

Ltac hi H := first
  [ exact (cont_not_ascii _ H)
  | eapply high_not_ascii; [|exact H]; lia ].

(** A well-formed text that starts with a byte above 127 starts with one
    encoded character of two to four such bytes. *)
Lemma utf8_lead (b0 : ascii) (s1 : string) :
  between 0 127 b0 = false -> utf8_valid (String b0 s1) = true ->
  exists u rest,
    String b0 s1 = u +:+ rest /\ String.length rest < String.length (String b0 s1) /\
    no_ascii u = true /\ utf8_valid rest = true /\
    forall t, utf8_valid (u +:+ t) = utf8_valid t.
Proof.
  intros Hna H. cbn [utf8_valid] in H. rewrite Hna in H.
  destruct s1 as [|b1 s2]; [discriminate|].
  destruct (between 194 223 b0) eqn:E2.
  { apply andb_true_iff in H as [H1 Hv].
    exists (String b0 (String b1 EmptyString)), s2.
    repeat split; [cbn; lia | | exact Hv |].
    - cbn [no_ascii]. rewrite Hna. rewrite (cont_not_ascii _ H1). reflexivity.
    - intros t. cbn [String.append utf8_valid]. now rewrite Hna, E2, H1. }
  destruct s2 as [|b2 s3]; [discriminate|].
  assert (H3 : forall c1 : bool,
             c1 && cont b2 && utf8_valid s3 = true ->
             (forall t, utf8_valid (String b0 (String b1 (String b2 t))) = c1 && cont b2 && utf8_valid t) ->
             (c1 = true -> between 0 127 b1 = false) ->
             exists u rest,
               String b0 (String b1 (String b2 s3)) = u +:+ rest /\
               String.length rest < String.length (String b0 (String b1 (String b2 s3))) /\
               no_ascii u = true /\ utf8_valid rest = true /\
               forall t, utf8_valid (u +:+ t) = utf8_valid t).
  { intros c1 Hc Hshape Hb1. apply andb_true_iff in Hc as [Hc Hv].
    apply andb_true_iff in Hc as [Hc1 Hc2].
    exists (String b0 (String b1 (String b2 EmptyString))), s3.
    repeat split; [cbn; lia | | exact Hv |].
    - cbn [no_ascii]. now rewrite Hna, (Hb1 Hc1), (cont_not_ascii _ Hc2).
    - intros t. cbn [String.append]. now rewrite Hshape, Hc1, Hc2. }
  destruct (between 224 224 b0) eqn:E3a.
  { apply (H3 _ H); [|intros Hc; hi Hc].
    intros t. cbn [utf8_valid]. now rewrite Hna, E2, E3a. }
  destruct (between 225 236 b0) eqn:E3b.
  { apply (H3 _ H); [|intros Hc; hi Hc].
    intros t. cbn [utf8_valid]. now rewrite Hna, E2, E3a, E3b. }
  destruct (between 237 237 b0) eqn:E3c.
  { apply (H3 _ H); [|intros Hc; hi Hc].
    intros t. cbn [utf8_valid]. now rewrite Hna, E2, E3a, E3b, E3c. }
  destruct (between 238 239 b0) eqn:E3d.
  { apply (H3 _ H); [|intros Hc; hi Hc].
    intros t. cbn [utf8_valid]. now rewrite Hna, E2, E3a, E3b, E3c, E3d. }
  clear H3. destruct s3 as [|b3 s4]; [discriminate|].
  assert (H4 : forall c1 : bool,
             c1 && cont b2 && cont b3 && utf8_valid s4 = true ->
             (forall t, utf8_valid (String b0 (String b1 (String b2 (String b3 t))))
                        = c1 && cont b2 && cont b3 && utf8_valid t) ->
             (c1 = true -> between 0 127 b1 = false) ->
             exists u rest,
               String b0 (String b1 (String b2 (String b3 s4))) = u +:+ rest /\
               String.length rest
               < String.length (String b0 (String b1 (String b2 (String b3 s4)))) /\
               no_ascii u = true /\ utf8_valid rest = true /\
               forall t, utf8_valid (u +:+ t) = utf8_valid t).
  { intros c1 Hc Hshape Hb1. apply andb_true_iff in Hc as [Hc Hv].
    apply andb_true_iff in Hc as [Hc Hc3]. apply andb_true_iff in Hc as [Hc1 Hc2].
    exists (String b0 (String b1 (String b2 (String b3 EmptyString)))), s4.
    repeat split; [cbn; lia | | exact Hv |].
    - cbn [no_ascii].
      now rewrite Hna, (Hb1 Hc1), (cont_not_ascii _ Hc2), (cont_not_ascii _ Hc3).
    - intros t. cbn [String.append]. now rewrite Hshape, Hc1, Hc2, Hc3. }
  destruct (between 240 240 b0) eqn:E4a.
  { apply (H4 _ H); [|intros Hc; hi Hc].
    intros t. cbn [utf8_valid]. now rewrite Hna, E2, E3a, E3b, E3c, E3d, E4a. }
  destruct (between 241 243 b0) eqn:E4b.
  { apply (H4 _ H); [|intros Hc; hi Hc].
    intros t. cbn [utf8_valid]. now rewrite Hna, E2, E3a, E3b, E3c, E3d, E4a, E4b. }
  destruct (between 244 244 b0) eqn:E4c; [|discriminate].
  apply (H4 _ H); [|intros Hc; hi Hc].
  intros t. cbn [utf8_valid]. now rewrite Hna, E2, E3a, E3b, E3c, E3d, E4a, E4b, E4c.
Qed.

Lemma utf8_valid_app (a b : string) :
  utf8_valid a = true -> utf8_valid (a +:+ b) = utf8_valid b.
Proof.
  remember (String.length a) as n eqn:En. revert a En.
  induction n as [n IH] using lt_wf_ind. intros a En Ha.
  destruct a as [|b0 a1]; [reflexivity|].
  destruct (between 0 127 b0) eqn:E0.
  - cbn [String.append utf8_valid] in *. rewrite E0 in *.
    apply (IH (String.length a1)); [subst n; cbn; lia | reflexivity | exact Ha].
  - destruct (utf8_lead b0 a1 E0 Ha) as (u & rest & Eu & Hlen & _ & Hrest & Hu).
    rewrite Eu, append_assoc, Hu.
    apply (IH (String.length rest)); [subst n; exact Hlen | reflexivity | exact Hrest].
Qed.

(** A text transformation that steps over bytes above 127 and, at an
    ASCII character, puts out a well-formed text and goes on with a
    well-formed rest, keeps texts well-formed. *)
Lemma utf8_valid_kept (f : string -> string) :
  (forall c s, between 0 127 c = false -> f (String c s) = String c (f s)) ->
  (forall c s, between 0 127 c = true -> utf8_valid s = true ->
     exists a s', f (String c s) = a +:+ f s' /\ utf8_valid a = true /\
                  utf8_valid s' = true /\ String.length s' <= String.length s) ->
  utf8_valid (f EmptyString) = true ->
  forall s, utf8_valid s = true -> utf8_valid (f s) = true.
Proof.
  intros Hhigh Hlow Hnil s.
  remember (String.length s) as n eqn:En. revert s En.
  induction n as [n IH] using lt_wf_ind. intros s En Hs.
  destruct s as [|b0 s1]; [exact Hnil|].
  destruct (between 0 127 b0) eqn:E0.
  - assert (Hs1 : utf8_valid s1 = true) by (cbn [utf8_valid] in Hs; now rewrite E0 in Hs).
    destruct (Hlow b0 s1 E0 Hs1) as (a & s' & -> & Ha & Hs' & Hlen).
    rewrite (utf8_valid_app _ _ Ha).
    apply (IH (String.length s')); [subst n; cbn; lia | reflexivity | exact Hs'].
  - destruct (utf8_lead b0 s1 E0 Hs) as (u & rest & Eu & Hlen & Hu & Hrest & Hv).
    rewrite Eu. assert (Hf : f (u +:+ rest) = u +:+ f rest).
    { clear Eu Hv. induction u as [|c u IHu]; [reflexivity|].
      cbn [no_ascii] in Hu. apply andb_true_iff in Hu as [Hc Hu].
      apply negb_true_iff in Hc. cbn [String.append]. rewrite (Hhigh _ _ Hc).
      now rewrite (IHu Hu). }
    rewrite Hf, Hv.
    apply (IH (String.length rest)); [subst n; exact Hlen | reflexivity | exact Hrest].
Qed.

Lemma ascii_valid (c : ascii) :
  between 0 127 c = true -> utf8_valid (String c EmptyString) = true.
Proof. intros H. cbn [utf8_valid]. now rewrite H. Qed.

Lemma ascii_tail_valid (c : ascii) (s : string) :
  between 0 127 c = true -> utf8_valid (String c s) = utf8_valid s.
Proof. intros H. cbn [utf8_valid]. now rewrite H. Qed.

Lemma not_ascii_neq (c d : ascii) :
  between 0 127 c = false -> between 0 127 d = true -> Ascii.eqb c d = false.
Proof. intros Hc Hd. destruct (Ascii.eqb_spec c d) as [->|]; congruence. Qed.

Lemma universal_newlines_valid (s : string) :
  utf8_valid s = true -> utf8_valid (universal_newlines s) = true.
Proof.
  apply utf8_valid_kept; [| |reflexivity].
  - intros c t Hc. cbn [universal_newlines].
    now rewrite (not_ascii_neq c CR Hc eq_refl).
  - intros c t Hc Ht. cbn [universal_newlines].
    destruct (Ascii.eqb c CR).
    + destruct t as [|d t'].
      * exists nl, EmptyString. repeat split; auto.
      * destruct (Ascii.eqb_spec d LF) as [->|].
        -- exists nl, t'. repeat split; [| cbn; lia].
           now rewrite <- (ascii_tail_valid LF t' eq_refl).
        -- exists nl, (String d t'). repeat split; auto.
    + exists (String c EmptyString), t. repeat split; [now apply ascii_valid | exact Ht | lia].
Qed.

Lemma linesep_newlines_valid (linesep s : string) :
  utf8_valid linesep = true -> utf8_valid s = true ->
  utf8_valid (linesep_newlines linesep s) = true.
Proof.
  intros Hl. apply utf8_valid_kept; [| |reflexivity].
  - intros c t Hc. cbn [linesep_newlines].
    now rewrite (not_ascii_neq c LF Hc eq_refl).
  - intros c t Hc Ht. cbn [linesep_newlines]. destruct (Ascii.eqb c LF).
    + exists linesep, t. repeat split; [exact Hl | exact Ht | lia].
    + exists (String c EmptyString), t. repeat split; [now apply ascii_valid | exact Ht | lia].
Qed.

Lemma replace_from_sdrop (old new : string) :
  forall (s : string) (k : nat),
    replace_from k old new s = replace_from 0 old new (sdrop k s).
Proof.
  induction s as [|c s IH]; intros [|k]; try reflexivity.
  cbn [sdrop]. rewrite <- IH. reflexivity.
Qed.

Lemma length_sdrop (k : nat) (s : string) : String.length (sdrop k s) <= String.length s.
Proof.
  revert s. induction k as [|k IH]; intros s; [reflexivity|].
  destruct s as [|c s]; [reflexivity|]. cbn [sdrop String.length]. specialize (IH s). lia.
Qed.

Lemma str_replace_valid (old new s : string) :
  starts_ascii old = true -> utf8_valid old = true -> utf8_valid new = true ->
  utf8_valid s = true -> utf8_valid (str_replace old new s) = true.
Proof.
  intros Ha Hold Hnew. destruct old as [|o0 old']; [discriminate|].
  cbn [starts_ascii] in Ha. unfold str_replace.
  apply utf8_valid_kept; [| |reflexivity].
  - intros c t Hc. cbn [replace_from String.prefix].
    destruct (ascii_dec o0 c) as [->|_]; [congruence | reflexivity].
  - intros c t Hc Ht. cbn [replace_from].
    destruct (String.prefix (String o0 old') (String c t)) eqn:Ep.
    + exists new, (sdrop (String.length (String o0 old') - 1) t).
      repeat split; [now rewrite <- replace_from_sdrop | exact Hnew | | apply length_sdrop].
      pose proof (prefix_sdrop _ _ Ep) as Es.
      assert (Hall : utf8_valid (String c t) = true) by now rewrite ascii_tail_valid.
      rewrite Es, (utf8_valid_app _ _ Hold) in Hall.
      cbn [String.length sdrop] in Hall |- *.
      now replace (S (String.length old') - 1) with (String.length old') by lia.
    + exists (String c EmptyString), t.
      repeat split; [now apply ascii_valid | exact Ht | lia].
Qed.

End Utf8.

Section SecondRun.

Import UpdateInventoryEdit.

Lemma universal_newlines_has_no_cr (s : string) : str_in cr (universal_newlines s) = false.
Proof.
  remember (String.length s) as n eqn:En. revert s En.
  induction n as [n IH] using lt_wf_ind. intros s En.
  destruct s as [|c s']; [reflexivity|]. cbn [universal_newlines].
  destruct (Ascii.eqb_spec c CR) as [->|Hne].
  - destruct s' as [|d s'']; [reflexivity|].
    destruct (Ascii.eqb d LF).
    + cbn [str_in]. rewrite (IH (String.length s'')); [reflexivity | subst n; cbn; lia | reflexivity].
    + cbn [str_in]. rewrite (IH (String.length (String d s''))); [reflexivity | subst n; cbn; lia | reflexivity].
  - cbn [str_in]. rewrite (IH (String.length s')); [| subst n; cbn; lia | reflexivity].
    rewrite orb_false_r. unfold cr. cbn [String.prefix].
    destruct (ascii_dec CR c) as [<-|_]; [contradiction | reflexivity].
Qed.

Lemma replacements_plain : plain_texts replacements = true.
Proof. vm_compute. reflexivity. Qed.

Lemma patch_keeps (content : string) :
  utf8_valid content = true -> str_in cr content = false ->
  utf8_valid (patch content) = true /\ str_in cr (patch content) = false.
Proof.
  unfold patch. pose proof replacements_plain as Hplain. unfold plain_texts in Hplain.
  revert content Hplain. generalize replacements.
  induction l as [|[old new] rs IH]; intros content Hplain Hv Hcr; [now split|].
  cbn [forallb fst snd] in Hplain.
  apply andb_true_iff in Hplain as [Hr Hrs]. apply andb_true_iff in Hr as [Hr Hsafe].
  apply andb_true_iff in Hr as [Hr Hnew]. apply andb_true_iff in Hr as [Ha Hold].
  cbn [foldl fst snd]. apply (IH _ Hrs).
  - now apply str_replace_valid.
  - apply cross_clean_replace; [exact Hsafe | | exact Hcr].
    intros ->. discriminate Ha.
Qed.

(** X18.  A second run of update-inventory-edit.py leaves the page as
    the first run left it.  Whatever the page holds, as long as it can be
    read: the file the first run writes is well-formed UTF-8 again, it is
    read back as the text that was written, none of the ten old texts is
    left in it, and the second run ends normally and writes the same
    bytes again. *)
Theorem second_run_changes_nothing (w : world) (bytes : string) :
  fs w !! path = Some bytes -> utf8_valid bytes = true ->
  os_linesep w = nl \/ os_linesep w = crlf ->
  fst (main (snd (main w))) = Ok tt /\
  fs (snd (main (snd (main w)))) = fs (snd (main w)).
Proof.
  intros Hf Hv Hsep.
  rewrite (update_inventory_edit_run w bytes Hf Hv). cbn [snd].
  set (t := universal_newlines bytes).
  destruct (patch_keeps t (universal_newlines_valid _ Hv) (universal_newlines_has_no_cr _))
    as [Hpv Hpc].
  set (data := linesep_newlines (os_linesep w) (patch t)).
  set (w1 := rewritten w path data message).
  assert (Hsepv : utf8_valid (os_linesep w) = true) by (destruct Hsep as [-> | ->]; reflexivity).
  assert (Hdata : utf8_valid data = true) by now apply linesep_newlines_valid.
  assert (Hback : universal_newlines data = patch t).
  { unfold data. destruct Hsep as [-> | ->].
    - rewrite linesep_newlines_lf. now apply universal_newlines_no_cr.
    - now apply universal_newlines_crlf. }
  rewrite (update_inventory_edit_run w1 data (fs_rewritten_same _ _ _ _) Hdata).
  cbn [fst snd]. split; [reflexivity|].
  rewrite Hback, patch_twice. unfold rewritten. cbn [fs os_linesep]. fold data.
  unfold w1, rewritten. cbn [fs]. apply insert_insert_eq.
Qed.

Lemma second_run_changes_nothing_witness :
  fs unix_page !! path = Some ("a" +:+ nl) /\
  fs (snd (main (snd (main unix_page)))) = fs (snd (main unix_page)).
Proof.
  assert (Hf : fs unix_page !! path = Some ("a" +:+ nl)) by (vm_compute; reflexivity).
  split; [exact Hf|].
  apply (second_run_changes_nothing unix_page ("a" +:+ nl) Hf eq_refl). now left.
Defined.

End SecondRun.
